(** * s3-store-mock: a file-system backed mock of an S3 object store

    Shallow embedding of [src/index.mjs] and verification of its
    specification.

    Conventions of the embedding.
    - A JavaScript string is represented by the byte sequence of the
      UTF-8 of its code points, as a [string]; an unpaired surrogate, which
      has no UTF-8, is represented by the three bytes of the generalised
      encoding of its code point ([0xed], [0xa0..0xbf], [0x80..0xbf]).  A
      Node [Buffer] is a byte sequence, also a [string].
      [Buffer.from(s)] and the writing of a string with the encoding
      ['utf8'] are [Utf8.encode], which is the identity but for the
      unpaired surrogates, encoded as U+FFFD; [buf.toString('utf8')] is
      the UTF-8 decoder [Utf8.decode], which replaces ill-formed sequences
      by U+FFFD; [JSON.stringify] writes an unpaired surrogate as an
      escape.  The names of files are byte sequences: a key is
      represented by the bytes that name its files.
    - The arguments have the types that [src/index.d.ts] declares: keys,
      etags and content types are strings, a body is a string or a
      [Buffer], an absent content type takes the default.
    - [crypto.createHash('md5')] is MD5 as RFC 1321 defines it, and
      [JSON.parse] is a recursive-descent parser of the JSON grammar whose
      numbers are kept as exact decimals; the depth that the stack of an
      engine allows is not modelled.
    - Paths follow [node:path] for POSIX; a resolved path is the list of
      its components from the file-system root together with a flag that
      records a trailing separator.
    - The file system is a tree of directories and regular files; the
      error codes are the ones Linux reports.  Permissions, links, quotas,
      name-length limits and modification times are outside the model.
    - An [async] method is a computation in the monad [M]: it takes the
      file system, returns a value or throws, and leaves a file system.
      Calls do not interleave. *)

From Stdlib Require Import ZArith List String Ascii Bool Lia.
Import ListNotations.

Set Warnings "-register-all".

Local Open Scope string_scope.
Local Open Scope Z_scope.

(** ** Strings as byte sequences *)

Module Str.

Definition code (c : ascii) : Z := Z.of_N (N_of_ascii c).

Definition chr (z : Z) : ascii := ascii_of_N (Z.to_N z).

Fixpoint codes (s : string) : list Z :=
  match s with
  | EmptyString => []
  | String c r => code c :: codes r
  end.

Fixpoint of_codes (l : list Z) : string :=
  match l with
  | [] => EmptyString
  | z :: r => String (chr z) (of_codes r)
  end.

(** [s.endsWith(suffix)] *)
Definition endsWith (s suffix : string) : bool :=
  let n := String.length s in
  let m := String.length suffix in
  (m <=? n)%nat && (substring (n - m) m s =? suffix)%string.

(** [s.replace(/\\/g, '/')] *)
Fixpoint replace_backslashes (s : string) : string :=
  match s with
  | EmptyString => EmptyString
  | String c r =>
      String (if Ascii.eqb c "\" then "/"%char else c) (replace_backslashes r)
  end.

(** Does the character occur in the string? *)
Fixpoint mem (c : ascii) (s : string) : bool :=
  match s with
  | EmptyString => false
  | String d r => Ascii.eqb c d || mem c r
  end.

End Str.

(** ** MD5 (RFC 1321), the digest behind [crypto.createHash('md5')] *)

Module Md5.

Definition mask32 : Z := 0xffffffff.

Definition wrap32 (x : Z) : Z := Z.land x mask32.

Definition add32 (x y : Z) : Z := wrap32 (x + y).

Definition not32 (x : Z) : Z := Z.lxor x mask32.

Definition rotl32 (x c : Z) : Z :=
  wrap32 (Z.lor (Z.shiftl x c) (Z.shiftr x (32 - c))).

(** [floor (2^32 * abs (sin (i + 1)))] for [i] from 0 to 63. *)
Definition K : list Z :=
  [ 0xd76aa478; 0xe8c7b756; 0x242070db; 0xc1bdceee;
    0xf57c0faf; 0x4787c62a; 0xa8304613; 0xfd469501;
    0x698098d8; 0x8b44f7af; 0xffff5bb1; 0x895cd7be;
    0x6b901122; 0xfd987193; 0xa679438e; 0x49b40821;
    0xf61e2562; 0xc040b340; 0x265e5a51; 0xe9b6c7aa;
    0xd62f105d; 0x02441453; 0xd8a1e681; 0xe7d3fbc8;
    0x21e1cde6; 0xc33707d6; 0xf4d50d87; 0x455a14ed;
    0xa9e3e905; 0xfcefa3f8; 0x676f02d9; 0x8d2a4c8a;
    0xfffa3942; 0x8771f681; 0x6d9d6122; 0xfde5380c;
    0xa4beea44; 0x4bdecfa9; 0xf6bb4b60; 0xbebfbc70;
    0x289b7ec6; 0xeaa127fa; 0xd4ef3085; 0x04881d05;
    0xd9d4d039; 0xe6db99e5; 0x1fa27cf8; 0xc4ac5665;
    0xf4292244; 0x432aff97; 0xab9423a7; 0xfc93a039;
    0x655b59c3; 0x8f0ccc92; 0xffeff47d; 0x85845dd1;
    0x6fa87e4f; 0xfe2ce6e0; 0xa3014314; 0x4e0811a1;
    0xf7537e82; 0xbd3af235; 0x2ad7d2bb; 0xeb86d391 ].

(** Per-round left rotations. *)
Definition R : list Z :=
  [ 7; 12; 17; 22; 7; 12; 17; 22; 7; 12; 17; 22; 7; 12; 17; 22;
    5; 9; 14; 20; 5; 9; 14; 20; 5; 9; 14; 20; 5; 9; 14; 20;
    4; 11; 16; 23; 4; 11; 16; 23; 4; 11; 16; 23; 4; 11; 16; 23;
    6; 10; 15; 21; 6; 10; 15; 21; 6; 10; 15; 21; 6; 10; 15; 21 ].

Record state := mkState { sA : Z; sB : Z; sC : Z; sD : Z }.

Definition init : state :=
  mkState 0x67452301 0xefcdab89 0x98badcfe 0x10325476.

(** Little-endian 32-bit word of four bytes. *)
Definition word_of (b0 b1 b2 b3 : Z) : Z :=
  Z.lor b0 (Z.lor (Z.shiftl b1 8) (Z.lor (Z.shiftl b2 16) (Z.shiftl b3 24))).

Fixpoint words_of (bs : list Z) : list Z :=
  match bs with
  | b0 :: b1 :: b2 :: b3 :: r => word_of b0 b1 b2 b3 :: words_of r
  | _ => []
  end.

Definition round (M : list Z) (i : nat) (st : state) : state :=
  let '(mkState a b c d) := st in
  let iz := Z.of_nat i in
  let '(f, g) :=
    if (i <? 16)%nat then
      (Z.lor (Z.land b c) (Z.land (not32 b) d), iz)
    else if (i <? 32)%nat then
      (Z.lor (Z.land d b) (Z.land (not32 d) c), (5 * iz + 1) mod 16)
    else if (i <? 48)%nat then
      (Z.lxor b (Z.lxor c d), (3 * iz + 5) mod 16)
    else
      (Z.lxor c (Z.lor b (not32 d)), (7 * iz) mod 16) in
  let f' := add32 (add32 (add32 f a) (nth i K 0)) (nth (Z.to_nat g) M 0) in
  mkState d (add32 b (rotl32 f' (nth i R 0))) b c.

Definition block (st : state) (M : list Z) : state :=
  let st' := fold_left (fun s i => round M i s) (seq 0 64) st in
  mkState (add32 (sA st) (sA st')) (add32 (sB st) (sB st'))
          (add32 (sC st) (sC st')) (add32 (sD st) (sD st')).

(** Little-endian bytes of the low [n] bytes of [x]. *)
Fixpoint le_bytes (n : nat) (x : Z) : list Z :=
  match n with
  | O => []
  | S n' => Z.land x 0xff :: le_bytes n' (Z.shiftr x 8)
  end.

(** Message, then 0x80, then zeros up to 56 modulo 64, then the bit
    length on 64 bits. *)
Definition pad (msg : list Z) : list Z :=
  let len := Z.of_nat (List.length msg) in
  let zeros := Z.to_nat ((55 - len) mod 64) in
  msg ++ 0x80 :: repeat 0 zeros ++ le_bytes 8 (Z.land (8 * len) 0xffffffffffffffff).

Fixpoint blocks (n : nat) (bs : list Z) (st : state) : state :=
  match n with
  | O => st
  | S n' => blocks n' (skipn 64 bs) (block st (words_of (firstn 64 bs)))
  end.

(** The 16 digest bytes. *)
Definition digest (msg : list Z) : list Z :=
  let p := pad msg in
  let st := blocks (List.length p / 64) p init in
  le_bytes 4 (sA st) ++ le_bytes 4 (sB st) ++ le_bytes 4 (sC st) ++ le_bytes 4 (sD st).

Definition hex_digit (z : Z) : ascii :=
  if z <? 10 then Str.chr (48 + z) else Str.chr (87 + z).

(** [hash.digest('hex')]: two lowercase digits per byte. *)
Fixpoint hex (bs : list Z) : string :=
  match bs with
  | [] => EmptyString
  | b :: r => String (hex_digit (Z.shiftr b 4)) (String (hex_digit (Z.land b 0xf)) (hex r))
  end.

Definition md5_hex (content : string) : string := hex (digest (Str.codes content)).

End Md5.

(** ** UTF-8 *)

Module Utf8.

(** U+FFFD, the replacement character, in UTF-8. *)
Definition replacement : string := Str.of_codes [0xef; 0xbf; 0xbd].

(** UTF-8 (generalised to lone surrogates) of a code point. *)
Definition encode_cp (cp : Z) : string :=
  if cp <? 0x80 then Str.of_codes [cp]
  else if cp <? 0x800 then
    Str.of_codes [Z.lor 0xc0 (Z.shiftr cp 6); Z.lor 0x80 (Z.land cp 0x3f)]
  else if cp <? 0x10000 then
    Str.of_codes [Z.lor 0xe0 (Z.shiftr cp 12);
                  Z.lor 0x80 (Z.land (Z.shiftr cp 6) 0x3f);
                  Z.lor 0x80 (Z.land cp 0x3f)]
  else
    Str.of_codes [Z.lor 0xf0 (Z.shiftr cp 18);
                  Z.lor 0x80 (Z.land (Z.shiftr cp 12) 0x3f);
                  Z.lor 0x80 (Z.land (Z.shiftr cp 6) 0x3f);
                  Z.lor 0x80 (Z.land cp 0x3f)].

(** The decoder is the state machine of the WHATWG Encoding standard:
    either idle, or inside a sequence of which [seen] has been read,
    [need] continuation bytes are missing and the next one must lie in
    [lo..hi]. *)
Inductive dstate :=
| Idle
| Pending (seen : string) (need : nat) (lo hi : Z).

Definition start (b : ascii) : string * dstate :=
  let z := Str.code b in
  let one := String b EmptyString in
  if z <=? 0x7f then (one, Idle)
  else if (0xc2 <=? z) && (z <=? 0xdf) then (EmptyString, Pending one 1 0x80 0xbf)
  else if z =? 0xe0 then (EmptyString, Pending one 2 0xa0 0xbf)
  else if z =? 0xed then (EmptyString, Pending one 2 0x80 0x9f)
  else if (0xe1 <=? z) && (z <=? 0xef) then (EmptyString, Pending one 2 0x80 0xbf)
  else if z =? 0xf0 then (EmptyString, Pending one 3 0x90 0xbf)
  else if z =? 0xf4 then (EmptyString, Pending one 3 0x80 0x8f)
  else if (0xf1 <=? z) && (z <=? 0xf3) then (EmptyString, Pending one 3 0x80 0xbf)
  else (replacement, Idle).

Definition step (st : dstate) (b : ascii) : string * dstate :=
  match st with
  | Idle => start b
  | Pending seen need lo hi =>
      let z := Str.code b in
      if (lo <=? z) && (z <=? hi) then
        match need with
        | S (S n) => (EmptyString, Pending (seen ++ String b EmptyString) (S n) 0x80 0xbf)
        | _ => (seen ++ String b EmptyString, Idle)
        end
      else
        let '(out, st') := start b in (replacement ++ out, st')
  end.

(** End of input inside a sequence yields one replacement character. *)
Definition flush (st : dstate) : string :=
  match st with
  | Idle => EmptyString
  | Pending _ _ _ _ => replacement
  end.

Fixpoint decode_from (st : dstate) (s : string) : string :=
  match s with
  | EmptyString => flush st
  | String b r => let '(out, st') := step st b in out ++ decode_from st' r
  end.

(** [buf.toString('utf8')] *)
Definition decode (s : string) : string := decode_from Idle s.

Definition is_ascii (c : ascii) : bool := Str.code c <=? 0x7f.

Fixpoint all_ascii (s : string) : bool :=
  match s with
  | EmptyString => true
  | String c r => is_ascii c && all_ascii r
  end.

(** Are the bytes [a b c] an unpaired surrogate of a string: the
    generalised encoding of a code point of U+D800 to U+DFFF? *)
Definition is_surrogate3 (a b c : ascii) : bool :=
  (Str.code a =? 0xed)
  && ((0xa0 <=? Str.code b) && (Str.code b <=? 0xbf))
  && ((0x80 <=? Str.code c) && (Str.code c <=? 0xbf)).

(** The surrogate that the bytes [0xed b c] stand for. *)
Definition surrogate_of (b c : ascii) : Z :=
  0xd000 + (Str.code b - 0x80) * 64 + (Str.code c - 0x80).

(** [Buffer.from(s, 'utf8')], the UTF-8 of a string: an unpaired surrogate
    is encoded as U+FFFD, and the other bytes of the string are its
    UTF-8. *)
Fixpoint encode (s : string) : string :=
  match s with
  | EmptyString => EmptyString
  | String a r =>
      match r with
      | String b (String c r') =>
          if is_surrogate3 a b c then replacement ++ encode r'
          else String a (encode r)
      | _ => String a (encode r)
      end
  end.

End Utf8.

(** ** JavaScript values and JSON *)

Module Json.

(** The values [JSON.parse] can return, and [undefined].  A number is kept
    as the exact decimal [mantissa * 10 ^ exponent] of its literal. *)
Inductive JsVal :=
| JUndefined
| JNull
| JBool (b : bool)
| JNumber (mantissa exponent : Z)
| JString (s : string)
| JArray (elements : list JsVal)
| JObject (members : list (string * JsVal)).

(** A literal denotes the double 0 when it is 0 or rounds to 0: the
    smallest positive double is [2 ^ -1074], and a tie at [2 ^ -1075]
    rounds to even. *)
Definition number_is_zero (m e : Z) : bool :=
  (m =? 0) || ((e <? 0) && (Z.abs m * 2 ^ 1075 <=? 10 ^ (- e))).

(** [ToBoolean] *)
Definition truthy (v : JsVal) : bool :=
  match v with
  | JUndefined | JNull => false
  | JBool b => b
  | JNumber m e => negb (number_is_zero m e)
  | JString s => negb (s =? EmptyString)%string
  | JArray _ | JObject _ => true
  end.

(** The own property [name] of a parsed object: the last member of that
    name wins. *)
Fixpoint lookup_member (name : string) (ms : list (string * JsVal)) : JsVal :=
  match ms with
  | [] => JUndefined
  | (k, v) :: r =>
      match lookup_member name r with
      | JUndefined => if (k =? name)%string then v else JUndefined
      | w => w
      end
  end.

(** [v?.etag]: parsed objects have the property when a member has that
    name; arrays, strings, numbers and booleans never do. *)
Definition get_etag (v : JsVal) : JsVal :=
  match v with
  | JObject ms => lookup_member "etag" ms
  | _ => JUndefined
  end.

(** [v === s] for a string [s]. *)
Definition strict_eq_string (v : JsVal) (s : string) : bool :=
  match v with
  | JString t => (t =? s)%string
  | _ => false
  end.

(** *** JSON.stringify of strings *)

Definition dquote : ascii := Str.chr 34.
Definition backslash : ascii := Str.chr 92.

Definition hex_digit (z : Z) : ascii :=
  if z <? 10 then Str.chr (48 + z) else Str.chr (87 + z).

(** [QuoteJSONString], one character. *)
Definition escape_char (c : ascii) : string :=
  let z := Str.code c in
  if z =? 8 then String backslash "b"
  else if z =? 9 then String backslash "t"
  else if z =? 10 then String backslash "n"
  else if z =? 12 then String backslash "f"
  else if z =? 13 then String backslash "r"
  else if z =? 34 then String backslash (String dquote EmptyString)
  else if z =? 92 then String backslash (String backslash EmptyString)
  else if z <? 32 then
    String backslash
      (String "u" (String "0" (String "0"
         (String (hex_digit (Z.shiftr z 4)) (String (hex_digit (Z.land z 0xf)) EmptyString)))))
  else String c EmptyString.

(** The escape [\uXXXX] of a code unit, in lowercase digits. *)
Definition unicode_escape (cu : Z) : string :=
  String backslash
    (String "u"
       (String (hex_digit (Z.land (Z.shiftr cu 12) 0xf))
          (String (hex_digit (Z.land (Z.shiftr cu 8) 0xf))
             (String (hex_digit (Z.land (Z.shiftr cu 4) 0xf))
                (String (hex_digit (Z.land cu 0xf)) EmptyString))))).

(** [QuoteJSONString] without the quotes: an unpaired surrogate is
    written as its escape, every other character by [escape_char]. *)
Fixpoint escape (s : string) : string :=
  match s with
  | EmptyString => EmptyString
  | String a r =>
      match r with
      | String b (String c r') =>
          if Utf8.is_surrogate3 a b c
          then unicode_escape (Utf8.surrogate_of b c) ++ escape r'
          else escape_char a ++ escape r
      | _ => escape_char a ++ escape r
      end
  end.

Definition quote (s : string) : string :=
  String dquote (escape s ++ String dquote EmptyString).

(** [JSON.stringify({ etag, contentType })] for two strings. *)
Definition stringify_meta (etag contentType : string) : string :=
  "{" ++ quote "etag" ++ ":" ++ quote etag ++ ","
      ++ quote "contentType" ++ ":" ++ quote contentType ++ "}".

(** *** JSON.parse *)

Definition is_ws (c : ascii) : bool :=
  let z := Str.code c in (z =? 32) || (z =? 9) || (z =? 10) || (z =? 13).

Fixpoint skip_ws (s : string) : string :=
  match s with
  | String c r => if is_ws c then skip_ws r else s
  | EmptyString => EmptyString
  end.

Definition hex_value (c : ascii) : option Z :=
  let z := Str.code c in
  if (48 <=? z) && (z <=? 57) then Some (z - 48)
  else if (97 <=? z) && (z <=? 102) then Some (z - 87)
  else if (65 <=? z) && (z <=? 70) then Some (z - 55)
  else None.

Definition hex4 (a b c d : ascii) : option Z :=
  match hex_value a, hex_value b, hex_value c, hex_value d with
  | Some x, Some y, Some z, Some w => Some (((x * 16 + y) * 16 + z) * 16 + w)
  | _, _, _, _ => None
  end.

(** What a string literal is made of: a character written as it is, or a
    UTF-16 code unit written [\uXXXX]. *)
Inductive unit16 :=
| Raw (c : ascii)
| Esc (cu : Z).

Definition simple_escape (e : ascii) : option ascii :=
  let z := Str.code e in
  if z =? 34 then Some dquote
  else if z =? 92 then Some backslash
  else if z =? 47 then Some "/"%char
  else if z =? 98 then Some (Str.chr 8)
  else if z =? 102 then Some (Str.chr 12)
  else if z =? 110 then Some (Str.chr 10)
  else if z =? 114 then Some (Str.chr 13)
  else if z =? 116 then Some (Str.chr 9)
  else None.

Definition cons_unit (u : unit16) (r : option (list unit16 * string)) :=
  match r with
  | Some (us, rest) => Some (u :: us, rest)
  | None => None
  end.

(** The characters of a string literal after its opening quote, and what
    follows its closing quote. *)
Fixpoint string_body (s : string) : option (list unit16 * string) :=
  match s with
  | EmptyString => None
  | String c r =>
      if Ascii.eqb c dquote then Some ([], r)
      else if Ascii.eqb c backslash then
        match r with
        | String e r' =>
            if Ascii.eqb e "u" then
              match r' with
              | String h1 (String h2 (String h3 (String h4 r''))) =>
                  match hex4 h1 h2 h3 h4 with
                  | Some cu => cons_unit (Esc cu) (string_body r'')
                  | None => None
                  end
              | _ => None
              end
            else
              match simple_escape e with
              | Some b => cons_unit (Raw b) (string_body r')
              | None => None
              end
        | EmptyString => None
        end
      else if Str.code c <? 32 then None
      else cons_unit (Raw c) (string_body r)
  end.

Definition is_high (cu : Z) : bool := (0xd800 <=? cu) && (cu <=? 0xdbff).
Definition is_low (cu : Z) : bool := (0xdc00 <=? cu) && (cu <=? 0xdfff).

(** The string of a literal: an escaped high surrogate followed by an
    escaped low surrogate is one code point. *)
Fixpoint assemble (us : list unit16) : string :=
  match us with
  | [] => EmptyString
  | Raw c :: r => String c (assemble r)
  | Esc h :: r =>
      match r with
      | Esc l :: r' =>
          if is_high h && is_low l then
            Utf8.encode_cp (0x10000 + (h - 0xd800) * 0x400 + (l - 0xdc00)) ++ assemble r'
          else Utf8.encode_cp h ++ assemble r
      | _ => Utf8.encode_cp h ++ assemble r
      end
  end.

(** A string literal, [s] starting after the opening quote. *)
Definition string_lit (s : string) : option (string * string) :=
  match string_body s with
  | Some (us, rest) => Some (assemble us, rest)
  | None => None
  end.

Definition is_digit (c : ascii) : bool :=
  let z := Str.code c in (48 <=? z) && (z <=? 57).

(** Leading digits of [s], folded into [acc], their count, and the rest. *)
Fixpoint digits (acc : Z) (n : Z) (s : string) : Z * Z * string :=
  match s with
  | String c r =>
      if is_digit c then digits (acc * 10 + (Str.code c - 48)) (n + 1) r
      else (acc, n, s)
  | EmptyString => (acc, n, s)
  end.

(** The integer part: [0], or a nonzero digit and more digits. *)
Definition int_part (s : string) : option (Z * string) :=
  match s with
  | String c r =>
      if Ascii.eqb c "0" then Some (0, r)
      else if is_digit c then let '(m, _, rest) := digits 0 0 s in Some (m, rest)
      else None
  | EmptyString => None
  end.

(** The optional fraction: mantissa extended by the digits, and how many. *)
Definition frac_part (m : Z) (s : string) : option (Z * Z * string) :=
  match s with
  | String c r =>
      if Ascii.eqb c "." then
        let '(m', n, rest) := digits m 0 r in
        if n =? 0 then None else Some (m', n, rest)
      else Some (m, 0, s)
  | EmptyString => Some (m, 0, s)
  end.

(** The optional exponent. *)
Definition exp_part (s : string) : option (Z * string) :=
  match s with
  | String c r =>
      if Ascii.eqb c "e" || Ascii.eqb c "E" then
        let '(sign, r1) :=
          match r with
          | String d r' =>
              if Ascii.eqb d "-" then (-1, r')
              else if Ascii.eqb d "+" then (1, r')
              else (1, r)
          | EmptyString => (1, r)
          end in
        let '(x, n, rest) := digits 0 0 r1 in
        if n =? 0 then None else Some (sign * x, rest)
      else Some (0, s)
  | EmptyString => Some (0, s)
  end.

Definition unsigned_number (s : string) : option (Z * Z * string) :=
  match int_part s with
  | Some (m, r1) =>
      match frac_part m r1 with
      | Some (m', n, r2) =>
          match exp_part r2 with
          | Some (x, r3) => Some (m', x - n, r3)
          | None => None
          end
      | None => None
      end
  | None => None
  end.

Definition number (s : string) : option (JsVal * string) :=
  match s with
  | String c r =>
      if Ascii.eqb c "-" then
        match unsigned_number r with
        | Some (m, e, rest) => Some (JNumber (- m) e, rest)
        | None => None
        end
      else
        match unsigned_number s with
        | Some (m, e, rest) => Some (JNumber m e, rest)
        | None => None
        end
  | EmptyString => None
  end.

(** [s] stripped of the literal [lit] at its start. *)
Fixpoint strip (lit s : string) : option string :=
  match lit with
  | EmptyString => Some s
  | String c l =>
      match s with
      | String d r => if Ascii.eqb c d then strip l r else None
      | EmptyString => None
      end
  end.

(** Recursive descent; [fuel] bounds the number of nested calls. *)
Fixpoint value (fuel : nat) (s : string) : option (JsVal * string) :=
  match fuel with
  | O => None
  | S n =>
      match skip_ws s with
      | EmptyString => None
      | String c r as t =>
          if Ascii.eqb c "{" then
            match skip_ws r with
            | String d r' =>
                if Ascii.eqb d "}" then Some (JObject [], r')
                else
                  match members n (skip_ws r) with
                  | Some (ms, rest) => Some (JObject ms, rest)
                  | None => None
                  end
            | EmptyString => None
            end
          else if Ascii.eqb c "[" then
            match skip_ws r with
            | String d r' =>
                if Ascii.eqb d "]" then Some (JArray [], r')
                else
                  match elements n r with
                  | Some (vs, rest) => Some (JArray vs, rest)
                  | None => None
                  end
            | EmptyString => None
            end
          else if Ascii.eqb c dquote then
            match string_lit r with
            | Some (str, rest) => Some (JString str, rest)
            | None => None
            end
          else if Ascii.eqb c "t" then
            match strip "true" t with Some rest => Some (JBool true, rest) | None => None end
          else if Ascii.eqb c "f" then
            match strip "false" t with Some rest => Some (JBool false, rest) | None => None end
          else if Ascii.eqb c "n" then
            match strip "null" t with Some rest => Some (JNull, rest) | None => None end
          else number t
      end
  end

(** One or more values separated by commas, up to the closing bracket. *)
with elements (fuel : nat) (s : string) : option (list JsVal * string) :=
  match fuel with
  | O => None
  | S n =>
      match value n s with
      | Some (v, rest) =>
          match skip_ws rest with
          | String c r =>
              if Ascii.eqb c "," then
                match elements n r with
                | Some (vs, rest') => Some (v :: vs, rest')
                | None => None
                end
              else if Ascii.eqb c "]" then Some ([v], r)
              else None
          | EmptyString => None
          end
      | None => None
      end
  end

(** One or more [name : value] members separated by commas, up to the
    closing brace; [s] starts at the opening quote of a name. *)
with members (fuel : nat) (s : string) : option (list (string * JsVal) * string) :=
  match fuel with
  | O => None
  | S n =>
      match s with
      | String q r0 =>
          if Ascii.eqb q dquote then
            match string_lit r0 with
            | Some (name, r1) =>
                match skip_ws r1 with
                | String c r2 =>
                    if Ascii.eqb c ":" then
                      match value n r2 with
                      | Some (v, r3) =>
                          match skip_ws r3 with
                          | String d r4 =>
                              if Ascii.eqb d "," then
                                match members n (skip_ws r4) with
                                | Some (ms, rest) => Some ((name, v) :: ms, rest)
                                | None => None
                                end
                              else if Ascii.eqb d "}" then Some ([(name, v)], r4)
                              else None
                          | EmptyString => None
                          end
                      | None => None
                      end
                    else None
                | EmptyString => None
                end
            | None => None
            end
          else None
      | EmptyString => None
      end
  end.

(** [JSON.parse(text)]; [None] is the SyntaxError.  A call consumes a
    character before it nests twice, so this fuel is never exhausted
    (lemma [JsonFuel.value_fuel]). *)
Definition parse (text : string) : option JsVal :=
  match value (2 * String.length text + 1) text with
  | Some (v, rest) =>
      match skip_ws rest with
      | EmptyString => Some v
      | String _ _ => None
      end
  | None => None
  end.

End Json.

(** ** Results *)

Inductive result (E A : Type) : Type :=
| Ok (a : A)
| Err (e : E).

Arguments Ok {E A} a.
Arguments Err {E A} e.

(** ** Paths ([node:path], POSIX) *)

Module Path.

(** The pieces of a string between separators. *)
Fixpoint split (s : string) : list string :=
  match s with
  | EmptyString => [EmptyString]
  | String c r =>
      if Ascii.eqb c "/" then EmptyString :: split r
      else
        match split r with
        | seg :: rest => String c seg :: rest
        | [] => [String c EmptyString]
        end
  end.

(** An absolute normalized path: its components from the root, and
    whether the path string ends with a separator. *)
Record t := mk { components : list string; trailing : bool }.

(** Normalization of one more piece after the components [stack]: empty
    pieces and [.] vanish, [..] drops the last component and stays at the
    root when there is none. *)
Definition step (stack : list string) (piece : string) : list string :=
  if (piece =? EmptyString)%string || (piece =? ".")%string then stack
  else if (piece =? "..")%string then removelast stack
  else stack ++ [piece].

Definition normalize (stack : list string) (pieces : list string) : list string :=
  fold_left step pieces stack.

(** [path.join(base, arg)] for an absolute [base]: empty arguments are
    skipped, the others are joined by a separator and normalized. *)
Definition join (base : t) (arg : string) : t :=
  if (arg =? EmptyString)%string then base
  else mk (normalize (components base) (split arg)) (Str.endsWith arg "/").

(** [path.dirname(p)] *)
Definition dirname (p : t) : t := mk (removelast (components p)) false.

Fixpoint strip_common (from to : list string) : list string * list string :=
  match from, to with
  | f :: from', x :: to' =>
      if (f =? x)%string then strip_common from' to' else (from, to)
  | _, _ => (from, to)
  end.

(** [path.relative(from, to)]: one [..] for each component of [from]
    past the common prefix, then what is left of [to]. *)
Definition relative (from to : t) : string :=
  let '(up, down) := strip_common (components from) (components to) in
  String.concat "/" (repeat ".." (List.length up) ++ down).

End Path.

(** ** The file system ([node:fs/promises]) *)

Module Fs.

Inductive errno := ENOENT | ENOTDIR | EISDIR | EEXIST | ERR_INVALID_ARG_VALUE.

(** A directory lists its entries in the order [readdir] reports them.
    Which place a new entry takes in that order is for the file system to
    choose; here it is the last, and no property depends on the place. *)
Inductive node :=
| File (content : string)
| Dir (entries : list (string * node)).

Fixpoint assoc (name : string) (es : list (string * node)) : option node :=
  match es with
  | [] => None
  | (k, n) :: r => if (k =? name)%string then Some n else assoc name r
  end.

Fixpoint replace (name : string) (n : node) (es : list (string * node)) :=
  match es with
  | [] => []
  | (k, m) :: r => if (k =? name)%string then (k, n) :: r else (k, m) :: replace name n r
  end.

Definition remove (name : string) (es : list (string * node)) :=
  filter (fun e => negb (fst e =? name)%string) es.

(** Node refuses a path that holds a null byte. *)
Definition has_nul (p : Path.t) : bool :=
  existsb (Str.mem Ascii.zero) (Path.components p).

Fixpoint find (n : node) (p : list string) : result errno node :=
  match p with
  | [] => Ok n
  | s :: p' =>
      match n with
      | File _ => Err ENOTDIR
      | Dir es =>
          match assoc s es with
          | Some child => find child p'
          | None => Err ENOENT
          end
      end
  end.

(** Path resolution; a trailing separator asks for a directory. *)
Definition lookup (root : node) (p : Path.t) : result errno node :=
  if has_nul p then Err ERR_INVALID_ARG_VALUE
  else
    match find root (Path.components p) with
    | Ok (File c) => if Path.trailing p then Err ENOTDIR else Ok (File c)
    | r => r
    end.

(** [fs.access(p)] *)
Definition access (root : node) (p : Path.t) : result errno unit :=
  match lookup root p with
  | Ok _ => Ok tt
  | Err e => Err e
  end.

(** [fs.readFile(p)] *)
Definition readFile (root : node) (p : Path.t) : result errno string :=
  match lookup root p with
  | Ok (File c) => Ok c
  | Ok (Dir _) => Err EISDIR
  | Err e => Err e
  end.

(** [fs.readdir(p, { withFileTypes: true })] *)
Definition readdir (root : node) (p : Path.t) : result errno (list (string * node)) :=
  match lookup root p with
  | Ok (Dir es) => Ok es
  | Ok (File _) => Err ENOTDIR
  | Err e => Err e
  end.

Fixpoint write (n : node) (p : list string) (trailing : bool) (c : string)
  : result errno node :=
  match p with
  | [] =>
      match n with
      | File _ => if trailing then Err EISDIR else Ok (File c)
      | Dir _ => Err EISDIR
      end
  | s :: p' =>
      match n with
      | File _ => Err ENOTDIR
      | Dir es =>
          match assoc s es with
          | Some child =>
              match write child p' trailing c with
              | Ok child' => Ok (Dir (replace s child' es))
              | Err e => Err e
              end
          | None =>
              match p' with
              | [] => if trailing then Err EISDIR else Ok (Dir (es ++ [(s, File c)]))
              | _ :: _ => Err ENOENT
              end
          end
      end
  end.

(** [fs.writeFile(p, c)]: creates the file or replaces its content; the
    directory that holds it must exist.  Opening a path that ends with a
    separator for writing fails with EISDIR. *)
Definition writeFile (root : node) (p : Path.t) (c : string) : result errno node :=
  if has_nul p then Err ERR_INVALID_ARG_VALUE
  else write root (Path.components p) (Path.trailing p) c.

(** The chain of fresh directories [p] under a new directory. *)
Fixpoint fresh (p : list string) : node :=
  match p with
  | [] => Dir []
  | s :: p' => Dir [(s, fresh p')]
  end.

Fixpoint mkdirp (n : node) (p : list string) : result errno node :=
  match p with
  | [] =>
      match n with
      | Dir _ => Ok n
      | File _ => Err EEXIST
      end
  | s :: p' =>
      match n with
      | File _ => Err ENOTDIR
      | Dir es =>
          match assoc s es with
          | Some child =>
              match mkdirp child p' with
              | Ok child' => Ok (Dir (replace s child' es))
              | Err e => Err e
              end
          | None => Ok (Dir (es ++ [(s, fresh p')]))
          end
      end
  end.

(** [fs.mkdir(p, { recursive: true })] *)
Definition mkdir_recursive (root : node) (p : Path.t) : result errno node :=
  if has_nul p then Err ERR_INVALID_ARG_VALUE
  else mkdirp root (Path.components p).

Fixpoint unlink_at (n : node) (p : list string) (trailing : bool) : result errno node :=
  match p with
  | [] => Err EISDIR
  | s :: p' =>
      match n with
      | File _ => Err ENOTDIR
      | Dir es =>
          match assoc s es with
          | Some child =>
              match p' with
              | [] =>
                  match child with
                  | File _ => if trailing then Err ENOTDIR else Ok (Dir (remove s es))
                  | Dir _ => Err EISDIR
                  end
              | _ :: _ =>
                  match unlink_at child p' trailing with
                  | Ok child' => Ok (Dir (replace s child' es))
                  | Err e => Err e
                  end
              end
          | None => Err ENOENT
          end
      end
  end.

(** [fs.unlink(p)] *)
Definition unlink (root : node) (p : Path.t) : result errno node :=
  if has_nul p then Err ERR_INVALID_ARG_VALUE
  else unlink_at root (Path.components p) (Path.trailing p).

End Fs.

(** ** Asynchronous methods: state and exceptions *)

(** What a method throws.  [NoSuchKey name] is the plain [Error] whose
    [Code] is ['NoSuchKey'] and whose [name] is [name]; [SystemError] is a
    rejection of [node:fs] with that [code]; [SyntaxError] comes from
    [JSON.parse]. *)
Inductive error :=
| KeyExistsError (message : string)
| StaleDataError (message : string)
| NoSuchKey (name : string)
| SystemError (code : Fs.errno)
| SyntaxError.

Definition M (A : Type) : Type := Fs.node -> result error A * Fs.node.

Definition ret {A} (a : A) : M A := fun fs => (Ok a, fs).

Definition throw {A} (e : error) : M A := fun fs => (Err e, fs).

Definition bind {A B} (m : M A) (k : A -> M B) : M B :=
  fun fs =>
    match m fs with
    | (Ok a, fs') => k a fs'
    | (Err e, fs') => (Err e, fs')
    end.

(** [try { m } catch (err) { handler }] *)
Definition try_catch {A} (m : M A) (handler : error -> M A) : M A :=
  fun fs =>
    match m fs with
    | (Ok a, fs') => (Ok a, fs')
    | (Err e, fs') => handler e fs'
    end.

Declare Scope m_scope.
Delimit Scope m_scope with M.
Notation "x <- c ;; k" := (bind c (fun x => k))
  (at level 61, c at next level, right associativity) : m_scope.
Notation "c ;; k" := (bind c (fun _ => k))
  (at level 61, right associativity) : m_scope.

(** A read of the file system. *)
Definition fs_read {A} (op : Fs.node -> result Fs.errno A) : M A :=
  fun fs =>
    match op fs with
    | Ok a => (Ok a, fs)
    | Err c => (Err (SystemError c), fs)
    end.

(** An update of the file system; nothing changes when it fails. *)
Definition fs_update (op : Fs.node -> result Fs.errno Fs.node) : M unit :=
  fun fs =>
    match op fs with
    | Ok fs' => (Ok tt, fs')
    | Err c => (Err (SystemError c), fs)
    end.

(** ** The store ([src/index.mjs]) *)

Import Json.

Definition MOCK_DIR : string := ".s3StoreMock".

Record S3StoreMock := mkStore { bucket : string; basePath : Path.t }.

(** [createS3Store(bucket, { mockDir })], run in the directory [cwd]. *)
Definition createS3Store (cwd : Path.t) (bucket : string) (mockDir : option string)
  : S3StoreMock :=
  let mockDir := match mockDir with Some d => d | None => MOCK_DIR end in
  mkStore bucket (Path.join (Path.join cwd mockDir) bucket).

(** The body of a write: a string or a [Buffer]. *)
Inductive Body :=
| StringBody (s : string)
| BufferBody (b : string).

(** [body instanceof Buffer ? body : Buffer.from(body)] *)
Definition to_content (body : Body) : string :=
  match body with
  | BufferBody b => b
  | StringBody s => Utf8.encode s
  end.

(** The [response] a wrapper carries: [{ etag, contentType }], [{}] or
    [{ Body: { content, ... } }]. *)
Inductive Response :=
| MetaResponse (etag contentType : string)
| EmptyResponse
| BodyResponse (content : string).

Record ResponseWrapper := mkResponse { response : Response; etag : JsVal }.

(** One element of a listing batch; [LastModified] needs a clock and is
    not modelled. *)
Record ListEntry := mkEntry { Key : string; Size : nat }.

Section Store.

Variable store : S3StoreMock.

Local Open Scope m_scope.

Definition ensureDir (filePath : Path.t) : M unit :=
  let dir := Path.dirname filePath in
  fs_update (fun fs => Fs.mkdir_recursive fs dir).

Definition getFilePath (key : string) : Path.t :=
  Path.join (basePath store) key.

Definition getMetaPath (key : string) : Path.t :=
  Path.join (basePath store) (key ++ ".meta").

Definition calculateEtag (content : string) : string :=
  String dquote (Md5.md5_hex content ++ String dquote EmptyString).

Definition fileExists (filePath : Path.t) : M bool :=
  try_catch (fs_read (fun fs => Fs.access fs filePath) ;; ret true)
            (fun _ => ret false).

Definition json_parse (text : string) : M JsVal :=
  match Json.parse text with
  | Some v => ret v
  | None => throw SyntaxError
  end.

Definition readMeta (key : string) : M JsVal :=
  let metaPath := getMetaPath key in
  try_catch
    (metaContent <- fs_read (fun fs => Fs.readFile fs metaPath) ;;
     json_parse (Utf8.decode metaContent))
    (fun _ => ret JNull).

Definition writeMeta (key : string) (etag contentType : string) : M unit :=
  let metaPath := getMetaPath key in
  ensureDir metaPath ;;
  fs_update (fun fs =>
    Fs.writeFile fs metaPath (Utf8.encode (Json.stringify_meta etag contentType))).

Definition default_contentType (contentType : option string) : string :=
  match contentType with
  | Some c => c
  | None => "application/json"
  end.

Definition createObject (key : string) (body : Body) (contentType : option string)
  : M ResponseWrapper :=
  let contentType := default_contentType contentType in
  let filePath := getFilePath key in
  exists_ <- fileExists filePath ;;
  if exists_ : bool then throw (KeyExistsError "cannot overwrite an existing key")
  else
    ensureDir filePath ;;
    let content := to_content body in
    fs_update (fun fs => Fs.writeFile fs filePath content) ;;
    let etag := calculateEtag content in
    writeMeta key etag contentType ;;
    ret (mkResponse (MetaResponse etag contentType) (JString etag)).

(** [!meta || meta.etag !== etag] *)
Definition stale (meta : JsVal) (etag : string) : bool :=
  negb (truthy meta) || negb (strict_eq_string (get_etag meta) etag).

Definition putObjectIfMatch (key : string) (body : Body) (etag : string)
    (contentType : option string) : M ResponseWrapper :=
  let contentType := default_contentType contentType in
  let filePath := getFilePath key in
  meta <- readMeta key ;;
  if stale meta etag then
    throw (StaleDataError "object was modified concurrently, reload your object first")
  else
    ensureDir filePath ;;
    let content := to_content body in
    fs_update (fun fs => Fs.writeFile fs filePath content) ;;
    let newEtag := calculateEtag content in
    writeMeta key newEtag contentType ;;
    ret (mkResponse (MetaResponse newEtag contentType) (JString newEtag)).

Definition getObject (key : string) : M ResponseWrapper :=
  let filePath := getFilePath key in
  meta <- readMeta key ;;
  try_catch
    (content <- fs_read (fun fs => Fs.readFile fs filePath) ;;
     ret (mkResponse (BodyResponse content) (get_etag meta)))
    (fun err =>
       match err with
       | SystemError Fs.ENOENT => throw (NoSuchKey "Error")
       | _ => throw err
       end).

Definition getObjectIfMatch (key : string) (etag : string) : M ResponseWrapper :=
  let filePath := getFilePath key in
  fileExists <- fileExists filePath ;;
  if negb fileExists then throw (NoSuchKey "NoSuchKey")
  else
    meta <- readMeta key ;;
    if stale meta etag then
      throw (StaleDataError
        "object was modified concurrently, reload your object first. use getObject() instead")
    else getObject key.

(** [try { await fs.unlink(p) } catch (err) { if (err.code !== 'ENOENT') throw err }] *)
Definition unlink_if_present (p : Path.t) : M unit :=
  try_catch (fs_update (fun fs => Fs.unlink fs p))
    (fun err =>
       match err with
       | SystemError Fs.ENOENT => ret tt
       | _ => throw err
       end).

Definition deleteObject (key : string) : M ResponseWrapper :=
  let filePath := getFilePath key in
  let metaPath := getMetaPath key in
  unlink_if_present filePath ;;
  unlink_if_present metaPath ;;
  ret (mkResponse EmptyResponse JNull).

Definition deleteObjectIfMatch (key : string) (etag : string) : M ResponseWrapper :=
  meta <- readMeta key ;;
  if stale meta etag then
    throw (StaleDataError "object was modified concurrently, cannot proceed with deletion")
  else deleteObject key.

(** The inner [walk(dir, baseDir)] of [list], started on a directory
    [n] found at [dir].  The tree does not change during the traversal, so
    [readdir] of a subdirectory returns the entries of the child that the
    enclosing [readdir] reported. *)
Fixpoint walk (baseDir : Path.t) (n : Fs.node) (dir : Path.t) : list ListEntry :=
  match n with
  | Fs.File _ => []
  | Fs.Dir entries =>
      (fix for_of (es : list (string * Fs.node)) : list ListEntry :=
         match es with
         | [] => []
         | (name, child) :: rest =>
             let fullPath := Path.join dir name in
             (match child with
              | Fs.Dir _ => walk baseDir child fullPath
              | Fs.File content =>
                  if negb (Str.endsWith name ".meta") then
                    let relativePath := Path.relative baseDir fullPath in
                    [mkEntry (Str.replace_backslashes relativePath) (String.length content)]
                  else []
              end ++ for_of rest)%list
         end) entries
  end.

(** [list(prefix)], iterated to its end: the batches it yields. *)
Definition list_ (prefix : string) : M (list (list ListEntry)) :=
  let basePath := basePath store in
  let searchPath := Path.join basePath prefix in
  accessible <- try_catch (fs_read (fun fs => Fs.access fs searchPath) ;; ret true)
                          (fun _ => ret false) ;;
  if negb accessible then ret []
  else
    entries <- fs_read (fun fs => Fs.readdir fs searchPath) ;;
    let results := walk basePath (Fs.Dir entries) searchPath in
    if (0 <? List.length results)%nat then ret [results] else ret [].

End Store.

(** ** The methods of [GetResponseWrapper] *)

(** [response.Body.content] of a wrapper that [getObject] returned; the
    other wrappers are plain [ResponseWrapper]s, which have no body and
    none of the methods below. *)
Definition Body_content (w : ResponseWrapper) : option string :=
  match response w with
  | BodyResponse content => Some content
  | _ => None
  end.

(** [content.toString('utf8')] *)
Definition transformToString (content : string) : string := Utf8.decode content.

(** [new Uint8Array(content)] *)
Definition transformToByteArray (content : string) : list Z := Str.codes content.

(** [transformToWebStream()]: the chunks that the stream delivers before
    it closes. *)
Definition transformToWebStream (content : string) : list string := [content].

Definition asString (w : ResponseWrapper) : option string :=
  option_map transformToString (Body_content w).

Definition asByteArray (w : ResponseWrapper) : option (list Z) :=
  option_map transformToByteArray (Body_content w).

Definition asWebStream (w : ResponseWrapper) : option (list string) :=
  option_map transformToWebStream (Body_content w).

(** [JSON.parse(await this.response.Body.transformToString())] *)
Definition asJson (w : ResponseWrapper) : option (result error Json.JsVal) :=
  option_map
    (fun content =>
       match Json.parse (transformToString content) with
       | Some v => Ok v
       | None => Err SyntaxError
       end)
    (Body_content w).

(** ** Notions used to state and prove the properties *)

(** The components that the pieces of [key] before the last one lead to
    from [base], and the last piece of [key]. *)
Definition key_parent (base : Path.t) (key : string) : list string :=
  Path.normalize (Path.components base) (removelast (Path.split key)).

Definition key_leaf (key : string) : string := last (Path.split key) EmptyString.

(** Bytes of multi-byte sequences: the ones above 0x7f. *)
Fixpoint all_high (s : string) : bool :=
  match s with
  | EmptyString => true
  | String c r => negb (Utf8.is_ascii c) && all_high r
  end.

(** The decoder states that occur: what has been read of a sequence is
    above 0x7f, and so is what may continue it. *)
Definition decoder_ok (st : Utf8.dstate) : Prop :=
  match st with
  | Utf8.Idle => True
  | Utf8.Pending seen _ lo _ => 0x80 <= lo /\ all_high seen = true
  end.

(** ** Strings and their code points *)

(** The code points, U+0000 to U+10FFFF, and the surrogates among them. *)
Definition code_point (cp : Z) : bool := (0 <=? cp) && (cp <? 0x110000).

Definition is_surrogate (cp : Z) : bool := (0xd800 <=? cp) && (cp <=? 0xdfff).

(** The Unicode scalar values: the code points of a well-formed string. *)
Definition scalar_value (cp : Z) : bool :=
  ((0 <=? cp) && (cp <? 0xd800)) || ((0xe000 <=? cp) && (cp <? 0x110000)).

(** The string of the code points [cps], as it is represented: the UTF-8
    of the code points, which for a well-formed string is the UTF-8 of the
    string. *)
Fixpoint utf8_of (cps : list Z) : string :=
  match cps with
  | [] => EmptyString
  | cp :: r => Utf8.encode_cp cp ++ utf8_of r
  end.

(** No high surrogate stands directly before a low surrogate: in a string
    such two are one code point. *)
Fixpoint unpaired (cps : list Z) : bool :=
  match cps with
  | [] => true
  | h :: r =>
      match r with
      | l :: _ => negb (Json.is_high h && Json.is_low l)
      | [] => true
      end && unpaired r
  end.

(** The code points of a string of JavaScript: every string is the string
    of such a sequence, the surrogates in it being its unpaired
    surrogates. *)
Definition code_points (cps : list Z) : bool :=
  forallb code_point cps && unpaired cps.

(** What the UTF-8 of a string holds for one of its code points: U+FFFD
    for an unpaired surrogate. *)
Definition replace_surrogate (cp : Z) : Z :=
  if is_surrogate cp then 0xfffd else cp.

(** The bytes that a write stores for a body: the bytes of a [Buffer] as
    they are, and for a string the UTF-8 of its code points, U+FFFD for an
    unpaired surrogate. *)
Definition body_bytes (body : Body) (content : string) : Prop :=
  (forall b, body = BufferBody b -> content = b)
  /\ (forall cps, code_points cps = true -> body = StringBody (utf8_of cps) ->
        content = utf8_of (map replace_surrogate cps)).

(** The content type of a write: the string passed, or the default. *)
Definition type_of_write (contentType : option string) (type : string) : Prop :=
  (contentType = None -> type = "application/json")
  /\ (forall cps, code_points cps = true -> contentType = Some (utf8_of cps) ->
        type = utf8_of cps).

(** Does the string start with an unpaired surrogate? *)
Definition starts_surrogate (s : string) : bool :=
  match s with
  | String a (String b (String c _)) => Utf8.is_surrogate3 a b c
  | _ => false
  end.

(** No unpaired surrogate anywhere in the string. *)
Fixpoint surrogate_free (s : string) : bool :=
  match s with
  | EmptyString => true
  | String _ r => negb (starts_surrogate s) && surrogate_free r
  end.

(** Inside a string literal of JSON, the text [Q] is read as the
    units [us]. *)
Definition reads_as (Q : string) (us : list Json.unit16) : Prop :=
  forall tail us0 rest,
    Json.string_body tail = Some (us0, rest) ->
    Json.string_body (Q ++ tail) = Some ((us ++ us0)%list, rest).

(** The string that [JSON.parse] reads back from the JSON text of the
    string [s], once the text has been written to a file and decoded. *)
Definition reread (s : string) : string :=
  match Json.string_lit (Utf8.decode (Json.escape s ++ String Json.dquote EmptyString)) with
  | Some (x, _) => x
  | None => EmptyString
  end.

(** The fixed parts of the JSON of a metadata record, around the escaped
    etag and content type. *)
Definition meta_open : string :=
  "{" ++ Json.quote "etag" ++ ":" ++ String Json.dquote EmptyString.

Definition meta_mid : string :=
  String Json.dquote ("," ++ Json.quote "contentType" ++ ":" ++ String Json.dquote EmptyString).

Definition meta_close : string := String Json.dquote "}".

(** The record [{ etag, contentType }] as [JSON.parse] returns it. *)
Definition meta_record (etag contentType : string) : Json.JsVal :=
  Json.JObject [("etag", Json.JString etag); ("contentType", Json.JString contentType)].

(** The metadata record stored for a key: what the metadata artifact
    parses to, or nothing when the artifact is absent or unparsable. *)
Definition stored_meta (store : S3StoreMock) (fs : Fs.node) (key : string)
  : option Json.JsVal :=
  match Fs.readFile fs (getMetaPath store key) with
  | Ok text => Json.parse (Utf8.decode text)
  | Err _ => None
  end.

(** The expected etag does not match: there is no record, or its etag is
    another value. *)
Definition etag_mismatch (store : S3StoreMock) (fs : Fs.node) (key etag : string)
  : Prop :=
  stored_meta store fs key = None
  \/ exists m, stored_meta store fs key = Some m /\ Json.get_etag m <> Json.JString etag.

(** The data artifact of a key exists, as [fileExists] sees it. *)
Definition data_exists (store : S3StoreMock) (fs : Fs.node) (key : string) : Prop :=
  Fs.access fs (getFilePath store key) = Ok tt.

Definition STALE_PUT : string :=
  "object was modified concurrently, reload your object first".

Definition STALE_GET : string :=
  "object was modified concurrently, reload your object first. use getObject() instead".

Definition KEY_EXISTS : string := "cannot overwrite an existing key".

(** What [createObject] and [putObjectIfMatch] do once their guard has
    passed. *)
Definition store_object (store : S3StoreMock) (key content contentType : string)
  : M ResponseWrapper :=
  (ensureDir (getFilePath store key) ;;
   fs_update (fun fs => Fs.writeFile fs (getFilePath store key) content) ;;
   writeMeta store key (calculateEtag content) contentType ;;
   ret (mkResponse (MetaResponse (calculateEtag content) contentType)
                   (Json.JString (calculateEtag content))))%M.

(** The response of a successful write of [content]. *)
Definition write_response (content contentType : string) : ResponseWrapper :=
  mkResponse (MetaResponse (calculateEtag content) contentType)
             (Json.JString (calculateEtag content)).

(** Lowercase hexadecimal digits. *)
Definition is_lower_hex (c : ascii) : bool :=
  let z := Str.code c in
  ((48 <=? z) && (z <=? 57)) || ((97 <=? z) && (z <=? 102)).

Fixpoint all_lower_hex (s : string) : bool :=
  match s with
  | EmptyString => true
  | String c r => is_lower_hex c && all_lower_hex r
  end.

Definition byte_range (b : Z) : Prop := 0 <= b < 256.

(** ** Inputs of the examples *)

(** Two contents of 128 bytes that differ in six bytes and have the same
    MD5 digest (Wang, Feng, Lai and Yu, 2004). *)
Definition collision_a : string := Str.of_codes [
    0xd1; 0x31; 0xdd; 0x02; 0xc5; 0xe6; 0xee; 0xc4; 0x69; 0x3d; 0x9a; 0x06; 0x98; 0xaf; 0xf9; 0x5c;
    0x2f; 0xca; 0xb5; 0x87; 0x12; 0x46; 0x7e; 0xab; 0x40; 0x04; 0x58; 0x3e; 0xb8; 0xfb; 0x7f; 0x89;
    0x55; 0xad; 0x34; 0x06; 0x09; 0xf4; 0xb3; 0x02; 0x83; 0xe4; 0x88; 0x83; 0x25; 0x71; 0x41; 0x5a;
    0x08; 0x51; 0x25; 0xe8; 0xf7; 0xcd; 0xc9; 0x9f; 0xd9; 0x1d; 0xbd; 0xf2; 0x80; 0x37; 0x3c; 0x5b;
    0xd8; 0x82; 0x3e; 0x31; 0x56; 0x34; 0x8f; 0x5b; 0xae; 0x6d; 0xac; 0xd4; 0x36; 0xc9; 0x19; 0xc6;
    0xdd; 0x53; 0xe2; 0xb4; 0x87; 0xda; 0x03; 0xfd; 0x02; 0x39; 0x63; 0x06; 0xd2; 0x48; 0xcd; 0xa0;
    0xe9; 0x9f; 0x33; 0x42; 0x0f; 0x57; 0x7e; 0xe8; 0xce; 0x54; 0xb6; 0x70; 0x80; 0xa8; 0x0d; 0x1e;
    0xc6; 0x98; 0x21; 0xbc; 0xb6; 0xa8; 0x83; 0x93; 0x96; 0xf9; 0x65; 0x2b; 0x6f; 0xf7; 0x2a; 0x70 ].

Definition collision_b : string := Str.of_codes [
    0xd1; 0x31; 0xdd; 0x02; 0xc5; 0xe6; 0xee; 0xc4; 0x69; 0x3d; 0x9a; 0x06; 0x98; 0xaf; 0xf9; 0x5c;
    0x2f; 0xca; 0xb5; 0x07; 0x12; 0x46; 0x7e; 0xab; 0x40; 0x04; 0x58; 0x3e; 0xb8; 0xfb; 0x7f; 0x89;
    0x55; 0xad; 0x34; 0x06; 0x09; 0xf4; 0xb3; 0x02; 0x83; 0xe4; 0x88; 0x83; 0x25; 0xf1; 0x41; 0x5a;
    0x08; 0x51; 0x25; 0xe8; 0xf7; 0xcd; 0xc9; 0x9f; 0xd9; 0x1d; 0xbd; 0x72; 0x80; 0x37; 0x3c; 0x5b;
    0xd8; 0x82; 0x3e; 0x31; 0x56; 0x34; 0x8f; 0x5b; 0xae; 0x6d; 0xac; 0xd4; 0x36; 0xc9; 0x19; 0xc6;
    0xdd; 0x53; 0xe2; 0x34; 0x87; 0xda; 0x03; 0xfd; 0x02; 0x39; 0x63; 0x06; 0xd2; 0x48; 0xcd; 0xa0;
    0xe9; 0x9f; 0x33; 0x42; 0x0f; 0x57; 0x7e; 0xe8; 0xce; 0x54; 0xb6; 0x70; 0x80; 0x28; 0x0d; 0x1e;
    0xc6; 0x98; 0x21; 0xbc; 0xb6; 0xa8; 0x83; 0x93; 0x96; 0xf9; 0x65; 0xab; 0x6f; 0xf7; 0x2a; 0x70 ].

(** The test suite of RFC 1321 (appendix A.5): the strings and the
    hexadecimal digits of their digests. *)
Definition rfc1321_test_suite : list (string * string) :=
  [ (EmptyString, "d41d8cd98f00b204e9800998ecf8427e");
    ("a", "0cc175b9c0f1b6a831c399e269772661");
    ("abc", "900150983cd24fb0d6963f7d28e17f72");
    ("message digest", "f96b697d7cb7938d525a2f31aaf161d0");
    ("abcdefghijklmnopqrstuvwxyz", "c3fcd3d76192e4007dfb496cca67e13b");
    ("ABCDEFGHIJKLMNOPQRSTUVWXYZabcdefghijklmnopqrstuvwxyz0123456789",
     "d174ab98d277d9f5a5611c2c9f419d9f");
    ("12345678901234567890123456789012345678901234567890123456789012345678901234567890",
     "57edf4a22be3c955ac49da2e2107b67a") ].

(** A store of the bucket [bucket], created in [/home/user], and that
    directory, empty. *)
Definition demo_store : S3StoreMock :=
  createS3Store (Path.mk ["home"; "user"] false) "bucket" None.

Definition fs_home : Fs.node :=
  Fs.Dir [("home", Fs.Dir [("user", Fs.Dir [])])].

(** The file system after [createObject('a/b', 'hello', 'text/plain')],
    and after [putObjectIfMatch('a/b', 'world', E1)] on top of it. *)
Definition fs_created : Fs.node :=
  snd (createObject demo_store "a/b" (StringBody "hello") (Some "text/plain") fs_home).

Definition fs_updated : Fs.node :=
  snd (putObjectIfMatch demo_store "a/b" (StringBody "world")
         (calculateEtag "hello") None fs_created).

(** The bucket with the data artifact of [k] and no metadata artifact,
    and with the metadata artifact of [k] and no data artifact. *)
Definition fs_data_only : Fs.node :=
  Fs.Dir [("home", Fs.Dir [("user", Fs.Dir [(".s3StoreMock",
    Fs.Dir [("bucket", Fs.Dir [("k", Fs.File "hello")])])])])].

Definition fs_meta_only : Fs.node :=
  Fs.Dir [("home", Fs.Dir [("user", Fs.Dir [(".s3StoreMock",
    Fs.Dir [("bucket",
      Fs.Dir [("k.meta",
               Fs.File (Json.stringify_meta (calculateEtag "old") "text/plain"))])])])])].

(** The string of the one unpaired surrogate U+D800, and the file system
    after [createObject('k', '\ud800')]. *)
Definition unpaired_surrogate : string := utf8_of [0xd800].

Definition fs_surrogate : Fs.node :=
  snd (createObject demo_store "k" (StringBody unpaired_surrogate) None fs_home).

(** The file system [fs_created] after [createObject('a.meta', M)], where
    [M] is the JSON text of a record of the etag of [hello]: the data path
    of the key [a] is a directory, and [M] is the metadata artifact of
    [a]. *)
Definition fs_record_of_directory : Fs.node :=
  snd (createObject demo_store "a.meta"
         (StringBody (Json.stringify_meta (calculateEtag "hello") "text/plain"))
         None fs_created).

(** The file system after [createObject('a', 'hello')]. *)
Definition fs_object_a : Fs.node :=
  snd (createObject demo_store "a" (StringBody "hello") None fs_home).

(** Something [deleteObject] can remove: a regular file, or nothing. *)
Definition removable (fs : Fs.node) (p : Path.t) : Prop :=
  (exists c, Fs.readFile fs p = Ok c) \/ Fs.access fs p = Err Fs.ENOENT.

Definition DELETED : ResponseWrapper := mkResponse EmptyResponse Json.JNull.

(** The file system after [deleteObject('a/b')] on [fs_updated]. *)
Definition fs_deleted : Fs.node := snd (deleteObject demo_store "a/b" fs_updated).

(** ** Notions used for [list] *)

(** A name that a directory can hold. *)
Definition valid_name (s : string) : bool :=
  negb (s =? EmptyString)%string && negb (s =? ".")%string
  && negb (s =? "..")%string && negb (Str.mem "/" s).

Fixpoint distinct (l : list string) : bool :=
  match l with
  | [] => true
  | x :: r => negb (existsb (String.eqb x) r) && distinct r
  end.

(** Every name in the tree satisfies [P]. *)
Fixpoint all_names (P : string -> bool) (n : Fs.node) : bool :=
  match n with
  | Fs.File _ => true
  | Fs.Dir es => forallb (fun e => P (fst e) && all_names P (snd e)) es
  end.

(** No directory of the tree holds a name twice. *)
Fixpoint distinct_names (n : Fs.node) : bool :=
  match n with
  | Fs.File _ => true
  | Fs.Dir es => distinct (map fst es) && forallb (fun e => distinct_names (snd e)) es
  end.

(** The trees that a file system can hold. *)
Definition well_formed (n : Fs.node) : bool :=
  distinct_names n && all_names valid_name n.

Definition no_slash (s : string) : bool := negb (Str.mem "/" s).

Definition no_backslash (s : string) : bool := negb (Str.mem "\" s).

Definition backslash_free (n : Fs.node) : bool := all_names no_backslash n.

(** The regular files of a tree, each with its path from the top of the
    tree and its content, directory by directory. *)
Fixpoint files_of (n : Fs.node) : list (list string * string) :=
  match n with
  | Fs.File c => [([], c)]
  | Fs.Dir es =>
      flat_map (fun e => map (fun f => (fst e :: fst f, snd f)) (files_of (snd e))) es
  end.

(** The name of the file is not the one of a metadata artifact. *)
Definition non_meta (f : list string * string) : bool :=
  negb (Str.endsWith (last (fst f) EmptyString) ".meta").

(** The files that [list] reports of a directory with these entries, in
    the order of the traversal: a directory is traversed when it is met,
    before the entries that follow it. *)
Definition listed_files (entries : list (string * Fs.node)) : list (list string * string) :=
  filter non_meta (files_of (Fs.Dir entries)).

(** The listing entry of the file [f], found below the directory [dir]:
    the key is its path relative to [baseDir], backslashes replaced. *)
Definition entry_of (baseDir : Path.t) (dir : list string) (f : list string * string)
  : ListEntry :=
  mkEntry
    (Str.replace_backslashes (Path.relative baseDir (Path.mk (dir ++ fst f) false)))
    (String.length (snd f)).

(** All results in one batch, and no batch when there is no result. *)
Definition batches (results : list ListEntry) : list (list ListEntry) :=
  if (0 <? List.length results)%nat then [results] else [].

(** The file system after [createObject('notes.meta', 'hello')]. *)
Definition fs_notes_meta : Fs.node :=
  snd (createObject demo_store "notes.meta" (StringBody "hello") None fs_home).

(** The key of a file of the bucket at the path [p] below its root. *)
Definition key_of (p : list string) : string :=
  Str.replace_backslashes (String.concat "/" p).

(** What [readdir] returns for the bucket root of [fs_updated]. *)
Definition bucket_entries : list (string * Fs.node) :=
  match Fs.readdir fs_updated (basePath demo_store) with
  | Ok entries => entries
  | Err _ => []
  end.

(** ** Proof automation *)

(** Equations between results of the parser, turned into equations
    between their components. *)
Ltac injects :=
  repeat match goal with
         | H : Some _ = Some _ |- _ => injection H as H; subst
         | H : (_, _) = (_, _) |- _ => injection H as ? ?; subst
         end.

(** ** Notions used for the further properties *)

Definition STALE_DELETE : string :=
  "object was modified concurrently, cannot proceed with deletion".

(** A path that is neither of the two artifacts of [key]. *)
Definition other_path (store : S3StoreMock) (key : string) (p : Path.t) : Prop :=
  Path.components p <> Path.components (getFilePath store key)
  /\ Path.components p <> Path.components (getMetaPath store key).

(** The operations on [k1] in the store [s1] are the operations on [k2]
    in the store [s2]: the same results and the same effects, on every
    file system. *)
Definition same_operations (s1 : S3StoreMock) (k1 : string)
    (s2 : S3StoreMock) (k2 : string) : Prop :=
  (forall body contentType fs,
     createObject s1 k1 body contentType fs = createObject s2 k2 body contentType fs)
  /\ (forall body etag contentType fs,
        putObjectIfMatch s1 k1 body etag contentType fs
        = putObjectIfMatch s2 k2 body etag contentType fs)
  /\ (forall fs, getObject s1 k1 fs = getObject s2 k2 fs)
  /\ (forall etag fs, getObjectIfMatch s1 k1 etag fs = getObjectIfMatch s2 k2 etag fs)
  /\ (forall fs, deleteObject s1 k1 fs = deleteObject s2 k2 fs)
  /\ (forall etag fs, deleteObjectIfMatch s1 k1 etag fs = deleteObjectIfMatch s2 k2 etag fs).

(** The directory of the mock: the option, or the default. *)
Definition mock_dir (mockDir : option string) : string :=
  match mockDir with
  | Some d => d
  | None => MOCK_DIR
  end.

(** A key made of ordinary names: no empty piece, no [.] and no [..]. *)
Definition plain_key (key : string) : bool := forallb valid_name (Path.split key).

(** ** More inputs of the examples *)

(** The directory in which the stores of the examples are created. *)
Definition demo_cwd : Path.t := Path.mk ["home"; "user"] false.

(** The file system after [createObject('k.meta/x', 'hello')]: the
    metadata path of the key [k] is a directory. *)
Definition fs_meta_dir : Fs.node :=
  snd (createObject demo_store "k.meta/x" (StringBody "hello") None fs_home).

(** The file system [fs_created] after [createObject('c', 'hello!')], and
    the latter after [deleteObject('a/b')]. *)
Definition fs_two : Fs.node :=
  snd (createObject demo_store "c" (StringBody "hello!") None fs_created).

Definition fs_one : Fs.node := snd (deleteObject demo_store "a/b" fs_two).

(** What [readdir] returns for the directory of a prefix. *)
Definition entries_at (fs : Fs.node) (prefix : string) : list (string * Fs.node) :=
  match Fs.readdir fs (Path.join (basePath demo_store) prefix) with
  | Ok entries => entries
  | Err _ => []
  end.

(** The code points of a string of one, two, three and four bytes a
    character. *)
Definition demo_text : list Z := [0x68; 0xe9; 0x20ac; 0x1f600].

(** The file system after [createObject('s', text)] and after
    [createObject('j', JSON.stringify(text))]. *)
Definition fs_text : Fs.node :=
  snd (createObject demo_store "s" (StringBody (utf8_of demo_text)) None fs_home).

Definition fs_json : Fs.node :=
  snd (createObject demo_store "j" (StringBody (Json.quote (utf8_of demo_text))) None fs_home).

(** * Facts about strings *)

Module StrFacts.

Lemma append_nil_r s : s ++ EmptyString = s.
Proof. induction s; simpl; congruence. Qed.

Lemma append_assoc s t u : (s ++ t) ++ u = s ++ (t ++ u).
Proof. induction s; simpl; congruence. Qed.

Lemma length_append s t :
  String.length (s ++ t) = (String.length s + String.length t)%nat.
Proof. induction s; simpl; congruence. Qed.

Lemma append_eq_nil s t : s ++ t = EmptyString -> s = EmptyString /\ t = EmptyString.
Proof. destruct s; simpl; [auto|discriminate]. Qed.

Lemma append_inj_l s : forall t u, s ++ t = s ++ u -> t = u.
Proof. induction s; simpl; intros t u H; [assumption|]. injection H. auto. Qed.

Lemma string_cons_inj c s t : String c s = String c t -> s = t.
Proof. intros H. injection H. auto. Qed.

Lemma append_inj_r s : forall t u, s ++ u = t ++ u -> s = t.
Proof.
  induction s as [|c s IH]; intros t u H.
  - destruct t as [|d t]; [reflexivity|].
    apply (f_equal String.length) in H. simpl in H. rewrite length_append in H. lia.
  - destruct t as [|d t].
    + apply (f_equal String.length) in H. simpl in H. rewrite length_append in H. lia.
    + simpl in H. injection H as -> H. f_equal. apply (IH _ _ H).
Qed.

Lemma mem_append c s t : Str.mem c (s ++ t) = Str.mem c s || Str.mem c t.
Proof.
  induction s as [|d r IH]; simpl; [reflexivity|].
  rewrite IH. apply orb_assoc.
Qed.

Lemma chr_code c : Str.chr (Str.code c) = c.
Proof.
  unfold Str.chr, Str.code. rewrite N2Z.id. apply ascii_N_embedding.
Qed.

Lemma code_range c : 0 <= Str.code c < 256.
Proof.
  unfold Str.code. pose proof (N_ascii_bounded c). lia.
Qed.

Lemma code_chr z : 0 <= z < 256 -> Str.code (Str.chr z) = z.
Proof.
  intros H. unfold Str.chr, Str.code.
  rewrite N_ascii_embedding; lia.
Qed.

Lemma code_inj c d : Str.code c = Str.code d -> c = d.
Proof. intros H. rewrite <- (chr_code c), <- (chr_code d), H. reflexivity. Qed.

Lemma eqb_code c d : Ascii.eqb c d = (Str.code c =? Str.code d).
Proof.
  destruct (Ascii.eqb_spec c d) as [->|Hne].
  - symmetry. apply Z.eqb_refl.
  - symmetry. apply Z.eqb_neq. intros H. apply Hne, code_inj, H.
Qed.

(** A string is its first [k] characters followed by the others. *)
Lemma substring_cut s : forall k,
  (k <= String.length s)%nat ->
  s = substring 0 k s ++ substring k (String.length s - k) s.
Proof.
  induction s as [|c r IH]; intros k Hk; simpl in *.
  - destruct k; reflexivity.
  - destruct k as [|k]; simpl.
    + f_equal. clear. induction r as [|d r IH]; simpl; congruence.
    + f_equal. apply IH. lia.
Qed.

Lemma substring_append_r s : forall t,
  substring (String.length s) (String.length t) (s ++ t) = t.
Proof.
  induction s as [|c r IH]; intros t; simpl.
  - induction t as [|d t IHt]; simpl; [reflexivity|].
    f_equal. exact IHt.
  - apply IH.
Qed.

(** [endsWith] holds exactly of the strings [p ++ suffix]. *)
Lemma endsWith_iff s suffix :
  Str.endsWith s suffix = true <-> exists p, s = p ++ suffix.
Proof.
  unfold Str.endsWith. split.
  - intros H. apply andb_true_iff in H as [Hle Heq].
    apply Nat.leb_le in Hle. apply String.eqb_eq in Heq.
    exists (substring 0 (String.length s - String.length suffix) s).
    pose proof (substring_cut s (String.length s - String.length suffix)) as Hc.
    replace (String.length s - (String.length s - String.length suffix))%nat
      with (String.length suffix) in Hc by lia.
    rewrite Heq in Hc. apply Hc. lia.
  - intros [p ->]. rewrite length_append.
    apply andb_true_iff. split; [apply Nat.leb_le; lia|].
    replace (String.length p + String.length suffix - String.length suffix)%nat
      with (String.length p) by lia.
    rewrite substring_append_r. apply String.eqb_refl.
Qed.

Lemma length_zero s : String.length s = 0%nat -> s = EmptyString.
Proof. destruct s; simpl; [reflexivity|discriminate]. Qed.

End StrFacts.

(** * Facts about the file-system model *)

Module FsFacts.

Import Fs.

Lemma assoc_replace_same name n c es :
  assoc name es = Some c -> assoc name (replace name n es) = Some n.
Proof.
  induction es as [|[k m] r IH]; simpl; [discriminate|].
  destruct (k =? name)%string eqn:E; simpl; rewrite E; auto.
Qed.

Lemma assoc_replace_other name other n es :
  other <> name -> assoc other (replace name n es) = assoc other es.
Proof.
  intros Hne. induction es as [|[k m] r IH]; simpl; [reflexivity|].
  destruct (k =? name)%string eqn:E; simpl.
  - apply String.eqb_eq in E. subst k.
    destruct (name =? other)%string eqn:E'; [|reflexivity].
    apply String.eqb_eq in E'. congruence.
  - rewrite IH. reflexivity.
Qed.

Lemma replace_same name c es :
  assoc name es = Some c -> replace name c es = es.
Proof.
  induction es as [|[k m] r IH]; simpl; [reflexivity|].
  destruct (k =? name)%string eqn:E.
  - intros H. injection H as ->. reflexivity.
  - intros H. rewrite IH; auto.
Qed.

Lemma assoc_app_some name c es l :
  assoc name es = Some c -> assoc name (es ++ l) = Some c.
Proof.
  induction es as [|[k m] r IH]; simpl; [discriminate|].
  destruct (k =? name)%string; auto.
Qed.

Lemma assoc_app_none name es l :
  assoc name es = None -> assoc name (es ++ l) = assoc name l.
Proof.
  induction es as [|[k m] r IH]; simpl; [reflexivity|].
  destruct (k =? name)%string; [discriminate|auto].
Qed.

Lemma assoc_remove_same name es : assoc name (remove name es) = None.
Proof.
  induction es as [|[k m] r IH]; simpl; [reflexivity|].
  destruct (k =? name)%string eqn:E; simpl; [assumption|].
  rewrite E. assumption.
Qed.

Lemma assoc_remove_other name other es :
  other <> name -> assoc other (remove name es) = assoc other es.
Proof.
  intros Hne. induction es as [|[k m] r IH]; simpl; [reflexivity|].
  destruct (k =? name)%string eqn:E; simpl.
  - apply String.eqb_eq in E. subst k.
    destruct (name =? other)%string eqn:E'; [|assumption].
    apply String.eqb_eq in E'. congruence.
  - rewrite IH. reflexivity.
Qed.

(** A successful write leaves a regular file with the content written,
    and the path had no trailing separator. *)
Lemma find_write_same p : forall n tr c n',
  write n p tr c = Ok n' -> find n' p = Ok (File c) /\ tr = false.
Proof.
  induction p as [|s p IH]; intros n tr c n'; simpl.
  - destruct n; [|discriminate]. destruct tr; [discriminate|].
    intros H; injection H as <-. auto.
  - destruct n as [x|es]; [discriminate|].
    destruct (assoc s es) as [child|] eqn:Ea.
    + destruct (write child p tr c) as [child'|e] eqn:Ew; [|discriminate].
      intros H; injection H as <-. simpl.
      rewrite (assoc_replace_same _ _ _ _ Ea). eauto.
    + destruct p as [|s' p']; [|discriminate].
      destruct tr; [discriminate|].
      intros H; injection H as <-. simpl.
      rewrite (assoc_app_none _ _ _ Ea). simpl. rewrite String.eqb_refl. auto.
Qed.

(** A write leaves the regular files at other paths as they are. *)
Lemma find_write_other q : forall n tr c n' p x,
  write n q tr c = Ok n' -> p <> q ->
  find n p = Ok (File x) -> find n' p = Ok (File x).
Proof.
  induction q as [|s q IH]; intros n tr c n' p x; simpl.
  - destruct n; [|discriminate]. destruct tr; [discriminate|].
    intros _ Hne. destruct p as [|t p]; [congruence|]. simpl. discriminate.
  - destruct n as [y|es]; [discriminate|].
    destruct (assoc s es) as [child|] eqn:Ea.
    + destruct (write child q tr c) as [child'|e] eqn:Ew; [|discriminate].
      intros H Hne; injection H as <-.
      destruct p as [|t p]; simpl; [discriminate|].
      destruct (String.string_dec t s) as [->|Hts].
      * rewrite Ea, (assoc_replace_same _ _ _ _ Ea).
        apply (IH _ _ _ _ _ _ Ew). congruence.
      * rewrite (assoc_replace_other _ _ _ _ Hts). auto.
    + destruct q as [|s' q']; [|discriminate].
      destruct tr; [discriminate|].
      intros H Hne; injection H as <-.
      destruct p as [|t p]; simpl; [discriminate|].
      destruct (assoc t es) as [child|] eqn:Et; [|discriminate].
      rewrite (assoc_app_some _ _ _ _ Et). auto.
Qed.

(** Writing over a regular file succeeds. *)
Lemma write_over_file p : forall n x c,
  find n p = Ok (File x) -> exists n', write n p false c = Ok n'.
Proof.
  induction p as [|s p IH]; intros n x c; simpl.
  - intros H; injection H as ->. eauto.
  - destruct n as [y|es]; [discriminate|].
    destruct (assoc s es) as [child|]; [|discriminate].
    intros H. destruct (IH _ _ c H) as [n' ->]. eauto.
Qed.

(** Writing a new name into an existing directory succeeds. *)
Lemma write_new_file p : forall n es name c,
  find n p = Ok (Dir es) -> assoc name es = None ->
  exists n', write n (p ++ [name]) false c = Ok n'.
Proof.
  induction p as [|s p IH]; intros n es name c; simpl.
  - intros H; injection H as ->. intros ->. eauto.
  - destruct n as [y|es']; [discriminate|].
    destruct (assoc s es') as [child|]; [|discriminate].
    intros H Hn. destruct (IH _ _ _ c H Hn) as [n' ->]. eauto.
Qed.

(** The directory of an existing path exists: creating it changes
    nothing. *)
Lemma mkdirp_parent p : forall n name y,
  find n (p ++ [name]) = Ok y -> mkdirp n p = Ok n.
Proof.
  induction p as [|s p IH]; intros n name y; simpl.
  - destruct n as [x|es]; [discriminate|reflexivity].
  - destruct n as [x|es]; [discriminate|].
    destruct (assoc s es) as [child|] eqn:Ea; [|discriminate].
    intros H. rewrite (IH _ _ _ H), (replace_same _ _ _ Ea). reflexivity.
Qed.

Lemma mkdirp_dir p : forall n es,
  find n p = Ok (Dir es) -> mkdirp n p = Ok n.
Proof.
  induction p as [|s p IH]; intros n es; simpl.
  - intros H; injection H as ->. reflexivity.
  - destruct n as [x|es']; [discriminate|].
    destruct (assoc s es') as [child|] eqn:Ea; [|discriminate].
    intros H. rewrite (IH _ _ H), (replace_same _ _ _ Ea). reflexivity.
Qed.

(** Creating directories leaves the regular files as they are. *)
Lemma find_mkdirp d : forall n n' p x,
  mkdirp n d = Ok n' -> find n p = Ok (File x) -> find n' p = Ok (File x).
Proof.
  induction d as [|s d IH]; intros n n' p x; simpl.
  - destruct n; [discriminate|]. intros H; injection H as <-. auto.
  - destruct n as [y|es]; [discriminate|].
    destruct (assoc s es) as [child|] eqn:Ea.
    + destruct (mkdirp child d) as [child'|e] eqn:Em; [|discriminate].
      intros H; injection H as <-.
      destruct p as [|t p]; simpl; [discriminate|].
      destruct (String.string_dec t s) as [->|Hts].
      * rewrite Ea, (assoc_replace_same _ _ _ _ Ea). eauto.
      * rewrite (assoc_replace_other _ _ _ _ Hts). auto.
    + intros H; injection H as <-.
      destruct p as [|t p]; simpl; [discriminate|].
      destruct (assoc t es) as [child|] eqn:Et; [|discriminate].
      rewrite (assoc_app_some _ _ _ _ Et). auto.
Qed.

(** A prefix of the path of a node is the path of a directory. *)
Lemma find_prefix p : forall n q y,
  find n (p ++ q) = Ok y -> q <> [] -> exists es, find n p = Ok (Dir es).
Proof.
  induction p as [|s p IH]; intros n q y; simpl.
  - destruct q as [|t q]; [congruence|]. simpl.
    destruct n as [x|es]; [discriminate|eauto].
  - destruct n as [x|es]; [discriminate|].
    destruct (assoc s es) as [child|]; [|discriminate]. eauto.
Qed.

Lemma find_app p : forall n q m,
  find n p = Ok m -> find n (p ++ q) = find m q.
Proof.
  induction p as [|s p IH]; intros n q m; simpl.
  - intros H; injection H as ->. reflexivity.
  - destruct n as [x|es]; [discriminate|].
    destruct (assoc s es) as [child|]; [|discriminate]. auto.
Qed.

Lemma find_removelast p n es :
  find n p = Ok (Dir es) -> exists es', find n (removelast p) = Ok (Dir es').
Proof.
  destruct p as [|y l _] using rev_ind.
  - simpl. eauto.
  - rewrite removelast_last. intros H.
    apply (find_prefix _ _ _ _ H). discriminate.
Qed.

(** After a successful unlink nothing is left at the path. *)
Lemma find_unlink_same p : forall n tr n',
  unlink_at n p tr = Ok n' -> find n' p = Err ENOENT.
Proof.
  induction p as [|s p IH]; intros n tr n'; simpl; [discriminate|].
  destruct n as [x|es]; [discriminate|].
  destruct (assoc s es) as [child|] eqn:Ea; [|discriminate].
  destruct p as [|s' p'].
  - destruct child; [|discriminate]. destruct tr; [discriminate|].
    intros H; injection H as <-. simpl. rewrite assoc_remove_same. reflexivity.
  - destruct (unlink_at child (s' :: p') tr) as [child'|e] eqn:Eu; [|discriminate].
    intros H; injection H as <-.
    change (find (Dir (replace s child' es)) (s :: s' :: p'))
      with (match assoc s (replace s child' es) with
            | Some c => find c (s' :: p') | None => Err ENOENT end).
    rewrite (assoc_replace_same _ _ _ _ Ea). eauto.
Qed.

(** An unlink does not bring a missing path into existence. *)
Lemma find_unlink_missing q : forall n tr n' p,
  unlink_at n q tr = Ok n' -> find n p = Err ENOENT -> find n' p = Err ENOENT.
Proof.
  induction q as [|s q IH]; intros n tr n' p; simpl; [discriminate|].
  destruct n as [x|es]; [discriminate|].
  destruct (assoc s es) as [child|] eqn:Ea; [|discriminate].
  destruct q as [|s' q'].
  - destruct child; [|discriminate]. destruct tr; [discriminate|].
    intros H; injection H as <-.
    destruct p as [|t p]; simpl; [discriminate|].
    destruct (String.string_dec t s) as [->|Hts].
    + rewrite assoc_remove_same. reflexivity.
    + rewrite (assoc_remove_other _ _ _ Hts). auto.
  - destruct (unlink_at child (s' :: q') tr) as [child'|e] eqn:Eu; [|discriminate].
    intros H; injection H as <-.
    destruct p as [|t p]; simpl; [discriminate|].
    destruct (String.string_dec t s) as [->|Hts].
    + rewrite Ea, (assoc_replace_same _ _ _ _ Ea). eauto.
    + rewrite (assoc_replace_other _ _ _ _ Hts). auto.
Qed.

(** An unlink leaves the regular files at other paths as they are. *)
Lemma find_unlink_other q : forall n tr n' p x,
  unlink_at n q tr = Ok n' -> p <> q ->
  find n p = Ok (File x) -> find n' p = Ok (File x).
Proof.
  induction q as [|s q IH]; intros n tr n' p x; simpl; [discriminate|].
  destruct n as [y|es]; [discriminate|].
  destruct (assoc s es) as [child|] eqn:Ea; [|discriminate].
  destruct q as [|s' q'].
  - destruct child as [c|]; [|discriminate]. destruct tr; [discriminate|].
    intros H Hne; injection H as <-.
    destruct p as [|t p]; simpl; [discriminate|].
    destruct (String.string_dec t s) as [->|Hts].
    + rewrite Ea. destruct p as [|t' p]; [congruence|]. simpl. discriminate.
    + rewrite (assoc_remove_other _ _ _ Hts). auto.
  - destruct (unlink_at child (s' :: q') tr) as [child'|e] eqn:Eu; [|discriminate].
    intros H Hne; injection H as <-.
    destruct p as [|t p]; simpl; [discriminate|].
    destruct (String.string_dec t s) as [->|Hts].
    + rewrite Ea, (assoc_replace_same _ _ _ _ Ea).
      apply (IH _ _ _ _ _ Eu). congruence.
    + rewrite (assoc_replace_other _ _ _ _ Hts). auto.
Qed.

(** Unlinking a regular file below the root succeeds. *)
Lemma unlink_file p : forall n x,
  find n p = Ok (File x) -> p <> [] -> exists n', unlink_at n p false = Ok n'.
Proof.
  induction p as [|s p IH]; intros n x; simpl; [congruence|].
  destruct n as [y|es]; [discriminate|].
  destruct (assoc s es) as [child|] eqn:Ea; [|discriminate].
  destruct p as [|s' p'].
  - simpl. intros H; injection H as ->. eauto.
  - intros H _. destruct (IH _ _ H) as [n' ->]; [discriminate|]. eauto.
Qed.

(** Unlinking a missing path reports it and changes nothing. *)
Lemma unlink_missing p : forall n tr,
  find n p = Err ENOENT -> unlink_at n p tr = Err ENOENT.
Proof.
  induction p as [|s p IH]; intros n tr; simpl; [discriminate|].
  destruct n as [y|es]; [discriminate|].
  destruct (assoc s es) as [child|] eqn:Ea; [|reflexivity].
  destruct p as [|s' p']; [simpl; discriminate|].
  intros H. rewrite (IH _ _ H). reflexivity.
Qed.

End FsFacts.

(** The errors of the file system on the paths of directories and of
    regular files. *)
Module FsErrorFacts.

Import Fs StrFacts FsFacts.

Lemma find_dir_unlink p : forall n tr es,
  find n p = Ok (Dir es) -> unlink_at n p tr = Err EISDIR.
Proof.
  induction p as [|s p IH]; intros n tr es; simpl; [reflexivity|].
  destruct n as [x|es0]; [discriminate|].
  destruct (assoc s es0) as [child|]; [|discriminate].
  intros H. destruct p as [|s' p'].
  - simpl in H. injection H as ->. reflexivity.
  - rewrite (IH _ tr _ H). reflexivity.
Qed.

Lemma find_dir_write p : forall n tr c es,
  find n p = Ok (Dir es) -> write n p tr c = Err EISDIR.
Proof.
  induction p as [|s p IH]; intros n tr c es; simpl.
  - intros H. injection H as ->. reflexivity.
  - destruct n as [x|es0]; [discriminate|].
    destruct (assoc s es0) as [child|]; [|discriminate].
    intros H. rewrite (IH _ tr c _ H). reflexivity.
Qed.

Lemma find_file_write_trailing p : forall n c x,
  find n p = Ok (File x) -> write n p true c = Err EISDIR.
Proof.
  induction p as [|s p IH]; intros n c x; simpl.
  - intros H. injection H as ->. reflexivity.
  - destruct n as [y|es0]; [discriminate|].
    destruct (assoc s es0) as [child|]; [|discriminate].
    intros H. rewrite (IH _ c _ H). reflexivity.
Qed.

Lemma find_enotdir_mkdirp p : forall n,
  find n p = Err ENOTDIR -> exists e, mkdirp n (removelast p) = Err e.
Proof.
  induction p as [|s p IH]; intros n; [discriminate|].
  destruct n as [x|es].
  - intros _. destruct p as [|s' p']; simpl; eauto.
  - cbn [find]. destruct (assoc s es) as [child|] eqn:Ea; [|discriminate].
    intros H. destruct p as [|s' p']; [discriminate|].
    destruct (IH _ H) as [e He]. exists e.
    change (removelast (s :: s' :: p')) with (s :: removelast (s' :: p')).
    cbn [mkdirp]. rewrite Ea, He. reflexivity.
Qed.

Lemma find_file_mkdirp p : forall n x,
  find n p = Ok (File x) -> mkdirp n p = Err EEXIST.
Proof.
  induction p as [|s p IH]; intros n x; simpl.
  - intros H. injection H as ->. reflexivity.
  - destruct n as [y|es0]; [discriminate|].
    destruct (assoc s es0) as [child|]; [|discriminate].
    intros H. rewrite (IH _ _ H). reflexivity.
Qed.

Lemma lookup_dir fs p es :
  lookup fs p = Ok (Dir es) ->
  has_nul p = false /\ find fs (Path.components p) = Ok (Dir es).
Proof.
  unfold lookup. destruct (has_nul p); [discriminate|].
  destruct (find fs (Path.components p)) as [[x|es0]|e]; try discriminate.
  - destruct (Path.trailing p); discriminate.
  - intros H. injection H as ->. auto.
Qed.

Lemma lookup_enotdir fs p :
  lookup fs p = Err ENOTDIR ->
  has_nul p = false
  /\ (find fs (Path.components p) = Err ENOTDIR
      \/ exists x, find fs (Path.components p) = Ok (File x) /\ Path.trailing p = true).
Proof.
  unfold lookup. destruct (has_nul p); [discriminate|].
  destruct (find fs (Path.components p)) as [[x|es0]|e]; try discriminate.
  - destruct (Path.trailing p); [|discriminate]. eauto.
  - intros H. injection H as ->. auto.
Qed.

End FsErrorFacts.

(** * Facts about paths *)

Module PathFacts.

Import StrFacts.

Lemma split_not_nil s : Path.split s <> [].
Proof.
  destruct s as [|c r]; simpl; [discriminate|].
  destruct (Ascii.eqb c "/"); [discriminate|].
  destruct (Path.split r); discriminate.
Qed.

Lemma split_no_slash t : Str.mem "/" t = false -> Path.split t = [t].
Proof.
  induction t as [|c r IH]; [reflexivity|].
  cbn [Str.mem Path.split].
  intros H. apply orb_false_iff in H as [H1 H2].
  rewrite Ascii.eqb_sym in H1. rewrite H1, (IH H2). reflexivity.
Qed.

(** Appending a suffix without separator extends the last piece. *)
Lemma split_append_suffix t : Str.mem "/" t = false -> forall k,
  Path.split (k ++ t) =
  (removelast (Path.split k) ++ [(last (Path.split k) EmptyString ++ t)%string])%list.
Proof.
  intros Ht. induction k as [|c r IH]; simpl.
  - apply split_no_slash, Ht.
  - destruct (Ascii.eqb c "/").
    + rewrite IH. pose proof (split_not_nil r) as Hn.
      destruct (Path.split r) as [|x l]; [congruence|]. reflexivity.
    + rewrite IH. pose proof (split_not_nil r) as Hn.
      destruct (Path.split r) as [|x l]; [congruence|].
      destruct l as [|y l]; reflexivity.
Qed.

Lemma split_app_slash p : forall r,
  Path.split (p ++ String "/" r) = (Path.split p ++ Path.split r)%list.
Proof.
  induction p as [|c p IH]; intros r.
  - reflexivity.
  - change (String c p ++ String "/" r) with (String c (p ++ String "/" r)).
    cbn [Path.split]. rewrite IH.
    pose proof (split_not_nil p) as Hn.
    destruct (Ascii.eqb c "/"); [reflexivity|].
    destruct (Path.split p) as [|x l]; [congruence|]. reflexivity.
Qed.

(** A key that ends with a separator has an empty last piece. *)
Lemma endsWith_slash_leaf key :
  Str.endsWith key "/" = true -> key_leaf key = EmptyString.
Proof.
  intros H. apply endsWith_iff in H as [p ->].
  unfold key_leaf. rewrite split_app_slash. simpl. apply last_last.
Qed.

Lemma normalize_app stack a b :
  Path.normalize stack (a ++ b) = Path.normalize (Path.normalize stack a) b.
Proof. apply fold_left_app. Qed.

Lemma components_join base arg :
  Path.components (Path.join base arg)
  = Path.normalize (Path.components base) (Path.split arg).
Proof.
  unfold Path.join. destruct (String.eqb_spec arg EmptyString) as [->|Hne].
  - reflexivity.
  - reflexivity.
Qed.

Lemma step_plain stack piece :
  (5 <= String.length piece)%nat -> Path.step stack piece = (stack ++ [piece])%list.
Proof.
  intros H. unfold Path.step.
  destruct (String.eqb_spec piece EmptyString) as [->|H1]; [simpl in H; lia|].
  destruct (String.eqb_spec piece ".") as [->|H2]; [simpl in H; lia|].
  destruct (String.eqb_spec piece "..") as [->|H3]; [simpl in H; lia|].
  reflexivity.
Qed.

(** The three things one more piece does to the components. *)
Lemma step_cases stack piece :
  (Path.step stack piece = (stack ++ [piece])%list
   /\ piece <> EmptyString /\ piece <> "." /\ piece <> "..")
  \/ ((piece = EmptyString \/ piece = ".") /\ Path.step stack piece = stack)
  \/ (piece = ".." /\ Path.step stack piece = removelast stack).
Proof.
  unfold Path.step.
  destruct (String.eqb_spec piece EmptyString) as [->|H1]; [right; left; auto|].
  destruct (String.eqb_spec piece ".") as [->|H2]; [right; left; auto|].
  destruct (String.eqb_spec piece "..") as [->|H3]; [right; right; auto|].
  left. auto.
Qed.

Section Key.

Variable base : Path.t.
Variable key : string.


Lemma split_key : Path.split key = (removelast (Path.split key) ++ [key_leaf key])%list.
Proof. apply app_removelast_last, split_not_nil. Qed.

Lemma file_components :
  Path.components (Path.join base key) = Path.step (key_parent base key) (key_leaf key).
Proof.
  rewrite components_join, split_key at 1.
  rewrite normalize_app. reflexivity.
Qed.

Lemma meta_components :
  Path.components (Path.join base (key ++ ".meta")) = ((key_parent base key) ++ [((key_leaf key) ++ ".meta")%string])%list.
Proof.
  rewrite components_join, split_append_suffix by reflexivity.
  rewrite normalize_app. simpl. apply step_plain.
  rewrite length_append. simpl. lia.
Qed.

(** The data file and the metadata file of a key are different paths. *)
Lemma file_meta_differ :
  Path.components (Path.join base key)
  <> Path.components (Path.join base (key ++ ".meta")).
Proof.
  rewrite file_components, meta_components.
  destruct (step_cases (key_parent base key) (key_leaf key)) as [[-> _]|[[_ ->]|[_ ->]]]; intros H.
  - apply app_inj_tail in H as [_ H].
    apply (f_equal String.length) in H. rewrite length_append in H. simpl in H. lia.
  - apply (f_equal (@List.length string)) in H. rewrite length_app in H. simpl in H. lia.
  - apply (f_equal (@List.length string)) in H. rewrite length_app in H. simpl in H.
    destruct (key_parent base key) as [|x l] eqn:E; [simpl in H; lia|].
    rewrite (@app_removelast_last _ (x :: l) EmptyString) in H at 2 by discriminate.
    rewrite length_app in H. simpl in H. lia.
Qed.

(** When the last piece of the key is an ordinary name, the data file
    lies in the directory of the metadata file. *)
Lemma file_plain :
  key_leaf key <> EmptyString -> key_leaf key <> "." -> key_leaf key <> ".." ->
  Path.components (Path.join base key) = (key_parent base key ++ [key_leaf key])%list
  /\ Path.trailing (Path.join base key) = false.
Proof.
  intros H1 H2 H3. rewrite file_components. split.
  - destruct (step_cases (key_parent base key) (key_leaf key))
      as [[-> _]|[[[E|E] _]|[E _]]]; congruence.
  - unfold Path.join.
    destruct (String.eqb_spec key EmptyString) as [->|Hne]; [contradiction H1; reflexivity|].
    simpl. destruct (Str.endsWith key "/") eqn:E; [|reflexivity].
    apply endsWith_slash_leaf in E. contradiction.
Qed.

End Key.

End PathFacts.
(** * Facts about UTF-8, unpaired surrogates and the JSON of metadata *)

Module Utf8Facts.

Import StrFacts Utf8.

Lemma all_high_app s t : all_high (s ++ t) = all_high s && all_high t.
Proof.
  induction s as [|c r IH]; simpl; [reflexivity|].
  rewrite IH. apply andb_assoc.
Qed.

Lemma all_ascii_app s t : all_ascii (s ++ t) = all_ascii s && all_ascii t.
Proof.
  induction s as [|c r IH]; simpl; [reflexivity|].
  rewrite IH. apply andb_assoc.
Qed.

Lemma start_ascii a : is_ascii a = true -> start a = (String a EmptyString, Idle).
Proof. unfold start, is_ascii. intros ->. reflexivity. Qed.

Lemma step_ascii st a :
  decoder_ok st -> is_ascii a = true ->
  step st a = (flush st ++ String a EmptyString, Idle).
Proof.
  intros Hok Ha. destruct st as [|seen need lo hi]; simpl.
  - apply start_ascii, Ha.
  - destruct Hok as [Hlo _]. unfold is_ascii in Ha. apply Z.leb_le in Ha.
    replace (lo <=? Str.code a) with false by (symmetry; apply Z.leb_gt; lia).
    simpl. rewrite start_ascii by (apply Z.leb_le; exact Ha). reflexivity.
Qed.

Lemma start_high b :
  is_ascii b = false ->
  all_high (fst (start b)) = true /\ decoder_ok (snd (start b)).
Proof.
  intros Hb. unfold start. unfold is_ascii in Hb. rewrite Hb.
  assert (Hone : all_high (String b EmptyString) = true).
  { simpl. unfold is_ascii. rewrite Hb. reflexivity. }
  repeat match goal with
         | |- context [if ?c then _ else _] => destruct c
         end; simpl; repeat split; auto; lia.
Qed.

Lemma step_high st b :
  decoder_ok st -> is_ascii b = false ->
  all_high (fst (step st b)) = true /\ decoder_ok (snd (step st b)).
Proof.
  intros Hok Hb. destruct st as [|seen need lo hi]; simpl.
  - apply start_high, Hb.
  - destruct Hok as [Hlo Hseen].
    assert (Hone : all_high (seen ++ String b EmptyString) = true).
    { rewrite all_high_app, Hseen. simpl. rewrite Hb. reflexivity. }
    destruct ((lo <=? Str.code b) && (Str.code b <=? hi)).
    + destruct need as [|[|n]]; simpl; repeat split; auto; lia.
    + destruct (start_high b Hb) as [H1 H2].
      destruct (start b) as [out st']. simpl in *.
      split; [|exact H2]. exact H1.
Qed.

Lemma flush_high st : all_high (flush st) = true.
Proof. destruct st; reflexivity. Qed.

Lemma decode_from_ascii_char st a r :
  decoder_ok st -> is_ascii a = true ->
  decode_from st (String a r) = flush st ++ String a (decode_from Idle r).
Proof.
  intros Hok Ha. simpl. rewrite (step_ascii _ _ Hok Ha).
  rewrite append_assoc. reflexivity.
Qed.

Lemma decode_idle_ascii A : forall r,
  all_ascii A = true -> decode_from Idle (A ++ r) = A ++ decode_from Idle r.
Proof.
  induction A as [|a A IH]; intros r H; [reflexivity|].
  simpl in H. apply andb_true_iff in H as [Ha HA].
  change (String a A ++ r) with (String a (A ++ r)).
  rewrite decode_from_ascii_char by (simpl; auto).
  simpl. rewrite IH by assumption. reflexivity.
Qed.

(** Text in ASCII ends a pending sequence and is decoded as it is. *)
Lemma decode_from_ascii st A r :
  decoder_ok st -> all_ascii A = true -> A <> EmptyString ->
  decode_from st (A ++ r) = flush st ++ A ++ decode_from Idle r.
Proof.
  intros Hok HA Hne. destruct A as [|a A]; [congruence|].
  simpl in HA. apply andb_true_iff in HA as [Ha HA].
  change (String a A ++ r) with (String a (A ++ r)).
  rewrite decode_from_ascii_char by assumption.
  rewrite decode_idle_ascii by assumption. reflexivity.
Qed.

Lemma decode_ascii s : all_ascii s = true -> decode s = s.
Proof.
  intros H. unfold decode.
  rewrite <- (append_nil_r s) at 1.
  rewrite decode_idle_ascii by assumption. simpl. apply append_nil_r.
Qed.

End Utf8Facts.

Module Utf8RoundTrip.

Import StrFacts Utf8 Utf8Facts.

(** A property checked on the integers below [n] holds of them. *)
Lemma below_checked (f : Z -> bool) (n : nat) :
  forallb f (map Z.of_nat (seq 0 n)) = true ->
  forall x, 0 <= x < Z.of_nat n -> f x = true.
Proof.
  intros H x Hx. rewrite forallb_forall in H. apply H.
  apply in_map_iff. exists (Z.to_nat x). split; [lia|].
  apply in_seq. lia.
Qed.

(** The byte [k + x] made of the marker [k] and the payload [x]. *)
Lemma lor_code k x :
  (k = 0x80 /\ 0 <= x < 64) \/ (k = 0xc0 /\ 0 <= x < 32)
  \/ (k = 0xe0 /\ 0 <= x < 16) \/ (k = 0xf0 /\ 0 <= x < 8) ->
  Str.code (Str.chr (Z.lor k x)) = k + x.
Proof.
  intros [[-> H]|[[-> H]|[[-> H]|[-> H]]]].
  - apply Z.eqb_eq.
    apply (below_checked (fun x => Str.code (Str.chr (Z.lor 0x80 x)) =? 0x80 + x) 64);
      [vm_compute; reflexivity|exact H].
  - apply Z.eqb_eq.
    apply (below_checked (fun x => Str.code (Str.chr (Z.lor 0xc0 x)) =? 0xc0 + x) 32);
      [vm_compute; reflexivity|exact H].
  - apply Z.eqb_eq.
    apply (below_checked (fun x => Str.code (Str.chr (Z.lor 0xe0 x)) =? 0xe0 + x) 16);
      [vm_compute; reflexivity|exact H].
  - apply Z.eqb_eq.
    apply (below_checked (fun x => Str.code (Str.chr (Z.lor 0xf0 x)) =? 0xf0 + x) 8);
      [vm_compute; reflexivity|exact H].
Qed.

Lemma low6_range x : 0 <= Z.land x 0x3f < 64.
Proof.
  change 0x3f with (Z.ones 6). rewrite Z.land_ones by lia.
  apply Z.mod_pos_bound. lia.
Qed.

Lemma low6_mod x : Z.land x 0x3f = x mod 64.
Proof. change 0x3f with (Z.ones 6). rewrite Z.land_ones by lia. reflexivity. Qed.

Lemma shiftr_div x n : 0 <= n -> Z.shiftr x n = x / 2 ^ n.
Proof. intros H. apply Z.shiftr_div_pow2, H. Qed.

(** Booleans of comparisons, decided by arithmetic. *)
Ltac decide_tests :=
  repeat match goal with
         | |- context [?a <=? ?b] => destruct (Z.leb_spec a b); try lia
         | |- context [?a <? ?b] => destruct (Z.ltb_spec a b); try lia
         | |- context [?a =? ?b] => destruct (Z.eqb_spec a b); try lia
         end; cbn [andb orb].

(** A continuation byte in the expected range is taken. *)
Lemma step_continue seen need lo hi b :
  lo <= Str.code b <= hi ->
  step (Pending seen need lo hi) b
  = match need with
    | S (S n) => (EmptyString, Pending (seen ++ String b EmptyString) (S n) 0x80 0xbf)
    | _ => (seen ++ String b EmptyString, Idle)
    end.
Proof. intros H. unfold step. decide_tests. reflexivity. Qed.

(** The lead bytes and what they expect. *)
Lemma start_lead b :
  let z := Str.code b in
  (0xc2 <= z <= 0xdf -> start b = (EmptyString, Pending (String b EmptyString) 1 0x80 0xbf))
  /\ (z = 0xe0 -> start b = (EmptyString, Pending (String b EmptyString) 2 0xa0 0xbf))
  /\ (z = 0xed -> start b = (EmptyString, Pending (String b EmptyString) 2 0x80 0x9f))
  /\ (0xe1 <= z <= 0xef -> z <> 0xed ->
      start b = (EmptyString, Pending (String b EmptyString) 2 0x80 0xbf))
  /\ (z = 0xf0 -> start b = (EmptyString, Pending (String b EmptyString) 3 0x90 0xbf))
  /\ (z = 0xf4 -> start b = (EmptyString, Pending (String b EmptyString) 3 0x80 0x8f))
  /\ (0xf1 <= z <= 0xf3 ->
      start b = (EmptyString, Pending (String b EmptyString) 3 0x80 0xbf)).
Proof.
  intros z. unfold start. fold z. repeat split; intros; decide_tests; reflexivity.
Qed.

(** The bytes of the encoding of a code point. *)
Lemma encode_cp_codes cp :
  0 <= cp < 0x110000 ->
  Str.codes (encode_cp cp)
  = if cp <? 0x80 then [cp]
    else if cp <? 0x800 then [0xc0 + cp / 64; 0x80 + cp mod 64]
    else if cp <? 0x10000 then
      [0xe0 + cp / 4096; 0x80 + (cp / 64) mod 64; 0x80 + cp mod 64]
    else
      [0xf0 + cp / 262144; 0x80 + (cp / 4096) mod 64;
       0x80 + (cp / 64) mod 64; 0x80 + cp mod 64].
Proof.
  intros Hr. unfold encode_cp.
  pose proof (low6_range cp) as L0.
  pose proof (low6_range (Z.shiftr cp 6)) as L1.
  pose proof (low6_range (Z.shiftr cp 12)) as L2.
  rewrite !low6_mod in *.
  rewrite (shiftr_div cp 6), (shiftr_div cp 12), (shiftr_div cp 18) in * by lia.
  change (2 ^ 6) with 64 in *. change (2 ^ 12) with 4096 in *.
  change (2 ^ 18) with 262144 in *.
  destruct (Z.ltb_spec cp 0x80) as [H1|H1].
  { cbn [Str.of_codes Str.codes]. rewrite code_chr by lia. reflexivity. }
  destruct (Z.ltb_spec cp 0x800) as [H2|H2].
  { assert (Ha : 0 <= cp / 64 < 32)
      by (split; [apply Z.div_pos|apply Z.div_lt_upper_bound]; lia).
    cbn [Str.of_codes Str.codes].
    rewrite (lor_code 0xc0), (lor_code 0x80) by tauto. reflexivity. }
  destruct (Z.ltb_spec cp 0x10000) as [H3|H3].
  { assert (Ha : 0 <= cp / 4096 < 16)
      by (split; [apply Z.div_pos|apply Z.div_lt_upper_bound]; lia).
    cbn [Str.of_codes Str.codes].
    rewrite (lor_code 0xe0), !(lor_code 0x80) by tauto. reflexivity. }
  { assert (Ha : 0 <= cp / 262144 < 8)
      by (split; [apply Z.div_pos|apply Z.div_lt_upper_bound]; lia).
    cbn [Str.of_codes Str.codes].
    rewrite (lor_code 0xf0), !(lor_code 0x80) by tauto. reflexivity. }
Qed.

(** The decoder returns the encoding of a scalar value as it is. *)
Lemma decode_encode_cp cp r :
  scalar_value cp = true ->
  decode_from Idle (encode_cp cp ++ r) = encode_cp cp ++ decode_from Idle r.
Proof.
  intros Hs. unfold scalar_value in Hs.
  assert (Hrange : 0 <= cp < 0xd800 \/ 0xe000 <= cp < 0x110000).
  { apply orb_true_iff in Hs as [H|H]; apply andb_true_iff in H as [H1 H2];
      [left|right]; split; (apply Z.leb_le, H1 || apply Z.ltb_lt, H2). }
  clear Hs. unfold encode_cp.
  destruct (Z.ltb_spec cp 0x80) as [H1|H1].
  { apply (decode_idle_ascii (Str.of_codes [cp])).
    cbn [Str.of_codes all_ascii]. unfold is_ascii.
    rewrite code_chr by lia. rewrite andb_true_r. apply Z.leb_le. lia. }
  pose proof (low6_range cp) as L0.
  pose proof (low6_range (Z.shiftr cp 6)) as L1.
  pose proof (low6_range (Z.shiftr cp 12)) as L2.
  pose proof (low6_mod cp) as M0.
  pose proof (low6_mod (Z.shiftr cp 6)) as M1.
  pose proof (low6_mod (Z.shiftr cp 12)) as M2.
  rewrite (shiftr_div cp 6) in * by lia.
  rewrite (shiftr_div cp 12) in * by lia.
  change (2 ^ 6) with 64 in *. change (2 ^ 12) with 4096 in *.
  set (c0 := Z.land cp 0x3f) in *.
  set (c1 := Z.land (cp / 64) 0x3f) in *.
  set (c2 := Z.land (cp / 4096) 0x3f) in *.
  assert (C0 : Str.code (Str.chr (Z.lor 0x80 c0)) = 0x80 + c0) by (apply lor_code; auto).
  assert (C1 : Str.code (Str.chr (Z.lor 0x80 c1)) = 0x80 + c1) by (apply lor_code; auto).
  assert (C2 : Str.code (Str.chr (Z.lor 0x80 c2)) = 0x80 + c2) by (apply lor_code; auto).
  destruct (Z.ltb_spec cp 0x800) as [H2|H2].
  { assert (Ha : 2 <= cp / 64 < 32) by (split; [apply Z.div_le_lower_bound|apply Z.div_lt_upper_bound]; lia).
    assert (B0 : Str.code (Str.chr (Z.lor 0xc0 (cp / 64))) = 0xc0 + cp / 64)
      by (apply lor_code; right; left; lia).
    cbn [Str.of_codes append decode_from].
    unfold step at 1.
    rewrite (proj1 (start_lead _)) by (cbv zeta; lia).
    rewrite step_continue by lia. reflexivity. }
  destruct (Z.ltb_spec cp 0x10000) as [H3|H3].
  { assert (Ha : 0 <= cp / 4096 < 16) by (split; [apply Z.div_le_lower_bound|apply Z.div_lt_upper_bound]; lia).
    assert (B0 : Str.code (Str.chr (Z.lor 0xe0 (cp / 4096))) = 0xe0 + cp / 4096)
      by (apply lor_code; right; right; left; lia).
    assert (Hq : cp / 64 = 64 * (cp / 4096) + c1).
    { rewrite M1. replace 4096 with (64 * 64) by reflexivity.
      rewrite <- Z.div_div by lia. apply Z.div_mod. lia. }
    assert (Hcp : 64 * (cp / 64) <= cp < 64 * (cp / 64) + 64).
    { pose proof (Z.div_mod cp 64). pose proof (Z.mod_pos_bound cp 64). lia. }
    cbn [Str.of_codes append decode_from].
    unfold step at 1.
    destruct (start_lead (Str.chr (Z.lor 0xe0 (cp / 4096)))) as (_ & S0 & Sd & Sx & _).
    cbv zeta in S0, Sd, Sx. rewrite B0 in S0, Sd, Sx.
    destruct (Z.eq_dec (cp / 4096) 0) as [E0|E0];
      [|destruct (Z.eq_dec (cp / 4096) 13) as [Ed|Ed]].
    - rewrite S0 by lia. rewrite step_continue by lia.
      rewrite step_continue by lia. reflexivity.
    - rewrite Sd by lia. rewrite step_continue by lia.
      rewrite step_continue by lia. reflexivity.
    - rewrite Sx by lia. rewrite step_continue by lia.
      rewrite step_continue by lia. reflexivity. }
  { rewrite (shiftr_div cp 18) in * by lia. change (2 ^ 18) with 262144 in *.
    assert (Ha : 0 <= cp / 262144 < 5) by (split; [apply Z.div_le_lower_bound|apply Z.div_lt_upper_bound]; lia).
    assert (B0 : Str.code (Str.chr (Z.lor 0xf0 (cp / 262144))) = 0xf0 + cp / 262144)
      by (apply lor_code; right; right; right; lia).
    assert (Hq : cp / 4096 = 64 * (cp / 262144) + c2).
    { rewrite M2. replace 262144 with (4096 * 64) by reflexivity.
      rewrite <- Z.div_div by lia. apply Z.div_mod. lia. }
    assert (Hcp : 4096 * (cp / 4096) <= cp < 4096 * (cp / 4096) + 4096).
    { pose proof (Z.div_mod cp 4096). pose proof (Z.mod_pos_bound cp 4096). lia. }
    cbn [Str.of_codes append decode_from].
    unfold step at 1.
    destruct (start_lead (Str.chr (Z.lor 0xf0 (cp / 262144)))) as (_ & _ & _ & _ & S0 & S4 & Sx).
    cbv zeta in S0, S4, Sx. rewrite B0 in S0, S4, Sx.
    destruct (Z.eq_dec (cp / 262144) 0) as [E0|E0];
      [|destruct (Z.eq_dec (cp / 262144) 4) as [E4|E4]].
    - rewrite S0 by lia. rewrite step_continue by lia.
      rewrite step_continue by lia. rewrite step_continue by lia. reflexivity.
    - rewrite S4 by lia. rewrite step_continue by lia.
      rewrite step_continue by lia. rewrite step_continue by lia. reflexivity.
    - rewrite Sx by lia. rewrite step_continue by lia.
      rewrite step_continue by lia. rewrite step_continue by lia. reflexivity. }
Qed.

(** [toString('utf8')] of the bytes of a well-formed string is that
    string. *)
Lemma decode_utf8_of cps :
  forallb scalar_value cps = true -> decode (utf8_of cps) = utf8_of cps.
Proof.
  unfold decode. induction cps as [|cp l IH]; [reflexivity|].
  cbn [forallb utf8_of]. intros H. apply andb_true_iff in H as [H1 H2].
  rewrite (decode_encode_cp _ _ H1), (IH H2). reflexivity.
Qed.

End Utf8RoundTrip.

Module SurrogateFacts.

Import StrFacts Utf8 Utf8Facts Utf8RoundTrip.

Lemma surrogate3_range a b c :
  is_surrogate3 a b c = true ->
  Str.code a = 0xed /\ 0xa0 <= Str.code b <= 0xbf /\ 0x80 <= Str.code c <= 0xbf.
Proof.
  unfold is_surrogate3. intros H.
  apply andb_true_iff in H as [H Hc]. apply andb_true_iff in H as [Ha Hb].
  apply andb_true_iff in Hb as [Hb1 Hb2]. apply andb_true_iff in Hc as [Hc1 Hc2].
  apply Z.eqb_eq in Ha. apply Z.leb_le in Hb1, Hb2, Hc1, Hc2. lia.
Qed.

Lemma surrogate3_intro a b c :
  Str.code a = 0xed -> 0xa0 <= Str.code b <= 0xbf -> 0x80 <= Str.code c <= 0xbf ->
  is_surrogate3 a b c = true.
Proof.
  intros Ha Hb Hc. unfold is_surrogate3. rewrite Ha.
  repeat (apply andb_true_iff; split); try reflexivity; apply Z.leb_le; lia.
Qed.

Lemma surrogate_of_range a b c :
  is_surrogate3 a b c = true -> 0xd800 <= surrogate_of b c <= 0xdfff.
Proof. intros H. apply surrogate3_range in H. unfold surrogate_of. lia. Qed.

Lemma starts_surrogate_other a r :
  Str.code a <> 0xed -> starts_surrogate (String a r) = false.
Proof.
  intros H. destruct r as [|b [|c r']]; try reflexivity.
  cbn [starts_surrogate]. unfold is_surrogate3.
  destruct (Z.eqb_spec (Str.code a) 0xed); [contradiction|reflexivity].
Qed.

Lemma starts_surrogate_ascii a r :
  is_ascii a = true -> starts_surrogate (String a r) = false.
Proof.
  intros H. apply starts_surrogate_other.
  unfold is_ascii in H. apply Z.leb_le in H. lia.
Qed.

(** A string is read from its start: a byte that starts no unpaired
    surrogate, or the three bytes of an unpaired surrogate. *)
Lemma scan_ind (P : string -> Prop) :
  P EmptyString ->
  (forall a r, starts_surrogate (String a r) = false -> P r -> P (String a r)) ->
  (forall a b c r, is_surrogate3 a b c = true -> P r ->
                   P (String a (String b (String c r)))) ->
  forall s, P s.
Proof.
  intros H0 H1 H3.
  assert (H : forall n s, (String.length s <= n)%nat -> P s).
  { induction n as [|n IH]; intros s Hs.
    - destruct s; [exact H0|simpl in Hs; lia].
    - destruct s as [|a r]; [exact H0|].
      destruct (starts_surrogate (String a r)) eqn:E.
      + destruct r as [|b [|c r']]; try discriminate E.
        apply H3; [exact E|]. apply IH. simpl in Hs. lia.
      + apply H1; [exact E|]. apply IH. simpl in Hs. lia. }
  intros s. apply (H (String.length s)). lia.
Qed.

Lemma encode_cons a r :
  starts_surrogate (String a r) = false -> encode (String a r) = String a (encode r).
Proof.
  destruct r as [|b [|c r']]; try reflexivity.
  cbn [starts_surrogate]. intros H.
  change (encode (String a (String b (String c r'))))
    with (if is_surrogate3 a b c then replacement ++ encode r'
          else String a (encode (String b (String c r')))).
  rewrite H. reflexivity.
Qed.

Lemma encode_surrogate a b c r :
  is_surrogate3 a b c = true ->
  encode (String a (String b (String c r))) = replacement ++ encode r.
Proof.
  intros H.
  change (encode (String a (String b (String c r))))
    with (if is_surrogate3 a b c then replacement ++ encode r
          else String a (encode (String b (String c r)))).
  rewrite H. reflexivity.
Qed.

(** The UTF-8 of a string without unpaired surrogate is the string. *)
Lemma encode_surrogate_free s : surrogate_free s = true -> encode s = s.
Proof.
  induction s as [|a r IH]; [reflexivity|].
  cbn [surrogate_free]. intros H. apply andb_true_iff in H as [H1 H2].
  apply negb_true_iff in H1. rewrite (encode_cons _ _ H1), (IH H2). reflexivity.
Qed.

Lemma surrogate_free_ascii_app U Y :
  all_ascii U = true -> surrogate_free Y = true -> surrogate_free (U ++ Y) = true.
Proof.
  induction U as [|a U IH]; intros HU HY; [exact HY|].
  cbn [all_ascii] in HU. apply andb_true_iff in HU as [Ha HU].
  cbn [append surrogate_free].
  rewrite (starts_surrogate_ascii _ _ Ha). apply IH; assumption.
Qed.

Lemma starts_surrogate_app_ascii x X q Y :
  starts_surrogate (String x X) = false -> is_ascii q = true ->
  starts_surrogate (String x (X ++ String q Y)) = false.
Proof.
  intros H Hq. unfold is_ascii in Hq. apply Z.leb_le in Hq.
  destruct X as [|y [|z X']].
  - cbn [append]. destruct Y as [|w Y']; [reflexivity|].
    cbn [starts_surrogate]. unfold is_surrogate3.
    replace (0xa0 <=? Str.code q) with false by (symmetry; apply Z.leb_gt; lia).
    destruct (Str.code x =? 0xed); reflexivity.
  - cbn [append starts_surrogate]. unfold is_surrogate3.
    replace (0x80 <=? Str.code q) with false by (symmetry; apply Z.leb_gt; lia).
    apply andb_false_r.
  - exact H.
Qed.

Lemma surrogate_free_app_ascii X q Y :
  surrogate_free X = true -> is_ascii q = true ->
  surrogate_free (String q Y) = true ->
  surrogate_free (X ++ String q Y) = true.
Proof.
  induction X as [|x X IH]; intros HX Hq HY; [exact HY|].
  cbn [surrogate_free] in HX. apply andb_true_iff in HX as [H1 H2].
  apply negb_true_iff in H1.
  change (String x X ++ String q Y) with (String x (X ++ String q Y)).
  cbn [surrogate_free].
  rewrite (starts_surrogate_app_ascii _ _ _ _ H1 Hq). apply IH; assumption.
Qed.

Lemma code_point_range cp : code_point cp = true -> 0 <= cp < 0x110000.
Proof.
  unfold code_point. intros H. apply andb_true_iff in H as [H1 H2].
  apply Z.leb_le in H1. apply Z.ltb_lt in H2. lia.
Qed.

Lemma is_surrogate_range cp : is_surrogate cp = true -> 0xd800 <= cp <= 0xdfff.
Proof.
  unfold is_surrogate. intros H. apply andb_true_iff in H as [H1 H2].
  apply Z.leb_le in H1, H2. lia.
Qed.

Lemma not_surrogate_range cp : is_surrogate cp = false -> cp < 0xd800 \/ 0xdfff < cp.
Proof.
  unfold is_surrogate. intros H. apply andb_false_iff in H as [H|H];
    apply Z.leb_gt in H; lia.
Qed.

Lemma scalar_value_range cp :
  scalar_value cp = true -> 0 <= cp < 0x110000 /\ is_surrogate cp = false.
Proof.
  unfold scalar_value, is_surrogate. intros H.
  apply orb_true_iff in H as [H|H]; apply andb_true_iff in H as [H1 H2];
    apply Z.leb_le in H1; apply Z.ltb_lt in H2.
  - split; [lia|]. apply andb_false_iff. left. apply Z.leb_gt. lia.
  - split; [lia|]. apply andb_false_iff. right. apply Z.leb_gt. lia.
Qed.

Lemma scalar_value_intro cp :
  0 <= cp < 0x110000 -> is_surrogate cp = false -> scalar_value cp = true.
Proof.
  intros Hr Hs. apply not_surrogate_range in Hs. unfold scalar_value.
  apply orb_true_iff. destruct Hs as [Hs|Hs]; [left|right];
    (apply andb_true_iff; split; [apply Z.leb_le|apply Z.ltb_lt]; lia).
Qed.

Lemma cons_eq {A} (x y : A) (l l' : list A) : x :: l = y :: l' -> x = y /\ l = l'.
Proof. intros H. injection H. auto. Qed.

Lemma encode_cp_ascii cp :
  0 <= cp < 0x80 -> encode_cp cp = String (Str.chr cp) EmptyString.
Proof.
  intros H. unfold encode_cp.
  destruct (Z.ltb_spec cp 0x80); [reflexivity|lia].
Qed.

(** The encoding of a code point above U+007F: a lead byte and
    continuation bytes; the lead byte is [0xed] for U+D000 to U+DFFF, and
    then the code point is read off the two bytes that follow. *)
Lemma encode_cp_high cp :
  0x80 <= cp < 0x110000 ->
  exists a t,
    encode_cp cp = String a t
    /\ 0xc2 <= Str.code a <= 0xf4
    /\ Forall (fun z => 0x80 <= z <= 0xbf) (Str.codes t)
    /\ (Str.code a = 0xed <-> 0xd000 <= cp < 0xe000)
    /\ (Str.code a = 0xed ->
        exists b c,
          t = String b (String c EmptyString)
          /\ cp = 0xd000 + (Str.code b - 0x80) * 64 + (Str.code c - 0x80)).
Proof.
  intros Hr.
  assert (Hcodes := encode_cp_codes cp ltac:(lia)).
  pose proof (Z.mod_pos_bound cp 64 ltac:(lia)) as M0.
  pose proof (Z.mod_pos_bound (cp / 64) 64 ltac:(lia)) as M1.
  pose proof (Z.mod_pos_bound (cp / 4096) 64 ltac:(lia)) as M2.
  pose proof (Z.div_mod cp 64 ltac:(lia)) as D0.
  pose proof (Z.div_mod (cp / 64) 64 ltac:(lia)) as D1.
  pose proof (Z.div_mod (cp / 4096) 64 ltac:(lia)) as D2.
  rewrite (Z.div_div cp 64 64) in D1 by lia. change (64 * 64) with 4096 in D1.
  rewrite (Z.div_div cp 4096 64) in D2 by lia. change (4096 * 64) with 262144 in D2.
  destruct (encode_cp cp) as [|a t]; [|exists a, t; split; [reflexivity|]].
  { destruct (cp <? 0x80); [discriminate|]. destruct (cp <? 0x800); [discriminate|].
    destruct (cp <? 0x10000); discriminate. }
  cbn [Str.codes] in Hcodes.
  destruct (Z.ltb_spec cp 0x80) as [H1|H1]; [lia|].
  destruct (Z.ltb_spec cp 0x800) as [H2|H2];
    [|destruct (Z.ltb_spec cp 0x10000) as [H3|H3]];
    apply cons_eq in Hcodes as [Ha Ht]; rewrite Ht.
  - split; [lia|]. split; [repeat constructor; lia|]. split; [lia|].
    intros E. exfalso. lia.
  - split; [lia|]. split; [repeat constructor; lia|]. split; [lia|].
    intros E.
    destruct t as [|b [|c [|d t']]]; cbn [Str.codes] in Ht; try discriminate Ht.
    apply cons_eq in Ht as [Hb Ht]. apply cons_eq in Ht as [Hc _].
    exists b, c. split; [reflexivity|]. lia.
  - split; [lia|]. split; [repeat constructor; lia|]. split; [lia|].
    intros E. exfalso. lia.
Qed.

Lemma continuation_not_ascii c : 0x80 <= Str.code c -> is_ascii c = false.
Proof. intros H. unfold is_ascii. apply Z.leb_gt. lia. Qed.

Lemma encode_continuations t r :
  Forall (fun z => 0x80 <= z <= 0xbf) (Str.codes t) -> encode (t ++ r) = t ++ encode r.
Proof.
  induction t as [|c t IH]; intros H; [reflexivity|].
  cbn [Str.codes] in H. inversion H as [|? ? Hc Ht]; subst.
  change (String c t ++ r) with (String c (t ++ r)).
  rewrite encode_cons by (apply starts_surrogate_other; lia).
  rewrite (IH Ht). reflexivity.
Qed.

(** The encoding of a code point that is no surrogate starts no unpaired
    surrogate, whatever follows. *)
Lemma starts_surrogate_encode_cp cp r a t :
  0x80 <= cp < 0x110000 -> is_surrogate cp = false ->
  encode_cp cp = String a t ->
  Forall (fun z => 0x80 <= z <= 0xbf) (Str.codes t) ->
  (Str.code a = 0xed ->
   exists b c,
     t = String b (String c EmptyString)
     /\ cp = 0xd000 + (Str.code b - 0x80) * 64 + (Str.code c - 0x80)) ->
  starts_surrogate (String a (t ++ r)) = false.
Proof.
  intros Hr Hs E Hcont Hed.
  destruct (Z.eq_dec (Str.code a) 0xed) as [Ea|Ea];
    [|apply starts_surrogate_other, Ea].
  destruct (Hed Ea) as (b & c & -> & Hcp).
  cbn [append starts_surrogate].
  destruct (is_surrogate3 a b c) eqn:E3; [|reflexivity].
  apply surrogate3_range in E3. apply not_surrogate_range in Hs.
  cbn [Str.codes] in Hcont.
  pose proof (Forall_inv Hcont) as Hb.
  pose proof (Forall_inv (Forall_inv_tail Hcont)) as Hc.
  cbv beta in Hb, Hc. lia.
Qed.

(** [Buffer.from] keeps the encoding of a scalar value and turns the one
    of a surrogate into U+FFFD. *)
Lemma encode_encode_cp cp r :
  code_point cp = true ->
  encode (encode_cp cp ++ r) = encode_cp (replace_surrogate cp) ++ encode r.
Proof.
  intros Hcp. apply code_point_range in Hcp. unfold replace_surrogate.
  destruct (Z.ltb_spec cp 0x80) as [H1|H1].
  { replace (is_surrogate cp) with false
      by (symmetry; unfold is_surrogate; apply andb_false_iff; left; apply Z.leb_gt; lia).
    rewrite encode_cp_ascii by lia. cbn [append].
    apply encode_cons, starts_surrogate_ascii.
    unfold is_ascii. rewrite code_chr by lia. apply Z.leb_le. lia. }
  destruct (encode_cp_high cp ltac:(lia)) as (a & t & E & Ha & Hcont & Hiff & Hed).
  destruct (is_surrogate cp) eqn:Hs.
  - apply is_surrogate_range in Hs.
    assert (Ea : Str.code a = 0xed) by (apply Hiff; lia).
    destruct (Hed Ea) as (b & c & -> & Hcpeq).
    cbn [Str.codes] in Hcont.
    pose proof (Forall_inv Hcont) as Hb.
    pose proof (Forall_inv (Forall_inv_tail Hcont)) as Hc.
    cbv beta in Hb, Hc.
    rewrite E. cbn [append].
    rewrite encode_surrogate by (apply surrogate3_intro; lia).
    reflexivity.
  - rewrite E.
    change (String a t ++ r) with (String a (t ++ r)).
    rewrite encode_cons
      by (apply (starts_surrogate_encode_cp cp); auto; lia).
    rewrite (encode_continuations _ _ Hcont). reflexivity.
Qed.

(** [Buffer.from] of a string, by its code points. *)
Lemma encode_utf8_of cps :
  forallb code_point cps = true ->
  encode (utf8_of cps) = utf8_of (map replace_surrogate cps).
Proof.
  induction cps as [|cp l IH]; [reflexivity|].
  cbn [forallb utf8_of map]. intros H. apply andb_true_iff in H as [H1 H2].
  rewrite (encode_encode_cp _ _ H1), (IH H2). reflexivity.
Qed.

Lemma replace_surrogate_scalar cps :
  forallb scalar_value cps = true -> map replace_surrogate cps = cps.
Proof.
  induction cps as [|cp l IH]; [reflexivity|].
  cbn [forallb map]. intros H. apply andb_true_iff in H as [H1 H2].
  apply scalar_value_range in H1 as [_ H1].
  unfold replace_surrogate at 1. rewrite H1, (IH H2). reflexivity.
Qed.

Lemma scalar_code_point cps :
  forallb scalar_value cps = true -> forallb code_point cps = true.
Proof.
  induction cps as [|cp l IH]; [reflexivity|].
  cbn [forallb]. intros H. apply andb_true_iff in H as [H1 H2].
  apply scalar_value_range in H1 as [H1 _]. rewrite (IH H2), andb_true_r.
  unfold code_point. apply andb_true_iff. split; [apply Z.leb_le|apply Z.ltb_lt]; lia.
Qed.

(** The UTF-8 of a well-formed string is its representation. *)
Lemma encode_utf8_of_scalar cps :
  forallb scalar_value cps = true -> encode (utf8_of cps) = utf8_of cps.
Proof.
  intros H. rewrite (encode_utf8_of _ (scalar_code_point _ H)).
  rewrite (replace_surrogate_scalar _ H). reflexivity.
Qed.

Lemma scalar_unpaired cps : forallb scalar_value cps = true -> unpaired cps = true.
Proof.
  induction cps as [|cp l IH]; [reflexivity|].
  cbn [forallb]. intros H. apply andb_true_iff in H as [H1 H2].
  cbn [unpaired]. rewrite (IH H2), andb_true_r.
  destruct l as [|l0 l']; [reflexivity|].
  apply scalar_value_range in H1 as [_ H1]. apply not_surrogate_range in H1.
  apply negb_true_iff, andb_false_iff. left.
  unfold Json.is_high. apply andb_false_iff.
  destruct H1 as [H1|H1]; [left|right]; apply Z.leb_gt; lia.
Qed.

(** Well-formed strings are strings. *)
Lemma scalar_code_points cps :
  forallb scalar_value cps = true -> code_points cps = true.
Proof.
  intros H. unfold code_points.
  rewrite (scalar_code_point _ H), (scalar_unpaired _ H). reflexivity.
Qed.

End SurrogateFacts.

Module JsonFacts.

Import StrFacts Utf8Facts Utf8RoundTrip SurrogateFacts Json.

(** Only characters of ASCII are escaped, and into ASCII. *)
Lemma escape_char_cases c :
  (Utf8.is_ascii c = true
   /\ Utf8.all_ascii (escape_char c) = true /\ escape_char c <> EmptyString)
  \/ (Utf8.is_ascii c = false /\ escape_char c = String c EmptyString).
Proof.
  destruct c as [[] [] [] [] [] [] [] []];
    first [ left; vm_compute; repeat split; discriminate
          | right; vm_compute; repeat split ].
Qed.

Lemma escape_char_high c :
  Utf8.is_ascii c = false -> escape_char c = String c EmptyString.
Proof.
  intros H. destruct (escape_char_cases c) as [[Ha _]|[_ E]]; [congruence|exact E].
Qed.

Lemma escape_cons a r :
  starts_surrogate (String a r) = false ->
  escape (String a r) = escape_char a ++ escape r.
Proof.
  destruct r as [|b [|c r']]; try reflexivity.
  cbn [starts_surrogate]. intros H.
  change (escape (String a (String b (String c r'))))
    with (if Utf8.is_surrogate3 a b c
          then unicode_escape (Utf8.surrogate_of b c) ++ escape r'
          else escape_char a ++ escape (String b (String c r'))).
  rewrite H. reflexivity.
Qed.

Lemma escape_surrogate a b c r :
  Utf8.is_surrogate3 a b c = true ->
  escape (String a (String b (String c r)))
  = unicode_escape (Utf8.surrogate_of b c) ++ escape r.
Proof.
  intros H.
  change (escape (String a (String b (String c r))))
    with (if Utf8.is_surrogate3 a b c
          then unicode_escape (Utf8.surrogate_of b c) ++ escape r
          else escape_char a ++ escape (String b (String c r))).
  rewrite H. reflexivity.
Qed.

Lemma hex_digit_ascii x : Utf8.is_ascii (hex_digit (Z.land x 0xf)) = true.
Proof.
  assert (H : 0 <= Z.land x 0xf < 16).
  { change 0xf with (Z.ones 4). rewrite Z.land_ones by lia.
    apply Z.mod_pos_bound. lia. }
  unfold hex_digit, Utf8.is_ascii.
  destruct (Z.ltb_spec (Z.land x 0xf) 10); rewrite code_chr by lia;
    apply Z.leb_le; lia.
Qed.

Lemma unicode_escape_ascii cu : Utf8.all_ascii (unicode_escape cu) = true.
Proof.
  unfold unicode_escape. cbn [Utf8.all_ascii].
  rewrite !hex_digit_ascii. reflexivity.
Qed.

Lemma unicode_escape_nonempty cu : unicode_escape cu <> EmptyString.
Proof. discriminate. Qed.

(** The escapes of the surrogates are read as the surrogates. *)
Lemma hex4_unicode_escape cu :
  0xd800 <= cu <= 0xdfff ->
  hex4 (hex_digit (Z.land (Z.shiftr cu 12) 0xf))
       (hex_digit (Z.land (Z.shiftr cu 8) 0xf))
       (hex_digit (Z.land (Z.shiftr cu 4) 0xf))
       (hex_digit (Z.land cu 0xf))
  = Some cu.
Proof.
  intros H.
  pose (f := fun x =>
    match hex4 (hex_digit (Z.land (Z.shiftr (0xd800 + x) 12) 0xf))
               (hex_digit (Z.land (Z.shiftr (0xd800 + x) 8) 0xf))
               (hex_digit (Z.land (Z.shiftr (0xd800 + x) 4) 0xf))
               (hex_digit (Z.land (0xd800 + x) 0xf)) with
    | Some v => v =? 0xd800 + x
    | None => false
    end).
  assert (Hf : f (cu - 0xd800) = true).
  { apply (below_checked f 2048); [vm_compute; reflexivity|lia]. }
  unfold f in Hf. replace (0xd800 + (cu - 0xd800)) with cu in Hf by lia.
  destruct (hex4 _ _ _ _) as [v|]; [|discriminate].
  apply Z.eqb_eq in Hf. congruence.
Qed.

(** *** Reading the text of a string literal *)

Lemma reads_as_nil : reads_as EmptyString [].
Proof. intros tail us0 rest H. exact H. Qed.

Lemma reads_as_app Q1 us1 Q2 us2 :
  reads_as Q1 us1 -> reads_as Q2 us2 -> reads_as (Q1 ++ Q2) (us1 ++ us2)%list.
Proof.
  intros H1 H2 tail us0 rest H.
  rewrite append_assoc, <- List.app_assoc. apply H1, H2, H.
Qed.

Lemma reads_as_raw c :
  Utf8.is_ascii c = false -> reads_as (String c EmptyString) [Raw c].
Proof.
  intros Hc tail us0 rest H.
  unfold Utf8.is_ascii in Hc. apply Z.leb_gt in Hc.
  cbn [append string_body]. rewrite !eqb_code.
  change (Str.code dquote) with 34. change (Str.code backslash) with 92.
  destruct (Z.eqb_spec (Str.code c) 34); [lia|].
  destruct (Z.eqb_spec (Str.code c) 92); [lia|].
  destruct (Z.ltb_spec (Str.code c) 32); [lia|].
  rewrite H. reflexivity.
Qed.

(** Bytes above 0x7f are read as they are. *)
Lemma reads_as_high Q :
  all_high Q = true ->
  reads_as Q (map Raw (list_ascii_of_string Q))
  /\ forall us, assemble (map Raw (list_ascii_of_string Q) ++ us)%list = Q ++ assemble us.
Proof.
  induction Q as [|c Q IH]; intros H.
  - split; [apply reads_as_nil|reflexivity].
  - cbn [all_high] in H. apply andb_true_iff in H as [Hc HQ].
    apply negb_true_iff in Hc. destruct (IH HQ) as [IH1 IH2]. split.
    + apply (reads_as_app (String c EmptyString) [Raw c] Q _ (reads_as_raw c Hc) IH1).
    + intros us. cbn [list_ascii_of_string map List.app assemble append].
      rewrite IH2. reflexivity.
Qed.

(** One escaped character is read back as that character. *)
Lemma reads_as_escape_char c :
  exists u,
    reads_as (escape_char c) [u]
    /\ (forall us, assemble (u :: us) = String c (assemble us))
    /\ match u with Esc l => is_low l = false | Raw _ => True end.
Proof.
  destruct c as [[] [] [] [] [] [] [] []];
    (eexists; split;
     [ intros tail us0 rest H; cbn; rewrite H; reflexivity
     | split;
       [ intros us; try reflexivity; destruct us as [|[?|?] ?]; reflexivity
       | first [exact I | reflexivity] ] ]).
Qed.

Lemma reads_as_unicode_escape cu :
  0xd800 <= cu <= 0xdfff -> reads_as (unicode_escape cu) [Esc cu].
Proof.
  intros Hcu tail us0 rest H. unfold unicode_escape.
  cbn [append string_body].
  change (Ascii.eqb backslash dquote) with false.
  change (Ascii.eqb backslash backslash) with true.
  change (Ascii.eqb "u" "u") with true. cbv iota.
  rewrite (hex4_unicode_escape _ Hcu), H. reflexivity.
Qed.

Lemma string_lit_reads Q us rest :
  reads_as Q us -> string_lit (Q ++ String dquote rest) = Some (assemble us, rest).
Proof.
  intros H. unfold string_lit.
  rewrite (H (String dquote rest) [] rest).
  - rewrite List.app_nil_r. reflexivity.
  - cbn [string_body]. change (Ascii.eqb dquote dquote) with true. reflexivity.
Qed.

(** An escaped high surrogate is a code point of its own unless an
    escaped low surrogate follows. *)
Lemma assemble_esc h us :
  (forall l us', us = Esc l :: us' -> is_high h && is_low l = false) ->
  assemble (Esc h :: us) = Utf8.encode_cp h ++ assemble us.
Proof.
  intros H. destruct us as [|[c|l] us']; try reflexivity.
  change (assemble (Esc h :: Esc l :: us'))
    with (if is_high h && is_low l
          then Utf8.encode_cp (0x10000 + (h - 0xd800) * 0x400 + (l - 0xdc00))
               ++ assemble us'
          else Utf8.encode_cp h ++ assemble (Esc l :: us')).
  rewrite (H l us' eq_refl). reflexivity.
Qed.

(** *** The JSON text of any byte sequence, decoded and read *)

(** The decoder leaves the text of a quoted string a text that is read
    as a string literal, and goes on after it from its idle state. *)
Lemma decode_escape_reads s : forall st,
  decoder_ok st ->
  exists Q us,
    reads_as Q us
    /\ forall A r,
         Utf8.all_ascii A = true -> A <> EmptyString ->
         Utf8.decode_from st (escape s ++ A ++ r) = Q ++ A ++ Utf8.decode_from Utf8.Idle r.
Proof.
  induction s as [|a s Hstart IH|a b c s H3 IH] using scan_ind; intros st Hok.
  - exists (Utf8.flush st), (map Raw (list_ascii_of_string (Utf8.flush st))).
    split; [apply reads_as_high, flush_high|].
    intros A r HA Hne. cbn [escape append]. apply decode_from_ascii; assumption.
  - rewrite (escape_cons _ _ Hstart).
    destruct (escape_char_cases a) as [(Ha & Hasc & Hnil)|[Ha ->]].
    + destruct (IH Utf8.Idle I) as (Q & us & HQ & Hdec).
      destruct (reads_as_escape_char a) as (u & Hu & _).
      exists (Utf8.flush st ++ escape_char a ++ Q),
             (map Raw (list_ascii_of_string (Utf8.flush st)) ++ [u] ++ us)%list.
      split.
      * apply reads_as_app; [apply reads_as_high, flush_high|].
        apply reads_as_app; assumption.
      * intros A r HA Hne. rewrite append_assoc.
        rewrite decode_from_ascii by assumption.
        rewrite (Hdec A r HA Hne). rewrite !append_assoc. reflexivity.
    + destruct (step_high st a Hok Ha) as [Hout Hst'].
      destruct (Utf8.step st a) as [out st'] eqn:Estep. cbn [fst snd] in Hout, Hst'.
      destruct (IH st' Hst') as (Q & us & HQ & Hdec).
      exists (out ++ Q), (map Raw (list_ascii_of_string out) ++ us)%list.
      split; [apply reads_as_app; [apply reads_as_high, Hout|exact HQ]|].
      intros A r HA Hne.
      change ((String a EmptyString ++ escape s) ++ A ++ r)
        with (String a (escape s ++ A ++ r)).
      cbn [Utf8.decode_from]. rewrite Estep.
      rewrite (Hdec A r HA Hne). rewrite append_assoc. reflexivity.
  - rewrite (escape_surrogate _ _ _ _ H3).
    destruct (IH Utf8.Idle I) as (Q & us & HQ & Hdec).
    exists (Utf8.flush st ++ unicode_escape (Utf8.surrogate_of b c) ++ Q),
           (map Raw (list_ascii_of_string (Utf8.flush st))
            ++ [Esc (Utf8.surrogate_of b c)] ++ us)%list.
    split.
    + apply reads_as_app; [apply reads_as_high, flush_high|].
      apply reads_as_app; [|exact HQ].
      apply reads_as_unicode_escape, (surrogate_of_range a), H3.
    + intros A r HA Hne. rewrite append_assoc.
      rewrite decode_from_ascii
        by (assumption || apply unicode_escape_ascii || apply unicode_escape_nonempty).
      rewrite (Hdec A r HA Hne). rewrite !append_assoc. reflexivity.
Qed.

(** What is read back from the text of a quoted string is [reread]. *)
Lemma reread_spec s :
  exists Q,
    (forall A r,
       Utf8.all_ascii A = true -> A <> EmptyString ->
       Utf8.decode_from Utf8.Idle (escape s ++ A ++ r)
       = Q ++ A ++ Utf8.decode_from Utf8.Idle r)
    /\ forall rest, string_lit (Q ++ String dquote rest) = Some (reread s, rest).
Proof.
  destruct (decode_escape_reads s Utf8.Idle I) as (Q & us & HQ & Hdec).
  exists Q. split; [exact Hdec|].
  assert (Hre : reread s = assemble us).
  { unfold reread, Utf8.decode.
    change (escape s ++ String dquote EmptyString)
      with (escape s ++ String dquote EmptyString ++ EmptyString).
    rewrite Hdec by (reflexivity || discriminate).
    change (String dquote EmptyString ++ Utf8.decode_from Utf8.Idle EmptyString)
      with (String dquote EmptyString).
    rewrite (string_lit_reads _ _ _ HQ). reflexivity. }
  intros rest. rewrite Hre. apply string_lit_reads, HQ.
Qed.

Lemma stringify_meta_shape e ct :
  stringify_meta e ct
  = meta_open ++ escape e ++ meta_mid ++ escape ct ++ meta_close.
Proof.
  unfold stringify_meta, meta_open, meta_mid, meta_close, quote.
  cbn. rewrite !append_assoc. reflexivity.
Qed.

Lemma value_meta n Q1 x1 Q2 x2 :
  (forall rest, string_lit (Q1 ++ String dquote rest) = Some (x1, rest)) ->
  (forall rest, string_lit (Q2 ++ String dquote rest) = Some (x2, rest)) ->
  value (S (S (S (S n)))) (meta_open ++ Q1 ++ meta_mid ++ Q2 ++ meta_close)
  = Some (meta_record x1 x2, EmptyString).
Proof.
  intros H1 H2.
  unfold meta_open, meta_mid, meta_close, quote. cbn.
  rewrite H1. cbn.
  rewrite H2. reflexivity.
Qed.

(** What is read back from the metadata file that [writeMeta] wrote. *)
Lemma parse_decode_stringify_meta e ct :
  parse (Utf8.decode (stringify_meta e ct))
  = Some (meta_record (reread e) (reread ct)).
Proof.
  destruct (reread_spec e) as (Q1 & D1 & L1).
  destruct (reread_spec ct) as (Q2 & D2 & L2).
  assert (Hdec : Utf8.decode (stringify_meta e ct)
                 = meta_open ++ Q1 ++ meta_mid ++ Q2 ++ meta_close).
  { rewrite stringify_meta_shape. unfold Utf8.decode.
    rewrite decode_idle_ascii by reflexivity.
    rewrite D1 by (reflexivity || discriminate).
    rewrite <- (append_nil_r meta_close) at 1.
    rewrite D2 by (reflexivity || discriminate).
    change (Utf8.decode_from Utf8.Idle EmptyString) with EmptyString.
    rewrite append_nil_r. reflexivity. }
  rewrite Hdec. unfold parse.
  set (text := meta_open ++ Q1 ++ meta_mid ++ Q2 ++ meta_close).
  assert (H : exists n, (2 * String.length text + 1)%nat = S (S (S (S n)))).
  { assert (Hlen : (2 <= String.length text)%nat).
    { unfold text. rewrite length_append.
      change (String.length meta_open) with 9%nat. lia. }
    exists (2 * (String.length text - 2) + 1)%nat. lia. }
  destruct H as [n ->]. unfold text.
  rewrite (value_meta n Q1 (reread e) Q2 (reread ct) L1 L2). reflexivity.
Qed.

(** *** The JSON text is free of unpaired surrogates *)

Lemma escape_head c t r :
  escape r = String c t -> Utf8.is_ascii c = false ->
  exists r', r = String c r' /\ escape r' = t.
Proof.
  destruct r as [|x r1]; [discriminate|].
  destruct (starts_surrogate (String x r1)) eqn:E.
  - destruct r1 as [|y [|z r3]]; try discriminate E.
    cbn [starts_surrogate] in E. rewrite (escape_surrogate _ _ _ _ E).
    unfold unicode_escape. cbn [append]. intros H Hc.
    injection H as Hb _. subst c. discriminate Hc.
  - rewrite (escape_cons _ _ E).
    destruct (escape_char_cases x) as [(Hx & Hasc & Hne)|[Hx Hex]].
    + destruct (escape_char x) as [|q Q']; [congruence|].
      cbn [append Utf8.all_ascii] in *. intros H Hc. injection H as Hq _. subst q.
      apply andb_true_iff in Hasc as [Hasc _]. congruence.
    + rewrite Hex. cbn [append]. intros H _. injection H as Hc Ht. subst x.
      exists r1. auto.
Qed.

Lemma escape_keeps_start a r :
  starts_surrogate (String a r) = false ->
  starts_surrogate (String a (escape r)) = false.
Proof.
  intros H. destruct (starts_surrogate (String a (escape r))) eqn:E; [|reflexivity].
  exfalso. destruct (escape r) as [|b [|c t]] eqn:Er; try discriminate E.
  cbn [starts_surrogate] in E.
  pose proof (surrogate3_range _ _ _ E) as (Ha & Hb & Hc).
  destruct (escape_head b _ r Er) as (r1 & -> & Er1);
    [apply continuation_not_ascii; lia|].
  destruct (escape_head c _ r1 Er1) as (r2 & -> & _);
    [apply continuation_not_ascii; lia|].
  cbn [starts_surrogate] in H. congruence.
Qed.

(** [JSON.stringify] leaves no unpaired surrogate in its text. *)
Lemma surrogate_free_escape s : surrogate_free (escape s) = true.
Proof.
  induction s as [|a s Hstart IH|a b c s H3 IH] using scan_ind.
  - reflexivity.
  - rewrite (escape_cons _ _ Hstart).
    destruct (escape_char_cases a) as [(Ha & Hasc & Hnil)|[Ha ->]].
    + apply surrogate_free_ascii_app; assumption.
    + cbn [append surrogate_free].
      rewrite (escape_keeps_start _ _ Hstart), IH. reflexivity.
  - rewrite (escape_surrogate _ _ _ _ H3).
    apply surrogate_free_ascii_app; [apply unicode_escape_ascii|exact IH].
Qed.

Lemma surrogate_free_quote s : surrogate_free (quote s) = true.
Proof.
  unfold quote.
  apply (surrogate_free_ascii_app (String dquote EmptyString)); [reflexivity|].
  apply surrogate_free_app_ascii; [apply surrogate_free_escape|reflexivity|reflexivity].
Qed.

(** So the text of the record is written to the file as it is. *)
Lemma encode_stringify_meta e ct :
  Utf8.encode (stringify_meta e ct) = stringify_meta e ct.
Proof.
  apply encode_surrogate_free. rewrite stringify_meta_shape.
  apply surrogate_free_ascii_app; [reflexivity|].
  apply surrogate_free_app_ascii; [apply surrogate_free_escape|reflexivity|].
  apply (surrogate_free_ascii_app meta_mid); [reflexivity|].
  apply surrogate_free_app_ascii; [apply surrogate_free_escape|reflexivity|reflexivity].
Qed.

Lemma encode_quote s : Utf8.encode (quote s) = quote s.
Proof. apply encode_surrogate_free, surrogate_free_quote. Qed.

(** *** The JSON text of a string, by its code points *)

Lemma escape_continuations t r :
  Forall (fun z => 0x80 <= z <= 0xbf) (Str.codes t) -> escape (t ++ r) = t ++ escape r.
Proof.
  induction t as [|c t IH]; intros H; [reflexivity|].
  cbn [Str.codes] in H. inversion H as [|? ? Hc Ht]; subst.
  change (String c t ++ r) with (String c (t ++ r)).
  rewrite escape_cons by (apply starts_surrogate_other; lia).
  rewrite (IH Ht), escape_char_high by (apply continuation_not_ascii; lia).
  reflexivity.
Qed.

Lemma continuations_high t :
  Forall (fun z => 0x80 <= z <= 0xbf) (Str.codes t) -> all_high t = true.
Proof.
  induction t as [|c t IH]; intros H; [reflexivity|].
  cbn [Str.codes] in H. inversion H as [|? ? Hc Ht]; subst.
  cbn [all_high]. rewrite (IH Ht), continuation_not_ascii by lia. reflexivity.
Qed.

(** A code point of ASCII: its character, escaped. *)
Lemma escape_encode_cp_ascii cp r :
  0 <= cp < 0x80 ->
  escape (Utf8.encode_cp cp ++ r) = escape_char (Str.chr cp) ++ escape r.
Proof.
  intros H. rewrite encode_cp_ascii by lia. cbn [append].
  apply escape_cons, starts_surrogate_ascii.
  unfold Utf8.is_ascii. rewrite code_chr by lia. apply Z.leb_le. lia.
Qed.

(** A scalar value above U+007F: its UTF-8. *)
Lemma escape_encode_cp_scalar cp r :
  0x80 <= cp < 0x110000 -> is_surrogate cp = false ->
  escape (Utf8.encode_cp cp ++ r) = Utf8.encode_cp cp ++ escape r
  /\ all_high (Utf8.encode_cp cp) = true.
Proof.
  intros Hr Hs.
  destruct (encode_cp_high cp Hr) as (a & t & E & Ha & Hcont & Hiff & Hed).
  rewrite E. split.
  - change (String a t ++ r) with (String a (t ++ r)).
    rewrite escape_cons by (apply (starts_surrogate_encode_cp cp); auto).
    rewrite (escape_continuations _ _ Hcont).
    rewrite escape_char_high by (apply continuation_not_ascii; lia). reflexivity.
  - cbn [all_high]. rewrite (continuations_high _ Hcont).
    rewrite continuation_not_ascii by lia. reflexivity.
Qed.

(** An unpaired surrogate: its escape. *)
Lemma escape_encode_cp_surrogate cp r :
  is_surrogate cp = true ->
  escape (Utf8.encode_cp cp ++ r) = unicode_escape cp ++ escape r.
Proof.
  intros Hs. apply is_surrogate_range in Hs.
  destruct (encode_cp_high cp ltac:(lia)) as (a & t & E & Ha & Hcont & Hiff & Hed).
  assert (Ea : Str.code a = 0xed) by (apply Hiff; lia).
  destruct (Hed Ea) as (b & c & -> & Hcpeq).
  cbn [Str.codes] in Hcont.
  pose proof (Forall_inv Hcont) as Hb.
  pose proof (Forall_inv (Forall_inv_tail Hcont)) as Hc.
  cbv beta in Hb, Hc.
  rewrite E. cbn [append].
  rewrite escape_surrogate by (apply surrogate3_intro; lia).
  unfold Utf8.surrogate_of. rewrite <- Hcpeq. reflexivity.
Qed.

(** The text of a quoted string is UTF-8, and is read back as the
    string. *)
Lemma escape_utf8_of cps :
  code_points cps = true ->
  (forall r,
     Utf8.decode_from Utf8.Idle (escape (utf8_of cps) ++ r)
     = escape (utf8_of cps) ++ Utf8.decode_from Utf8.Idle r)
  /\ exists us,
       reads_as (escape (utf8_of cps)) us
       /\ assemble us = utf8_of cps
       /\ forall l us', us = Esc l :: us' -> is_low l = true -> exists t, cps = l :: t.
Proof.
  unfold code_points.
  induction cps as [|cp t IH]; intros H.
  - split; [reflexivity|]. exists []. split; [apply reads_as_nil|].
    split; [reflexivity|discriminate].
  - apply andb_true_iff in H as [Hall Hun].
    cbn [forallb] in Hall. apply andb_true_iff in Hall as [Hcp Hall].
    cbn [unpaired] in Hun. apply andb_true_iff in Hun as [Hpair Hun].
    destruct IH as (IHd & us & IHr & IHa & IHl);
      [rewrite Hall, Hun; reflexivity|].
    pose proof (code_point_range _ Hcp) as Hr.
    cbn [utf8_of].
    destruct (is_surrogate cp) eqn:Hs;
      [|destruct (Z.ltb_spec cp 0x80) as [Hlow|Hlow]].
    + (* an unpaired surrogate *)
      rewrite (escape_encode_cp_surrogate _ _ Hs). split.
      * intros r. rewrite append_assoc.
        rewrite decode_idle_ascii by apply unicode_escape_ascii.
        rewrite IHd, append_assoc. reflexivity.
      * exists (Esc cp :: us). split; [|split].
        -- apply (reads_as_app _ [Esc cp] _ us); [|exact IHr].
           apply reads_as_unicode_escape, is_surrogate_range, Hs.
        -- rewrite assemble_esc; [rewrite IHa; reflexivity|].
           intros l us' -> . destruct (is_low l) eqn:El; [|apply andb_false_r].
           destruct (IHl l us' eq_refl El) as [t' ->].
           apply negb_true_iff in Hpair. rewrite El in Hpair. exact Hpair.
        -- intros l us' E _. injection E as -> _. eauto.
    + (* a character of ASCII *)
      rewrite (escape_encode_cp_ascii cp _ ltac:(lia)).
      assert (Hasc : Utf8.is_ascii (Str.chr cp) = true).
      { unfold Utf8.is_ascii. rewrite code_chr by lia. apply Z.leb_le. lia. }
      destruct (escape_char_cases (Str.chr cp)) as [(_ & Hesc & _)|[Hno _]];
        [|congruence].
      destruct (reads_as_escape_char (Str.chr cp)) as (u & Hu & Hau & Hlowu).
      split.
      * intros r. rewrite append_assoc.
        rewrite decode_idle_ascii by exact Hesc.
        rewrite IHd, append_assoc. reflexivity.
      * exists (u :: us). split; [|split].
        -- apply (reads_as_app _ [u] _ us); assumption.
        -- rewrite Hau, IHa, encode_cp_ascii by lia. reflexivity.
        -- intros l us' E El. injection E as -> _. congruence.
    + (* a scalar value above U+007F *)
      destruct (escape_encode_cp_scalar cp EmptyString ltac:(lia) Hs) as [_ Hhigh].
      destruct (reads_as_high _ Hhigh) as [Hread Hasm].
      split.
      * intros r.
        rewrite (proj1 (escape_encode_cp_scalar cp _ ltac:(lia) Hs)).
        rewrite append_assoc.
        rewrite decode_encode_cp by (apply scalar_value_intro; assumption).
        rewrite IHd, append_assoc. reflexivity.
      * rewrite (proj1 (escape_encode_cp_scalar cp _ ltac:(lia) Hs)).
        exists (map Raw (list_ascii_of_string (Utf8.encode_cp cp)) ++ us)%list.
        split; [|split].
        -- apply reads_as_app; assumption.
        -- rewrite Hasm, IHa. reflexivity.
        -- intros l us' E _. exfalso.
           destruct (encode_cp_high cp ltac:(lia)) as (a & t' & Ecp & _).
           rewrite Ecp in E. discriminate E.
Qed.

(** A string is read back from its JSON text. *)
Lemma reread_utf8_of cps : code_points cps = true -> reread (utf8_of cps) = utf8_of cps.
Proof.
  intros H. destruct (escape_utf8_of cps H) as (Hd & us & Hr & Ha & _).
  unfold reread, Utf8.decode. rewrite Hd.
  change (Utf8.decode_from Utf8.Idle (String dquote EmptyString))
    with (String dquote EmptyString).
  rewrite (string_lit_reads _ _ _ Hr), Ha. reflexivity.
Qed.

(** So is a string of ASCII, the etag of a record for one. *)
Lemma reread_ascii s : Utf8.all_ascii s = true -> reread s = s.
Proof.
  intros H.
  assert (Hs : Utf8.all_ascii (escape s) = true
               /\ exists us, reads_as (escape s) us /\ assemble us = s).
  { induction s as [|a s IH]; [split; [reflexivity|]; exists []; split;
                                [apply reads_as_nil|reflexivity]|].
    cbn [Utf8.all_ascii] in H. apply andb_true_iff in H as [Ha Hs].
    destruct (IH Hs) as (IH1 & us & IH2 & IH3).
    rewrite (escape_cons _ _ (starts_surrogate_ascii _ _ Ha)).
    destruct (escape_char_cases a) as [(_ & Hesc & _)|[Hno _]]; [|congruence].
    destruct (reads_as_escape_char a) as (u & Hu & Hau & _).
    split; [rewrite all_ascii_app, Hesc, IH1; reflexivity|].
    exists (u :: us). split; [apply (reads_as_app _ [u] _ us); assumption|].
    rewrite Hau, IH3. reflexivity. }
  destruct Hs as (Hasc & us & Hr & Ha).
  unfold reread. rewrite decode_ascii
    by (rewrite all_ascii_app, Hasc; reflexivity).
  rewrite (string_lit_reads _ _ _ Hr), Ha. reflexivity.
Qed.

(** The decoder leaves the JSON text of a string as it is. *)
Lemma decode_quote_utf8_of cps :
  code_points cps = true ->
  Utf8.decode (quote (utf8_of cps)) = quote (utf8_of cps).
Proof.
  intros H. destruct (escape_utf8_of cps H) as (Hd & _).
  unfold quote, Utf8.decode.
  rewrite (decode_from_ascii_char Utf8.Idle dquote) by (exact I || reflexivity).
  cbn [Utf8.flush append]. rewrite Hd. reflexivity.
Qed.

(** [JSON.parse] of the JSON text of a string is the string. *)
Lemma parse_quote_utf8_of cps :
  code_points cps = true -> parse (quote (utf8_of cps)) = Some (JString (utf8_of cps)).
Proof.
  intros H. destruct (escape_utf8_of cps H) as (_ & us & Hr & Ha & _).
  unfold parse. rewrite Nat.add_1_r. unfold quote.
  cbn [value skip_ws]. change (is_ws dquote) with false. cbv iota.
  change (Ascii.eqb dquote "{") with false.
  change (Ascii.eqb dquote "[") with false.
  change (Ascii.eqb dquote dquote) with true. cbv iota.
  rewrite (string_lit_reads _ _ _ Hr), Ha. reflexivity.
Qed.

End JsonFacts.

(** * The fuel of the JSON parser is enough *)

Module JsonFuel.

Import StrFacts Json.

Lemma skip_ws_len s : (String.length (skip_ws s) <= String.length s)%nat.
Proof.
  induction s as [|c r IH]; simpl; [lia|].
  destruct (is_ws c); simpl; lia.
Qed.

Lemma skip_ws_cons s c r :
  skip_ws s = String c r -> (S (String.length r) <= String.length s)%nat.
Proof.
  intros H. pose proof (skip_ws_len s) as L. rewrite H in L. exact L.
Qed.

Lemma cons_unit_len u r us rest :
  cons_unit u r = Some (us, rest) -> exists us', r = Some (us', rest).
Proof.
  destruct r as [[us' rest']|]; simpl; [|discriminate].
  intros H. injection H as _ <-. eauto.
Qed.

Lemma string_body_len s : forall us rest,
  string_body s = Some (us, rest) -> (String.length rest < String.length s)%nat.
Proof.
  induction s as [s IH] using (well_founded_induction
    (Wf_nat.well_founded_ltof _ String.length)).
  unfold Wf_nat.ltof in IH.
  intros us rest. destruct s as [|c r]; simpl; [discriminate|].
  destruct (Ascii.eqb c dquote).
  { intros H. injection H as _ <-. lia. }
  destruct (Ascii.eqb c backslash).
  - destruct r as [|e r']; [discriminate|].
    destruct (Ascii.eqb e "u").
    + destruct r' as [|h1 [|h2 [|h3 [|h4 r'']]]]; try discriminate.
      destruct (hex4 h1 h2 h3 h4); [|discriminate].
      intros H. apply cons_unit_len in H as [us' H].
      apply IH in H; simpl in *; lia.
    + destruct (simple_escape e); [|discriminate].
      intros H. apply cons_unit_len in H as [us' H].
      apply IH in H; simpl in *; lia.
  - destruct (Str.code c <? 32); [discriminate|].
    intros H. apply cons_unit_len in H as [us' H].
    apply IH in H; simpl in *; lia.
Qed.

Lemma string_lit_len s x rest :
  string_lit s = Some (x, rest) -> (String.length rest < String.length s)%nat.
Proof.
  unfold string_lit. destruct (string_body s) as [[us r]|] eqn:E; [|discriminate].
  intros H. injection H as _ <-. apply (string_body_len _ _ _ E).
Qed.

Lemma digits_len s : forall acc n,
  (String.length (snd (digits acc n s)) <= String.length s)%nat.
Proof.
  induction s as [|c r IH]; intros acc n; simpl; [lia|].
  destruct (is_digit c); simpl; [|lia].
  specialize (IH (acc * 10 + (Str.code c - 48)) (n + 1)). lia.
Qed.

Lemma unsigned_number_len s m e rest :
  unsigned_number s = Some (m, e, rest) -> (String.length rest <= String.length s)%nat.
Proof.
  unfold unsigned_number, int_part, frac_part, exp_part.
  destruct s as [|c r]; [discriminate|].
  assert (H1 : forall m1 r1,
    (if Ascii.eqb c "0" then Some (0, r)
     else if is_digit c
          then let '(m0, _, rest0) := digits 0 0 (String c r) in Some (m0, rest0)
          else None) = Some (m1, r1) ->
    (String.length r1 <= String.length (String c r))%nat).
  { intros m1 r1. destruct (Ascii.eqb c "0").
    - intros H. injection H as _ <-. simpl. lia.
    - destruct (is_digit c); [|discriminate].
      pose proof (digits_len (String c r) 0 0) as L.
      destruct (digits 0 0 (String c r)) as [[m0 k] rest0].
      intros H. injection H as _ <-. exact L. }
  destruct (if Ascii.eqb c "0" then _ else _) as [[m1 r1]|]; [|discriminate].
  specialize (H1 _ _ eq_refl).
  assert (H2 : forall m2 k2 r2,
    match r1 with
    | EmptyString => Some (m1, 0, r1)
    | String c0 r0 =>
        if Ascii.eqb c0 "."
        then let '(m', n, rest0) := digits m1 0 r0 in
             if n =? 0 then None else Some (m', n, rest0)
        else Some (m1, 0, r1)
    end = Some (m2, k2, r2) -> (String.length r2 <= String.length r1)%nat).
  { intros m2 k2 r2. destruct r1 as [|c0 r0].
    - intros H. injection H as _ _ <-. lia.
    - destruct (Ascii.eqb c0 ".").
      + pose proof (digits_len r0 m1 0) as L.
        destruct (digits m1 0 r0) as [[m' n] rest0].
        destruct (n =? 0); [discriminate|].
        intros H. injection H as _ _ <-. simpl in *. lia.
      + intros H. injection H as _ _ <-. lia. }
  destruct (match r1 with EmptyString => _ | String _ _ => _ end)
    as [[[m2 k2] r2]|]; [|discriminate].
  specialize (H2 _ _ _ eq_refl).
  assert (H3 : forall x r3,
    match r2 with
    | EmptyString => Some (0, r2)
    | String c0 r0 =>
        if Ascii.eqb c0 "e" || Ascii.eqb c0 "E"
        then
          let '(sign, r4) :=
            match r0 with
            | EmptyString => (1, r0)
            | String d r' =>
                if Ascii.eqb d "-" then (-1, r')
                else if Ascii.eqb d "+" then (1, r') else (1, r0)
            end in
          let '(x0, n, rest0) := digits 0 0 r4 in
          if n =? 0 then None else Some (sign * x0, rest0)
        else Some (0, r2)
    end = Some (x, r3) -> (String.length r3 <= String.length r2)%nat).
  { intros x r3. destruct r2 as [|c0 r0].
    - intros H. injection H as _ <-. lia.
    - destruct (Ascii.eqb c0 "e" || Ascii.eqb c0 "E").
      + assert (L4 : forall sign r4,
          match r0 with
          | EmptyString => (1, r0)
          | String d r' =>
              if Ascii.eqb d "-" then (-1, r')
              else if Ascii.eqb d "+" then (1, r') else (1, r0)
          end = (sign, r4) -> (String.length r4 <= String.length r0)%nat).
        { intros sign r4. destruct r0 as [|d r'].
          - intros H. injection H as _ <-. lia.
          - destruct (Ascii.eqb d "-"); [intros H; injection H as _ <-; simpl; lia|].
            destruct (Ascii.eqb d "+"); intros H; injection H as _ <-; simpl; lia. }
        destruct (match r0 with EmptyString => _ | String _ _ => _ end) as [sign r4].
        specialize (L4 _ _ eq_refl).
        pose proof (digits_len r4 0 0) as L.
        destruct (digits 0 0 r4) as [[x0 n] rest0].
        destruct (n =? 0); [discriminate|].
        intros H. injection H as _ <-. simpl in *. lia.
      + intros H. injection H as _ <-. lia. }
  destruct (match r2 with EmptyString => _ | String _ _ => _ end)
    as [[x r3]|]; [|discriminate].
  specialize (H3 _ _ eq_refl).
  intros H. injection H as _ _ <-. lia.
Qed.

Lemma number_len s v rest :
  number s = Some (v, rest) -> (String.length rest <= String.length s)%nat.
Proof.
  unfold number. destruct s as [|c r]; [discriminate|].
  destruct (Ascii.eqb c "-").
  - destruct (unsigned_number r) as [[[m e] rest0]|] eqn:E; [|discriminate].
    intros H. injection H as _ <-. apply unsigned_number_len in E. simpl. lia.
  - destruct (unsigned_number (String c r)) as [[[m e] rest0]|] eqn:E; [|discriminate].
    intros H. injection H as _ <-. apply unsigned_number_len in E. exact E.
Qed.

Lemma strip_len lit : forall s rest,
  strip lit s = Some rest -> (String.length rest <= String.length s)%nat.
Proof.
  induction lit as [|c l IH]; intros s rest; simpl.
  - intros H. injection H as <-. lia.
  - destruct s as [|d r]; [discriminate|].
    destruct (Ascii.eqb c d); [|discriminate].
    intros H. apply IH in H. simpl. lia.
Qed.

(** What is left after a value is no longer than what was there. *)
Lemma value_len n :
  (forall s v rest, value n s = Some (v, rest) ->
     (String.length rest <= String.length s)%nat)
  /\ (forall s vs rest, elements n s = Some (vs, rest) ->
     (String.length rest <= String.length s)%nat)
  /\ (forall s ms rest, members n s = Some (ms, rest) ->
     (String.length rest <= String.length s)%nat).
Proof.
  induction n as [|n (IHv & IHe & IHm)]; [repeat split; discriminate|].
  split; [|split].
  - intros s v rest. cbn [value].
    pose proof (skip_ws_len s) as L0.
    destruct (skip_ws s) as [|c r] eqn:E0; [discriminate|]. simpl in L0.
    destruct (Ascii.eqb c "{").
    { pose proof (skip_ws_len r) as L1.
      destruct (skip_ws r) as [|d r'] eqn:E1; [discriminate|]. simpl in L1.
      destruct (Ascii.eqb d "}"); [intros H; injects; lia|].
      destruct (members n (String d r')) as [[ms rest0]|] eqn:Em; [|discriminate].
      apply IHm in Em. simpl in Em. intros H. injects. lia. }
    destruct (Ascii.eqb c "[").
    { pose proof (skip_ws_len r) as L1.
      destruct (skip_ws r) as [|d r'] eqn:E1; [discriminate|]. simpl in L1.
      destruct (Ascii.eqb d "]"); [intros H; injects; lia|].
      destruct (elements n r) as [[vs rest0]|] eqn:Ee; [|discriminate].
      apply IHe in Ee. intros H. injects. lia. }
    destruct (Ascii.eqb c dquote).
    { destruct (string_lit r) as [[str rest0]|] eqn:El; [|discriminate].
      apply string_lit_len in El. intros H. injects. lia. }
    destruct (Ascii.eqb c "t").
    { destruct (strip "true" (String c r)) eqn:Es; [|discriminate].
      apply strip_len in Es. simpl in Es. intros H. injects. lia. }
    destruct (Ascii.eqb c "f").
    { destruct (strip "false" (String c r)) eqn:Es; [|discriminate].
      apply strip_len in Es. simpl in Es. intros H. injects. lia. }
    destruct (Ascii.eqb c "n").
    { destruct (strip "null" (String c r)) eqn:Es; [|discriminate].
      apply strip_len in Es. simpl in Es. intros H. injects. lia. }
    intros H. apply number_len in H. simpl in H. lia.
  - intros s vs rest. cbn [elements].
    destruct (value n s) as [[v rest0]|] eqn:Ev; [|discriminate].
    apply IHv in Ev.
    destruct (skip_ws rest0) as [|c r] eqn:E0; [discriminate|].
    apply skip_ws_cons in E0.
    destruct (Ascii.eqb c ",").
    { destruct (elements n r) as [[vs0 rest1]|] eqn:Ee; [|discriminate].
      apply IHe in Ee. intros H. injects. lia. }
    destruct (Ascii.eqb c "]"); [|discriminate].
    intros H. injects. lia.
  - intros s ms rest. cbn [members].
    destruct s as [|q r0]; [discriminate|].
    destruct (Ascii.eqb q dquote); [|discriminate].
    destruct (string_lit r0) as [[name r1]|] eqn:El; [|discriminate].
    apply string_lit_len in El.
    destruct (skip_ws r1) as [|c r2] eqn:E1; [discriminate|].
    apply skip_ws_cons in E1.
    destruct (Ascii.eqb c ":"); [|discriminate].
    destruct (value n r2) as [[v r3]|] eqn:Ev; [|discriminate].
    apply IHv in Ev.
    destruct (skip_ws r3) as [|d r4] eqn:E3; [discriminate|].
    apply skip_ws_cons in E3.
    destruct (Ascii.eqb d ",").
    { pose proof (skip_ws_len r4) as L4.
      destruct (members n (skip_ws r4)) as [[ms0 rest1]|] eqn:Em; [|discriminate].
      apply IHm in Em. intros H. injects. simpl. lia. }
    destruct (Ascii.eqb d "}"); [|discriminate].
    intros H. injects. simpl. lia.
Qed.

(** More fuel than twice the length of the text changes nothing. *)
Lemma fuel_stable n :
  (forall s m, (2 * String.length s + 1 <= n)%nat -> (n <= m)%nat ->
     value n s = value m s)
  /\ (forall s m, (2 * String.length s + 2 <= n)%nat -> (n <= m)%nat ->
     elements n s = elements m s)
  /\ (forall s m, (2 * String.length s + 1 <= n)%nat -> (n <= m)%nat ->
     members n s = members m s).
Proof.
  induction n as [|n (IHv & IHe & IHm)]; [repeat split; intros; lia|].
  split; [|split]; intros s m Hn Hm; (destruct m as [|m]; [lia|]).
  - cbn [value].
    pose proof (skip_ws_len s) as L0.
    destruct (skip_ws s) as [|c r] eqn:E0; [reflexivity|]. simpl in L0.
    pose proof (skip_ws_len r) as L1.
    rewrite (IHm (skip_ws r) m) by lia.
    rewrite (IHe r m) by lia. reflexivity.
  - cbn [elements]. rewrite (IHv s m) by lia.
    destruct (value m s) as [[v rest0]|] eqn:Ev; [|reflexivity].
    apply (proj1 (value_len m)) in Ev.
    destruct (skip_ws rest0) as [|c r] eqn:E0; [reflexivity|].
    apply skip_ws_cons in E0.
    rewrite (IHe r m) by lia. reflexivity.
  - cbn [members].
    destruct s as [|q r0]; [reflexivity|]. simpl in Hn.
    destruct (Ascii.eqb q dquote); [|reflexivity].
    destruct (string_lit r0) as [[name r1]|] eqn:El; [|reflexivity].
    apply string_lit_len in El.
    destruct (skip_ws r1) as [|c r2] eqn:E1; [reflexivity|].
    apply skip_ws_cons in E1.
    destruct (Ascii.eqb c ":"); [|reflexivity].
    rewrite (IHv r2 m) by lia.
    destruct (value m r2) as [[v r3]|] eqn:Ev; [|reflexivity].
    apply (proj1 (value_len m)) in Ev.
    destruct (skip_ws r3) as [|d r4] eqn:E3; [reflexivity|].
    apply skip_ws_cons in E3.
    pose proof (skip_ws_len r4) as L4.
    rewrite (IHm (skip_ws r4) m) by lia. reflexivity.
Qed.

(** [JSON.parse] never fails for want of fuel. *)
Lemma value_fuel text m :
  (2 * String.length text + 1 <= m)%nat ->
  value m text = value (2 * String.length text + 1) text.
Proof.
  intros H. symmetry. apply (proj1 (fuel_stable _)); lia.
Qed.

End JsonFuel.

(** * Facts about the etag *)

Module Md5Facts.

Import StrFacts Md5.

Lemma le_bytes_range n : forall x, Forall byte_range (le_bytes n x).
Proof.
  induction n as [|n IH]; intros x; simpl; constructor; [|apply IH].
  unfold byte_range. change 0xff with (Z.ones 8).
  rewrite Z.land_ones by lia. apply Z.mod_pos_bound. lia.
Qed.

Lemma le_bytes_length n : forall x, List.length (le_bytes n x) = n.
Proof. induction n as [|n IH]; intros x; simpl; [reflexivity|]. rewrite IH. reflexivity. Qed.

Lemma digest_range msg : Forall byte_range (digest msg).
Proof.
  unfold digest. repeat (apply Forall_app; split); apply le_bytes_range.
Qed.

Lemma digest_length msg : List.length (digest msg) = 16%nat.
Proof.
  unfold digest. rewrite !length_app, !le_bytes_length. reflexivity.
Qed.

Lemma hex_digit_lower z : 0 <= z < 16 -> is_lower_hex (hex_digit z) = true.
Proof.
  intros H. unfold is_lower_hex, hex_digit.
  destruct (z <? 10) eqn:E.
  - apply Z.ltb_lt in E. rewrite code_chr by lia.
    apply orb_true_iff. left. apply andb_true_iff. split; apply Z.leb_le; lia.
  - apply Z.ltb_ge in E. rewrite code_chr by lia.
    apply orb_true_iff. right. apply andb_true_iff. split; apply Z.leb_le; lia.
Qed.

Lemma hex_lower bs : Forall byte_range bs -> all_lower_hex (hex bs) = true.
Proof.
  induction 1 as [|b bs Hb _ IH]; [reflexivity|].
  unfold byte_range in Hb. cbn [hex all_lower_hex].
  rewrite IH, !hex_digit_lower; [reflexivity| |].
  - change 0xf with (Z.ones 4). rewrite Z.land_ones by lia.
    apply Z.mod_pos_bound. lia.
  - rewrite Z.shiftr_div_pow2 by lia. change (2 ^ 4) with 16.
    split; [apply Z.div_pos; lia|apply Z.div_lt_upper_bound; lia].
Qed.

Lemma hex_digit_inj x y :
  0 <= x < 16 -> 0 <= y < 16 -> hex_digit x = hex_digit y -> x = y.
Proof.
  intros Hx Hy H. apply (f_equal Str.code) in H. unfold hex_digit in H.
  destruct (Z.ltb_spec x 10), (Z.ltb_spec y 10);
    rewrite !code_chr in H by lia; lia.
Qed.

(** Two digits a byte: the digits tell the bytes. *)
Lemma hex_inj bs1 : forall bs2,
  Forall byte_range bs1 -> Forall byte_range bs2 -> hex bs1 = hex bs2 -> bs1 = bs2.
Proof.
  induction bs1 as [|b1 r1 IH]; intros [|b2 r2] H1 H2 H; try discriminate H;
    [reflexivity|].
  cbn [hex] in H. injection H as Hhi Hlo Hr.
  inversion H1 as [|? ? Hb1 Hr1]; subst. inversion H2 as [|? ? Hb2 Hr2]; subst.
  unfold byte_range in Hb1, Hb2.
  assert (Hl : forall b, Z.land b 0xf = b mod 16).
  { intros b. change 0xf with (Z.ones 4). rewrite Z.land_ones by lia. reflexivity. }
  assert (Hh : forall b, Z.shiftr b 4 = b / 16).
  { intros b. rewrite Z.shiftr_div_pow2 by lia. reflexivity. }
  rewrite !Hh in Hhi. rewrite !Hl in Hlo.
  apply hex_digit_inj in Hhi;
    [|split; [apply Z.div_pos|apply Z.div_lt_upper_bound]; lia
     |split; [apply Z.div_pos|apply Z.div_lt_upper_bound]; lia].
  apply hex_digit_inj in Hlo; [|apply Z.mod_pos_bound; lia|apply Z.mod_pos_bound; lia].
  f_equal; [|apply (IH _ Hr1 Hr2 Hr)].
  rewrite (Z.div_mod b1 16), (Z.div_mod b2 16) by lia. congruence.
Qed.

Lemma hex_length bs : String.length (hex bs) = (2 * List.length bs)%nat.
Proof. induction bs as [|b bs IH]; simpl; [reflexivity|]. rewrite IH. lia. Qed.

Lemma lower_hex_ascii s : all_lower_hex s = true -> Utf8.all_ascii s = true.
Proof.
  induction s as [|c r IH]; simpl; [reflexivity|].
  intros H. apply andb_true_iff in H as [Hc Hr]. rewrite (IH Hr), andb_true_r.
  unfold is_lower_hex in Hc. unfold Utf8.is_ascii.
  apply Z.leb_le. apply orb_true_iff in Hc as [Hc|Hc];
    apply andb_true_iff in Hc as [_ Hc]; apply Z.leb_le in Hc; lia.
Qed.

(** The etag is a quote, 32 lowercase hexadecimal digits and a quote. *)
Lemma calculateEtag_format content :
  exists h,
    calculateEtag content = String Json.dquote (h ++ String Json.dquote EmptyString)
    /\ String.length h = 32%nat /\ all_lower_hex h = true.
Proof.
  exists (md5_hex content). unfold md5_hex. split; [reflexivity|]. split.
  - rewrite hex_length, digest_length. reflexivity.
  - apply hex_lower, digest_range.
Qed.

Lemma calculateEtag_ascii content : Utf8.all_ascii (calculateEtag content) = true.
Proof.
  unfold calculateEtag. cbn [Utf8.all_ascii].
  rewrite Utf8Facts.all_ascii_app.
  rewrite lower_hex_ascii by (apply hex_lower, digest_range). reflexivity.
Qed.

Lemma decode_calculateEtag content :
  Utf8.decode (calculateEtag content) = calculateEtag content.
Proof. apply Utf8Facts.decode_ascii, calculateEtag_ascii. Qed.

End Md5Facts.

(** * The store *)

Module StoreFacts.

Import StrFacts FsFacts PathFacts Json.

Section WithStore.

Variable store : S3StoreMock.

Lemma fileExists_spec p fs :
  fileExists p fs
  = (Ok (match Fs.access fs p with Ok _ => true | Err _ => false end), fs).
Proof.
  unfold fileExists, try_catch, bind, fs_read, ret.
  destruct (Fs.access fs p); reflexivity.
Qed.

(** [readMeta] never throws and never writes: it returns the stored
    record, or [null]. *)
Lemma readMeta_spec key fs :
  readMeta store key fs
  = (Ok (match stored_meta store fs key with Some v => v | None => JNull end), fs).
Proof.
  unfold readMeta, stored_meta, try_catch, bind, fs_read, json_parse, ret, throw.
  destruct (Fs.readFile fs (getMetaPath store key)) as [text|e]; [|reflexivity].
  destruct (Json.parse (Utf8.decode text)); reflexivity.
Qed.

Lemma strict_eq_string_true v s : strict_eq_string v s = true <-> v = JString s.
Proof.
  destruct v; simpl; try (split; [discriminate|discriminate]).
  rewrite String.eqb_eq. split; congruence.
Qed.

(** The guard of the conditional operations fails exactly on a mismatch. *)
Lemma stale_iff key etag fs :
  stale (match stored_meta store fs key with Some v => v | None => JNull end) etag = true
  <-> etag_mismatch store fs key etag.
Proof.
  unfold etag_mismatch, stale.
  destruct (stored_meta store fs key) as [m|]; cycle 1.
  { simpl. split; auto. }
  rewrite orb_true_iff, !negb_true_iff. split.
  - intros H. right. exists m. split; [reflexivity|].
    intros Heq. destruct H as [H|H].
    + destruct m; simpl in Heq, H; discriminate.
    + apply strict_eq_string_true in Heq. congruence.
  - intros [H|(m' & H & Hne)]; [discriminate|]. injection H as <-.
    right. destruct (strict_eq_string (get_etag m) etag) eqn:E; [|reflexivity].
    apply strict_eq_string_true in E. contradiction.
Qed.

Lemma stale_false key etag fs :
  ~ etag_mismatch store fs key etag ->
  stale (match stored_meta store fs key with Some v => v | None => JNull end) etag = false.
Proof.
  intros H. destruct (stale _ etag) eqn:E; [|reflexivity].
  apply stale_iff in E. contradiction.
Qed.

Lemma createObject_unfold key body contentType fs :
  createObject store key body contentType fs
  = match Fs.access fs (getFilePath store key) with
    | Ok _ => (Err (KeyExistsError KEY_EXISTS), fs)
    | Err _ => store_object store key (to_content body) (default_contentType contentType) fs
    end.
Proof.
  unfold createObject, bind at 1. rewrite fileExists_spec.
  destruct (Fs.access fs (getFilePath store key)); reflexivity.
Qed.

Lemma putObjectIfMatch_unfold key body etag contentType fs :
  ~ etag_mismatch store fs key etag ->
  putObjectIfMatch store key body etag contentType fs
  = store_object store key (to_content body) (default_contentType contentType) fs.
Proof.
  intros H. apply stale_false in H.
  unfold putObjectIfMatch, bind at 1. rewrite readMeta_spec, H. reflexivity.
Qed.

Lemma readFile_find fs p c :
  Fs.readFile fs p = Ok c
  <-> Fs.has_nul p = false /\ Path.trailing p = false
      /\ Fs.find fs (Path.components p) = Ok (Fs.File c).
Proof.
  unfold Fs.readFile, Fs.lookup.
  destruct (Fs.has_nul p); [split; [discriminate|intros (H & _); discriminate]|].
  destruct (Fs.find fs (Path.components p)) as [[x|es]|e].
  - destruct (Path.trailing p).
    + split; [discriminate|intros (_ & H & _); discriminate].
    + split; [intros H; injection H as ->; auto|intros (_ & _ & H); congruence].
  - split; [discriminate|intros (_ & _ & H); discriminate].
  - split; [discriminate|intros (_ & _ & H); discriminate].
Qed.

Lemma writeFile_inv fs p c fs' :
  Fs.writeFile fs p c = Ok fs' ->
  Fs.has_nul p = false /\ Path.trailing p = false
  /\ Fs.write fs (Path.components p) false c = Ok fs'.
Proof.
  unfold Fs.writeFile. destruct (Fs.has_nul p); [discriminate|].
  intros H. destruct (find_write_same _ _ _ _ _ H) as [_ Htr].
  rewrite Htr in H. auto.
Qed.

Lemma mkdir_inv fs p fs' :
  Fs.mkdir_recursive fs p = Ok fs' -> Fs.mkdirp fs (Path.components p) = Ok fs'.
Proof. unfold Fs.mkdir_recursive. destruct (Fs.has_nul p); [discriminate|auto]. Qed.

(** A write that succeeds leaves the content in the data artifact and the
    record of its etag and content type in the metadata artifact. *)
Lemma store_object_ok key content contentType fs r fs' :
  store_object store key content contentType fs = (Ok r, fs') ->
  r = write_response content contentType
  /\ Fs.readFile fs' (getFilePath store key) = Ok content
  /\ Fs.readFile fs' (getMetaPath store key)
     = Ok (stringify_meta (calculateEtag content) contentType).
Proof.
  unfold store_object, writeMeta, ensureDir, bind, fs_update, ret.
  rewrite JsonFacts.encode_stringify_meta.
  destruct (Fs.mkdir_recursive fs _) as [fs1|e] eqn:E1; [|discriminate].
  destruct (Fs.writeFile fs1 _ content) as [fs2|e] eqn:E2; [|discriminate].
  destruct (Fs.mkdir_recursive fs2 _) as [fs3|e] eqn:E3; [|discriminate].
  destruct (Fs.writeFile fs3 _ _) as [fs4|e] eqn:E4; [|discriminate].
  intros H. injection H as <- <-.
  apply writeFile_inv in E2 as (Hn2 & Ht2 & W2).
  apply writeFile_inv in E4 as (Hn4 & Ht4 & W4).
  apply mkdir_inv in E3.
  split; [reflexivity|]. split; apply readFile_find; repeat split; auto.
  - apply (find_write_other _ _ _ _ _ _ _ W4).
    + apply file_meta_differ.
    + apply (find_mkdirp _ _ _ _ _ E3).
      apply (find_write_same _ _ _ _ _ W2).
  - apply (find_write_same _ _ _ _ _ W4).
Qed.

Lemma existsb_removelast {A} (f : A -> bool) l :
  existsb f l = false -> existsb f (removelast l) = false.
Proof.
  induction l as [|x l IH]; [reflexivity|].
  destruct l as [|y l]; [reflexivity|].
  change (removelast (x :: y :: l)) with (x :: removelast (y :: l)).
  cbn [existsb] in *. intros H.
  apply orb_false_iff in H as [Hx H]. rewrite Hx. apply IH, H.
Qed.

(** With the metadata artifact in place and no data artifact, the write
    goes through: the last piece of the key is then an ordinary name and
    the directory of the two artifacts exists. *)
Lemma store_object_succeeds key content contentType fs e x :
  Fs.access fs (getFilePath store key) = Err e ->
  Fs.readFile fs (getMetaPath store key) = Ok x ->
  exists fs',
    store_object store key content contentType fs
    = (Ok (write_response content contentType), fs').
Proof.
  intros Ha Hm. apply readFile_find in Hm as (Hnul & Htr & Hfind).
  unfold getMetaPath in Hnul, Htr, Hfind. unfold getFilePath in Ha.
  rewrite meta_components in Hfind.
  assert (HnulP : existsb (Str.mem Ascii.zero) (key_parent (basePath store) key) = false
                  /\ Str.mem Ascii.zero (key_leaf key) = false).
  { unfold Fs.has_nul in Hnul. rewrite meta_components, existsb_app in Hnul.
    apply orb_false_iff in Hnul as [H1 H2]. split; [exact H1|].
    cbn [existsb] in H2. rewrite orb_false_r, mem_append in H2.
    apply orb_false_iff in H2 as [H2 _]. exact H2. }
  destruct HnulP as [HnulP Hnull].
  destruct (find_prefix _ _ _ _ Hfind) as [es Hdir]; [discriminate|].
  assert (Hplain : key_leaf key <> EmptyString /\ key_leaf key <> "." /\ key_leaf key <> "..").
  { destruct (step_cases (key_parent (basePath store) key) (key_leaf key))
      as [(_ & H)|[[_ Hs]|[_ Hs]]]; [exact H|exfalso..].
    - unfold Fs.access, Fs.lookup, Fs.has_nul in Ha.
      rewrite file_components, Hs, HnulP, Hdir in Ha. discriminate.
    - unfold Fs.access, Fs.lookup, Fs.has_nul in Ha.
      rewrite file_components, Hs, (existsb_removelast _ _ HnulP) in Ha.
      destruct (find_removelast _ _ _ Hdir) as [es' Hdir'].
      rewrite Hdir' in Ha. discriminate. }
  destruct Hplain as (P1 & P2 & P3).
  destruct (file_plain (basePath store) key P1 P2 P3) as [Hcomp Htrail].
  assert (HnulF : Fs.has_nul (Path.join (basePath store) key) = false).
  { unfold Fs.has_nul. rewrite Hcomp, existsb_app, HnulP. simpl.
    rewrite Hnull. reflexivity. }
  assert (Hnone : Fs.assoc (key_leaf key) es = None).
  { unfold Fs.access, Fs.lookup in Ha. rewrite HnulF, Hcomp, Htrail in Ha.
    rewrite (find_app _ _ _ _ Hdir) in Ha. simpl in Ha.
    destruct (Fs.assoc (key_leaf key) es) as [[c|es']|]; [discriminate..|reflexivity]. }
  destruct (write_new_file _ _ _ _ content Hdir Hnone) as [fs2 W2].
  assert (Hfind2 : Fs.find fs2 (key_parent (basePath store) key ++ [(key_leaf key ++ ".meta")%string])%list
                   = Ok (Fs.File x)).
  { apply (find_write_other _ _ _ _ _ _ _ W2); [|exact Hfind].
    intros H. apply app_inj_tail in H as [_ H].
    apply (f_equal String.length) in H. rewrite length_append in H. simpl in H. lia. }
  destruct (write_over_file _ _ _ (stringify_meta (calculateEtag content) contentType) Hfind2)
    as [fs4 W4].
  exists fs4.
  assert (E1 : Fs.mkdir_recursive fs (Path.dirname (getFilePath store key)) = Ok fs).
  { unfold Fs.mkdir_recursive, Fs.has_nul, Path.dirname, getFilePath.
    cbn [Path.components]. rewrite Hcomp, removelast_last, HnulP.
    apply (mkdirp_dir _ _ _ Hdir). }
  assert (E2 : Fs.writeFile fs (getFilePath store key) content = Ok fs2).
  { unfold Fs.writeFile, getFilePath. rewrite HnulF, Hcomp, Htrail. exact W2. }
  assert (E3 : Fs.mkdir_recursive fs2 (Path.dirname (getMetaPath store key)) = Ok fs2).
  { unfold Fs.mkdir_recursive, Fs.has_nul, Path.dirname, getMetaPath.
    cbn [Path.components]. rewrite meta_components, removelast_last, HnulP.
    apply (mkdirp_parent _ _ _ _ Hfind2). }
  assert (E4 : Fs.writeFile fs2 (getMetaPath store key)
                 (stringify_meta (calculateEtag content) contentType) = Ok fs4).
  { unfold Fs.writeFile, getMetaPath. rewrite Hnul, meta_components, Htr. exact W4. }
  unfold store_object, writeMeta, ensureDir, bind, fs_update, ret.
  rewrite JsonFacts.encode_stringify_meta.
  rewrite E1, E2, E3, E4. reflexivity.
Qed.

(** With both artifacts in place as regular files, the write goes
    through as well. *)
Lemma store_object_overwrites key content contentType fs c x :
  Fs.readFile fs (getFilePath store key) = Ok c ->
  Fs.readFile fs (getMetaPath store key) = Ok x ->
  exists fs',
    store_object store key content contentType fs
    = (Ok (write_response content contentType), fs').
Proof.
  intros Hd Hm.
  apply readFile_find in Hd as (HnF & HtF & HfF).
  apply readFile_find in Hm as (HnM & HtM & HfM).
  assert (HneF : Path.components (getFilePath store key) <> []).
  { intros E. rewrite E in HfF. simpl in HfF. injection HfF as ->.
    unfold getMetaPath in HfM. rewrite meta_components in HfM.
    destruct (key_parent (basePath store) key); discriminate. }
  destruct (write_over_file _ _ _ content HfF) as [fs2 W2].
  assert (HfM2 : Fs.find fs2 (Path.components (getMetaPath store key)) = Ok (Fs.File x)).
  { apply (find_write_other _ _ _ _ _ _ _ W2); [|exact HfM].
    intros E. symmetry in E. revert E. apply file_meta_differ. }
  destruct (write_over_file _ _ _ (stringify_meta (calculateEtag content) contentType) HfM2)
    as [fs4 W4].
  exists fs4.
  assert (Hparent : forall n p y, p <> [] -> Fs.find n p = Ok y ->
                    Fs.mkdirp n (removelast p) = Ok n).
  { intros n p y Hp Hf. rewrite (app_removelast_last EmptyString Hp) in Hf.
    apply (mkdirp_parent _ _ _ _ Hf). }
  assert (HneM : Path.components (getMetaPath store key) <> []).
  { unfold getMetaPath. rewrite meta_components.
    destruct (key_parent (basePath store) key); discriminate. }
  assert (E1 : Fs.mkdir_recursive fs (Path.dirname (getFilePath store key)) = Ok fs).
  { unfold Fs.mkdir_recursive, Fs.has_nul, Path.dirname. cbn [Path.components].
    rewrite (existsb_removelast _ _ HnF). apply (Hparent _ _ _ HneF HfF). }
  assert (E2 : Fs.writeFile fs (getFilePath store key) content = Ok fs2).
  { unfold Fs.writeFile. rewrite HnF, HtF. exact W2. }
  assert (E3 : Fs.mkdir_recursive fs2 (Path.dirname (getMetaPath store key)) = Ok fs2).
  { unfold Fs.mkdir_recursive, Fs.has_nul, Path.dirname. cbn [Path.components].
    rewrite (existsb_removelast _ _ HnM). apply (Hparent _ _ _ HneM HfM2). }
  assert (E4 : Fs.writeFile fs2 (getMetaPath store key)
                 (stringify_meta (calculateEtag content) contentType) = Ok fs4).
  { unfold Fs.writeFile. rewrite HnM, HtM. exact W4. }
  unfold store_object, writeMeta, ensureDir, bind, fs_update, ret.
  rewrite JsonFacts.encode_stringify_meta.
  rewrite E1, E2, E3, E4. reflexivity.
Qed.

(** The removal of [deleteObject], case by case. *)
Lemma unlink_if_present_spec p fs :
  unlink_if_present p fs
  = match Fs.unlink fs p with
    | Ok fs' => (Ok tt, fs')
    | Err Fs.ENOENT => (Ok tt, fs)
    | Err c => (Err (SystemError c), fs)
    end.
Proof.
  unfold unlink_if_present, try_catch, fs_update, ret, throw.
  destruct (Fs.unlink fs p) as [fs'|[]]; reflexivity.
Qed.

Lemma access_missing fs p :
  Fs.access fs p = Err Fs.ENOENT
  <-> Fs.has_nul p = false /\ Fs.find fs (Path.components p) = Err Fs.ENOENT.
Proof.
  unfold Fs.access, Fs.lookup.
  destruct (Fs.has_nul p); [split; [discriminate|intros [H _]; discriminate]|].
  destruct (Fs.find fs (Path.components p)) as [[x|es]|e].
  - destruct (Path.trailing p); split; try discriminate; intros [_ H]; discriminate.
  - split; [discriminate|intros [_ H]; discriminate].
  - split; [intros H; injection H as ->; auto|intros [_ H]; injection H as ->; reflexivity].
Qed.

Lemma unlink_at_enoent p : forall n tr,
  Fs.unlink_at n p tr = Err Fs.ENOENT -> Fs.find n p = Err Fs.ENOENT.
Proof.
  induction p as [|s p IH]; intros n tr; simpl; [discriminate|].
  destruct n as [y|es]; [discriminate|].
  destruct (Fs.assoc s es) as [child|] eqn:Ea; [|reflexivity].
  destruct p as [|s' p'].
  - destruct child; [destruct tr|]; discriminate.
  - destruct (Fs.unlink_at child (s' :: p') tr) as [c'|e] eqn:Eu; [discriminate|].
    intros H. injection H as ->. apply (IH _ _ Eu).
Qed.

(** After [unlink_if_present] has returned, nothing is at the path, and
    what was missing before is missing still. *)
Lemma unlink_if_present_ok p fs fs' :
  unlink_if_present p fs = (Ok tt, fs') ->
  Fs.access fs' p = Err Fs.ENOENT
  /\ forall q, Fs.access fs q = Err Fs.ENOENT -> Fs.access fs' q = Err Fs.ENOENT.
Proof.
  rewrite unlink_if_present_spec. unfold Fs.unlink.
  destruct (Fs.has_nul p) eqn:Hn; [discriminate|].
  destruct (Fs.unlink_at fs _ _) as [fs1|e] eqn:Eu.
  - intros H. injection H as <-. split.
    + apply access_missing. split; [exact Hn|]. apply (find_unlink_same _ _ _ _ Eu).
    + intros q Hq. apply access_missing in Hq as [Hq1 Hq2].
      apply access_missing. split; [exact Hq1|].
      apply (find_unlink_missing _ _ _ _ _ Eu Hq2).
  - destruct e; try discriminate. intros H. injection H as <-. split; [|auto].
    apply access_missing. split; [exact Hn|]. apply (unlink_at_enoent _ _ _ Eu).
Qed.

(** Removing a regular file or nothing succeeds, and leaves what is
    removable at other paths removable. *)
Lemma unlink_if_present_removable p fs :
  removable fs p -> Path.components p <> [] ->
  exists fs',
    unlink_if_present p fs = (Ok tt, fs')
    /\ forall q, Path.components q <> Path.components p ->
                 removable fs q -> removable fs' q.
Proof.
  intros [[c Hc]|Hm] Hne; rewrite unlink_if_present_spec; unfold Fs.unlink.
  - apply readFile_find in Hc as (Hn & Ht & Hf). rewrite Hn, Ht.
    destruct (unlink_file _ _ _ Hf Hne) as [fs' Hu]. rewrite Hu.
    exists fs'. split; [reflexivity|].
    intros q Hq [[d Hd]|Hd].
    + left. exists d. apply readFile_find in Hd as (Hn' & Ht' & Hf').
      apply readFile_find. repeat split; auto.
      apply (find_unlink_other _ _ _ _ _ _ Hu Hq Hf').
    + right. apply access_missing in Hd as [Hn' Hf'].
      apply access_missing. split; [exact Hn'|].
      apply (find_unlink_missing _ _ _ _ _ Hu Hf').
  - apply access_missing in Hm as [Hn Hf]. rewrite Hn.
    rewrite (unlink_missing _ _ _ Hf). exists fs. auto.
Qed.

Lemma unlink_if_present_missing p fs :
  Fs.access fs p = Err Fs.ENOENT -> unlink_if_present p fs = (Ok tt, fs).
Proof.
  intros H. apply access_missing in H as [Hn Hf].
  rewrite unlink_if_present_spec. unfold Fs.unlink.
  rewrite Hn, (unlink_missing _ _ _ Hf). reflexivity.
Qed.

Lemma removable_root_dir fs p :
  removable fs p -> Path.components p <> [] -> exists es, fs = Fs.Dir es.
Proof.
  intros H Hne. destruct fs as [x|es]; [exfalso|eauto].
  destruct (Path.components p) as [|s l] eqn:E; [congruence|].
  destruct H as [[c Hc]|Hm].
  - apply readFile_find in Hc as (_ & _ & Hf). rewrite E in Hf. discriminate.
  - apply access_missing in Hm as [_ Hf]. rewrite E in Hf. discriminate.
Qed.

Lemma removable_not_dir fs p es :
  removable fs p -> Fs.find fs (Path.components p) <> Ok (Fs.Dir es).
Proof.
  intros [[c Hc]|Hm] H.
  - apply readFile_find in Hc as (_ & _ & Hf). congruence.
  - apply access_missing in Hm as [_ Hf]. congruence.
Qed.

End WithStore.

End StoreFacts.

(** What a write stores of its arguments. *)

Module WriteFacts.

Import StrFacts SurrogateFacts JsonFacts Json.

(** The content of a body: the bytes of a [Buffer], the UTF-8 of a
    string. *)
Lemma to_content_bytes body : body_bytes body (to_content body).
Proof.
  split.
  - intros b ->. reflexivity.
  - intros cps H ->. unfold code_points in H. apply andb_true_iff in H as [H _].
    apply (encode_utf8_of _ H).
Qed.

(** The content type of the response is the one of the call. *)
Lemma default_contentType_type contentType :
  type_of_write contentType (default_contentType contentType).
Proof. split; intros; subst; reflexivity. Qed.

(** The content type of the record, read back, is the one of the call. *)
Lemma reread_contentType_type contentType :
  type_of_write contentType (reread (default_contentType contentType)).
Proof.
  split.
  - intros ->. vm_compute. reflexivity.
  - intros cps H ->. apply (reread_utf8_of _ H).
Qed.

End WriteFacts.

(** * The properties of the store *)

Section Properties.

Import StrFacts FsFacts FsErrorFacts PathFacts JsonFacts StoreFacts WriteFacts Json.

Variable store : S3StoreMock.

(** The record that a successful write leaves behind, read back. *)
Lemma stored_meta_written key content contentType fs :
  Fs.readFile fs (getMetaPath store key)
  = Ok (stringify_meta (calculateEtag content) contentType) ->
  stored_meta store fs key
  = Some (meta_record (calculateEtag content) (reread contentType)).
Proof.
  intros H. unfold stored_meta. rewrite H, parse_decode_stringify_meta.
  rewrite (reread_ascii _ (Md5Facts.calculateEtag_ascii content)). reflexivity.
Qed.

Lemma access_error fs p : Fs.access fs p <> Ok tt -> exists e, Fs.access fs p = Err e.
Proof. destruct (Fs.access fs p) as [[]|e]; [congruence|eauto]. Qed.

(** C1.  When the stored metadata record of the key is absent (or
    unparsable), or its etag is not the expected etag, [putObjectIfMatch]
    throws the StaleDataError and writes nothing: the file system after
    the call, hence the data and the metadata artifact, is the one
    before. *)
Theorem putObjectIfMatch_stale_writes_nothing
    (key : string) (body : Body) (etag : string) (contentType : option string)
    (fs : Fs.node) :
  etag_mismatch store fs key etag ->
  putObjectIfMatch store key body etag contentType fs
  = (Err (StaleDataError STALE_PUT), fs).
Proof.
  intros H. apply stale_iff in H.
  unfold putObjectIfMatch, bind. rewrite readMeta_spec, H. reflexivity.
Qed.

(** C2.  When the data artifact of the key exists, [createObject] throws
    the KeyExistsError and changes nothing; so after a successful
    [createObject] of [B1] a second [createObject] of the key throws it,
    and the data artifact still holds [B1]. *)
Theorem createObject_existing_key
    (key : string) (B1 B2 : Body) (ct1 ct2 : option string) (fs : Fs.node) :
  (data_exists store fs key ->
     createObject store key B2 ct2 fs = (Err (KeyExistsError KEY_EXISTS), fs))
  /\ (forall r fs',
       createObject store key B1 ct1 fs = (Ok r, fs') ->
       createObject store key B2 ct2 fs' = (Err (KeyExistsError KEY_EXISTS), fs')
       /\ Fs.readFile fs' (getFilePath store key) = Ok (to_content B1)).
Proof.
  split.
  - unfold data_exists. intros H. rewrite createObject_unfold, H. reflexivity.
  - intros r fs'. rewrite createObject_unfold.
    destruct (Fs.access fs (getFilePath store key)); [discriminate|].
    intros H. apply store_object_ok in H as (_ & Hdata & _).
    split; [|exact Hdata].
    rewrite createObject_unfold. unfold Fs.access, Fs.readFile in *.
    destruct (Fs.lookup fs' (getFilePath store key)); [reflexivity|discriminate].
Qed.

(** C3.  [getObjectIfMatch] looks for the data artifact first: without it
    the call throws NoSuchKey, whatever the metadata; with it and a
    mismatch of the etag the call throws the StaleDataError; otherwise it
    is [getObject]. *)
Theorem getObjectIfMatch_order (key etag : string) (fs : Fs.node) :
  (~ data_exists store fs key ->
     getObjectIfMatch store key etag fs = (Err (NoSuchKey "NoSuchKey"), fs))
  /\ (data_exists store fs key -> etag_mismatch store fs key etag ->
     getObjectIfMatch store key etag fs = (Err (StaleDataError STALE_GET), fs))
  /\ (data_exists store fs key -> ~ etag_mismatch store fs key etag ->
     getObjectIfMatch store key etag fs = getObject store key fs).
Proof.
  unfold data_exists, getObjectIfMatch, bind. rewrite fileExists_spec.
  destruct (Fs.access fs (getFilePath store key)) as [[]|e] eqn:Ea; simpl.
  - split; [intros H; contradiction H; reflexivity|].
    rewrite readMeta_spec. split; intros _ H.
    + apply stale_iff in H. rewrite H. reflexivity.
    + apply stale_false in H. rewrite H. reflexivity.
  - split; [reflexivity|]. split; discriminate.
Qed.

(** C4, as amended.  After a successful [createObject] of [body], which
    returns the etag [E1], [getObject] returns the content of the data
    artifact and [E1].  The content is the body, byte for byte, when the
    body is a [Buffer]; when the body is a string it is the UTF-8 of the
    string, in which an unpaired surrogate of the string is U+FFFD (so
    that not every body is stored as it is, see
    [getObject_after_unpaired_surrogate]). *)
Theorem getObject_after_createObject
    (key : string) (body : Body) (contentType : option string)
    (fs : Fs.node) (r : ResponseWrapper) (fs' : Fs.node) :
  createObject store key body contentType fs = (Ok r, fs') ->
  exists E1 content,
    body_bytes body content
    /\ Fs.readFile fs' (getFilePath store key) = Ok content
    /\ etag r = JString E1
    /\ getObject store key fs'
       = (Ok (mkResponse (BodyResponse content) (JString E1)), fs').
Proof.
  rewrite createObject_unfold.
  destruct (Fs.access fs (getFilePath store key)); [discriminate|].
  intros H. apply store_object_ok in H as (-> & Hdata & Hmeta).
  exists (calculateEtag (to_content body)), (to_content body).
  split; [apply to_content_bytes|]. split; [exact Hdata|]. split; [reflexivity|].
  unfold getObject, bind, try_catch, fs_read, ret.
  rewrite readMeta_spec, (stored_meta_written _ _ _ _ Hmeta), Hdata. reflexivity.
Qed.

(** C5, as amended.  The etag is a function of the content: equal
    contents have equal etags, and contents with different etags differ.
    The etag of a content is a quote, the 32 lowercase hexadecimal digits
    of the 16 bytes of its MD5 digest and a quote; two contents have the
    same etag exactly when they have the same digest; and the digests of
    the test suite of RFC 1321 are the ones the RFC gives.  (It is not
    injective, see [etag_collision].) *)
Theorem calculateEtag_deterministic (C1 C2 : string) :
  calculateEtag C1 = calculateEtag C1
  /\ (C1 = C2 -> calculateEtag C1 = calculateEtag C2)
  /\ (calculateEtag C1 <> calculateEtag C2 -> C1 <> C2)
  /\ calculateEtag C1
     = String dquote (Md5.hex (Md5.digest (Str.codes C1)) ++ String dquote EmptyString)
  /\ List.length (Md5.digest (Str.codes C1)) = 16%nat
  /\ Forall byte_range (Md5.digest (Str.codes C1))
  /\ String.length (Md5.hex (Md5.digest (Str.codes C1))) = 32%nat
  /\ all_lower_hex (Md5.hex (Md5.digest (Str.codes C1))) = true
  /\ (calculateEtag C1 = calculateEtag C2
      <-> Md5.digest (Str.codes C1) = Md5.digest (Str.codes C2))
  /\ Forall (fun t => calculateEtag (fst t)
                      = String dquote (snd t ++ String dquote EmptyString))
            rfc1321_test_suite.
Proof.
  split; [reflexivity|]. split; [congruence|]. split; [congruence|].
  split; [reflexivity|].
  split; [apply Md5Facts.digest_length|]. split; [apply Md5Facts.digest_range|].
  split; [rewrite Md5Facts.hex_length, Md5Facts.digest_length; reflexivity|].
  split; [apply Md5Facts.hex_lower, Md5Facts.digest_range|].
  split.
  - unfold calculateEtag, Md5.md5_hex. split.
    + intros H. apply string_cons_inj, append_inj_r in H.
      apply Md5Facts.hex_inj in H; [exact H| |]; apply Md5Facts.digest_range.
    + intros ->. reflexivity.
  - unfold rfc1321_test_suite.
    repeat (apply Forall_cons; [vm_compute; reflexivity|]). apply Forall_nil.
Qed.

(** C6, as amended.  When [deleteObject] returns, its response has the
    etag [null] and neither artifact of the key is left.  It returns when
    each of the two paths holds a regular file or nothing, and changes
    nothing when both hold nothing.  Every other error of a removal is
    thrown as it is: the one of the removal of the data artifact with
    nothing changed, the one of the removal of the metadata artifact
    after the data artifact has been removed; and nothing else is
    thrown. *)
Theorem deleteObject_removes (key : string) (fs : Fs.node) :
  (forall r fs',
     deleteObject store key fs = (Ok r, fs') ->
     r = DELETED
     /\ Fs.access fs' (getFilePath store key) = Err Fs.ENOENT
     /\ Fs.access fs' (getMetaPath store key) = Err Fs.ENOENT)
  /\ (removable fs (getFilePath store key) ->
      removable fs (getMetaPath store key) ->
      exists fs', deleteObject store key fs = (Ok DELETED, fs'))
  /\ (Fs.access fs (getFilePath store key) = Err Fs.ENOENT ->
      Fs.access fs (getMetaPath store key) = Err Fs.ENOENT ->
      deleteObject store key fs = (Ok DELETED, fs))
  /\ (forall c,
        Fs.unlink fs (getFilePath store key) = Err c -> c <> Fs.ENOENT ->
        deleteObject store key fs = (Err (SystemError c), fs))
  /\ (forall fs1 c,
        Fs.unlink fs (getFilePath store key) = Ok fs1
        \/ (Fs.unlink fs (getFilePath store key) = Err Fs.ENOENT /\ fs1 = fs) ->
        Fs.unlink fs1 (getMetaPath store key) = Err c -> c <> Fs.ENOENT ->
        deleteObject store key fs = (Err (SystemError c), fs1))
  /\ (forall e fs',
       deleteObject store key fs = (Err e, fs') ->
       exists c, e = SystemError c /\ c <> Fs.ENOENT).
Proof.
  unfold deleteObject, bind, ret. split; [|split; [|split; [|split; [|split]]]].
  - intros r fs'.
    destruct (unlink_if_present (getFilePath store key) fs) as [[[]|e] fs1] eqn:E1;
      [|discriminate].
    destruct (unlink_if_present (getMetaPath store key) fs1) as [[[]|e] fs2] eqn:E2;
      [|discriminate].
    intros H. injection H as <- <-.
    apply unlink_if_present_ok in E1 as [H1 _].
    apply unlink_if_present_ok in E2 as [H2 H3]. auto.
  - intros HF HM.
    assert (HneM : Path.components (getMetaPath store key) <> []).
    { unfold getMetaPath. rewrite meta_components.
      destruct (key_parent (basePath store) key); discriminate. }
    assert (HneF : Path.components (getFilePath store key) <> []).
    { intros E. destruct (removable_root_dir _ _ HM HneM) as [es ->].
      apply (removable_not_dir _ _ es HF). rewrite E. reflexivity. }
    destruct (unlink_if_present_removable _ _ HF HneF) as (fs1 & -> & Hkeep).
    assert (HM1 : removable fs1 (getMetaPath store key)).
    { apply Hkeep; [|exact HM]. intros E. symmetry in E.
      revert E. apply file_meta_differ. }
    destruct (unlink_if_present_removable _ _ HM1 HneM) as (fs2 & -> & _).
    exists fs2. reflexivity.
  - intros HF HM.
    rewrite (unlink_if_present_missing _ _ HF), (unlink_if_present_missing _ _ HM).
    reflexivity.
  - intros c Hu Hc. rewrite unlink_if_present_spec, Hu.
    destruct c; first [contradiction Hc; reflexivity|reflexivity].
  - intros fs1 c Hu Hm Hc. rewrite unlink_if_present_spec.
    assert (Hsecond :
      match unlink_if_present (getMetaPath store key) fs1 with
      | (Ok _, fs2) => (Ok DELETED, fs2)
      | (Err e0, fs2) => (Err e0, fs2)
      end = (Err (SystemError c), fs1)).
    { rewrite unlink_if_present_spec, Hm.
      destruct c; first [contradiction Hc; reflexivity|reflexivity]. }
    destruct Hu as [->|[-> ->]]; exact Hsecond.
  - intros e fs'. rewrite unlink_if_present_spec.
    assert (Hsecond : forall fs1,
      match unlink_if_present (getMetaPath store key) fs1 with
      | (Ok _, fs2) => (Ok DELETED, fs2)
      | (Err e0, fs2) => (Err e0, fs2)
      end = (Err e, fs') -> exists c, e = SystemError c /\ c <> Fs.ENOENT).
    { intros fs1. rewrite unlink_if_present_spec.
      destruct (Fs.unlink fs1 (getMetaPath store key)) as [fs2|[]]; intros H;
        first [ discriminate H
              | injection H as <- <-; eexists; split; [reflexivity|discriminate] ]. }
    destruct (Fs.unlink fs (getFilePath store key)) as [fs1|[]];
      first [ apply Hsecond
            | intros H; injection H as <- <-; eexists; split; [reflexivity|discriminate] ].
Qed.

(** C8, as the code has it.  With the data artifact in place and no
    stored record, [getObject] returns the stored bytes, and the etag of
    the response is [undefined]. *)
Theorem getObject_without_meta (key : string) (fs : Fs.node) (content : string) :
  Fs.readFile fs (getFilePath store key) = Ok content ->
  stored_meta store fs key = None ->
  getObject store key fs
  = (Ok (mkResponse (BodyResponse content) JUndefined), fs).
Proof.
  intros Hdata Hmeta.
  unfold getObject, bind, try_catch, fs_read, ret.
  rewrite readMeta_spec, Hmeta, Hdata. reflexivity.
Qed.

(** C9, as amended.  [putObjectIfMatch] does not look for the data
    artifact: when the stored record carries the expected etag, the call
    succeeds whether the data path holds a regular file or nothing; it
    leaves the content of the body in the data artifact, which it creates
    when absent, and replaces the record by the one of the new etag and
    of the content type of the call, as for any update.  It does not
    succeed for every such key: when the data path is a directory, the
    call throws EISDIR and changes nothing. *)
Theorem putObjectIfMatch_without_data
    (key : string) (body : Body) (etag : string) (contentType : option string)
    (fs : Fs.node) (m : JsVal) :
  stored_meta store fs key = Some m ->
  get_etag m = JString etag ->
  ((~ data_exists store fs key
    \/ exists c, Fs.readFile fs (getFilePath store key) = Ok c) ->
   exists fs' content type recorded,
     body_bytes body content
     /\ type_of_write contentType type
     /\ type_of_write contentType recorded
     /\ putObjectIfMatch store key body etag contentType fs
        = (Ok (write_response content type), fs')
     /\ Fs.readFile fs' (getFilePath store key) = Ok content
     /\ stored_meta store fs' key
        = Some (meta_record (calculateEtag content) recorded))
  /\ (forall es,
        Fs.lookup fs (getFilePath store key) = Ok (Fs.Dir es) ->
        putObjectIfMatch store key body etag contentType fs
        = (Err (SystemError Fs.EISDIR), fs)).
Proof.
  intros Hm He.
  assert (Hok : ~ etag_mismatch store fs key etag).
  { intros [H|(m' & H & Hne)]; rewrite Hm in H; [discriminate|].
    injection H as <-. contradiction. }
  rewrite (putObjectIfMatch_unfold _ _ _ _ _ _ Hok).
  unfold stored_meta in Hm.
  destruct (Fs.readFile fs (getMetaPath store key)) as [x|] eqn:Hr; [|discriminate].
  split.
  - intros Hd.
    assert (Hs : exists fs',
      store_object store key (to_content body) (default_contentType contentType) fs
      = (Ok (write_response (to_content body) (default_contentType contentType)), fs')).
    { destruct Hd as [Hd|[c Hc]].
      - apply access_error in Hd as [e Ha].
        apply (store_object_succeeds store key _ _ _ _ _ Ha Hr).
      - apply (store_object_overwrites store key _ _ _ _ _ Hc Hr). }
    destruct Hs as [fs' Hs].
    exists fs', (to_content body), (default_contentType contentType),
           (reread (default_contentType contentType)).
    split; [apply to_content_bytes|].
    split; [apply default_contentType_type|].
    split; [apply reread_contentType_type|].
    split; [exact Hs|].
    apply store_object_ok in Hs as (_ & Hdata & Hmeta).
    split; [exact Hdata|]. apply stored_meta_written, Hmeta.
  - intros es Hl. apply lookup_dir in Hl as [Hn Hf].
    unfold store_object, bind, ensureDir, fs_update.
    destruct (find_removelast _ _ _ Hf) as [es' Hparent].
    unfold Fs.mkdir_recursive, Fs.has_nul, Path.dirname. cbn [Path.components].
    rewrite (existsb_removelast _ _ Hn), (mkdirp_dir _ _ _ Hparent).
    unfold Fs.writeFile. rewrite Hn, (find_dir_write _ _ _ _ _ Hf). reflexivity.
Qed.

(** C10.  [createObject] looks at the data artifact only: with no data
    artifact and a metadata artifact left behind, the call succeeds,
    stores the content of the body, and replaces the old record by the
    record of the etag of that content and of the content type of the
    call (the default when there is none). *)
Theorem createObject_over_orphaned_meta
    (key : string) (body : Body) (contentType : option string)
    (fs : Fs.node) (old : string) :
  ~ data_exists store fs key ->
  Fs.readFile fs (getMetaPath store key) = Ok old ->
  exists fs' content type recorded,
    body_bytes body content
    /\ type_of_write contentType type
    /\ type_of_write contentType recorded
    /\ createObject store key body contentType fs
       = (Ok (write_response content type), fs')
    /\ Fs.readFile fs' (getFilePath store key) = Ok content
    /\ Fs.readFile fs' (getMetaPath store key)
       = Ok (stringify_meta (calculateEtag content) type)
    /\ stored_meta store fs' key
       = Some (meta_record (calculateEtag content) recorded).
Proof.
  intros Hd Hr. apply access_error in Hd as [e Ha].
  rewrite createObject_unfold, Ha.
  destruct (store_object_succeeds store key (to_content body)
              (default_contentType contentType) _ _ _ Ha Hr) as [fs' Hs].
  exists fs', (to_content body), (default_contentType contentType),
         (reread (default_contentType contentType)).
  split; [apply to_content_bytes|].
  split; [apply default_contentType_type|].
  split; [apply reread_contentType_type|].
  split; [exact Hs|].
  apply store_object_ok in Hs as (_ & Hdata & Hmeta).
  repeat split; [exact Hdata|exact Hmeta|apply stored_meta_written, Hmeta].
Qed.

End Properties.

(** C5: two different contents with the same etag. *)
Lemma etag_collision :
  collision_a <> collision_b
  /\ calculateEtag collision_a = calculateEtag collision_b.
Proof.
  split.
  - intros H. vm_compute in H. discriminate H.
  - vm_compute. reflexivity.
Qed.

(** C8: the data artifact of [k] without metadata artifact; the etag of
    the response is [undefined] and not [null]. *)
Lemma getObject_etag_undefined :
  getObject demo_store "k" fs_data_only
  = (Ok (mkResponse (BodyResponse "hello") Json.JUndefined), fs_data_only)
  /\ Json.JUndefined <> Json.JNull.
Proof. split; [vm_compute; reflexivity|discriminate]. Qed.

Lemma getObject_without_meta_witness :
  getObject demo_store "k" fs_data_only
  = (Ok (mkResponse (BodyResponse "hello") Json.JUndefined), fs_data_only).
Proof.
  apply (getObject_without_meta demo_store "k" fs_data_only "hello");
    vm_compute; reflexivity.
Defined.

Lemma putObjectIfMatch_stale_witness :
  putObjectIfMatch demo_store "a/b" (StringBody "x") (calculateEtag "hello") None fs_updated
  = (Err (StaleDataError STALE_PUT), fs_updated).
Proof.
  apply (putObjectIfMatch_stale_writes_nothing demo_store).
  right. eexists. split; [vm_compute; reflexivity|]. vm_compute. discriminate.
Defined.


(** C6: [a] is an object, so no object has the key [a/b]; yet
    [deleteObject('a/b')] throws. *)
Lemma deleteObject_below_an_object :
  getObject demo_store "a" fs_object_a
  = (Ok (mkResponse (BodyResponse "hello") (Json.JString (calculateEtag "hello"))),
     fs_object_a)
  /\ Fs.access fs_object_a (getFilePath demo_store "a/b") = Err Fs.ENOTDIR
  /\ Fs.access fs_object_a (getMetaPath demo_store "a/b") = Err Fs.ENOTDIR
  /\ deleteObject demo_store "a/b" fs_object_a
     = (Err (SystemError Fs.ENOTDIR), fs_object_a).
Proof. repeat split; vm_compute; reflexivity. Qed.

Lemma createObject_existing_key_witness :
  createObject demo_store "a/b" (StringBody "other") None fs_created
  = (Err (KeyExistsError KEY_EXISTS), fs_created)
  /\ Fs.readFile fs_created (getFilePath demo_store "a/b") = Ok "hello".
Proof.
  refine (proj2 (createObject_existing_key demo_store "a/b" (StringBody "hello")
                   (StringBody "other") (Some "text/plain") None fs_home)
                (write_response "hello" "text/plain") fs_created _).
  vm_compute. reflexivity.
Defined.

Lemma getObjectIfMatch_order_witness :
  getObjectIfMatch demo_store "a/b" (calculateEtag "hello") fs_deleted
  = (Err (NoSuchKey "NoSuchKey"), fs_deleted)
  /\ getObjectIfMatch demo_store "a/b" (calculateEtag "hello") fs_updated
     = (Err (StaleDataError STALE_GET), fs_updated)
  /\ getObjectIfMatch demo_store "a/b" (calculateEtag "world") fs_updated
     = getObject demo_store "a/b" fs_updated.
Proof.
  split; [|split].
  - apply (proj1 (getObjectIfMatch_order demo_store "a/b" (calculateEtag "hello") fs_deleted)).
    vm_compute. discriminate.
  - apply (proj1 (proj2 (getObjectIfMatch_order demo_store "a/b"
                           (calculateEtag "hello") fs_updated))).
    + vm_compute. reflexivity.
    + right. eexists. split; [vm_compute; reflexivity|]. vm_compute. discriminate.
  - apply (proj2 (proj2 (getObjectIfMatch_order demo_store "a/b"
                           (calculateEtag "world") fs_updated))).
    + vm_compute. reflexivity.
    + intros [H|(m & H & Hne)]; vm_compute in H; [discriminate|].
      injection H as <-. apply Hne. vm_compute. reflexivity.
Defined.

Lemma getObject_after_createObject_witness :
  exists E1,
    etag (write_response "hello" "text/plain") = Json.JString E1
    /\ getObject demo_store "a/b" fs_created
       = (Ok (mkResponse (BodyResponse "hello") (Json.JString E1)), fs_created).
Proof.
  destruct (getObject_after_createObject demo_store "a/b" (StringBody "hello")
              (Some "text/plain") fs_home (write_response "hello" "text/plain")
              fs_created)
    as (E1 & content & Hb & _ & He & Hg).
  - vm_compute. reflexivity.
  - exists E1. split; [exact He|].
    rewrite (proj2 Hb (Str.codes "hello") eq_refl eq_refl) in Hg. exact Hg.
Defined.

(** C4: the string of the unpaired surrogate U+D800 is stored as the
    three bytes of U+FFFD, which are not the string; what [getObject]
    returns for it is what it returns for the string U+FFFD, created in
    its place. *)
Lemma getObject_after_unpaired_surrogate :
  createObject demo_store "k" (StringBody unpaired_surrogate) None fs_home
  = (Ok (write_response (Str.of_codes [0xef; 0xbf; 0xbd]) "application/json"),
     fs_surrogate)
  /\ getObject demo_store "k" fs_surrogate
     = (Ok (mkResponse (BodyResponse (Str.of_codes [0xef; 0xbf; 0xbd]))
                       (Json.JString (calculateEtag (Str.of_codes [0xef; 0xbf; 0xbd])))),
        fs_surrogate)
  /\ Str.of_codes [0xef; 0xbf; 0xbd] <> unpaired_surrogate
  /\ asString (mkResponse (BodyResponse (Str.of_codes [0xef; 0xbf; 0xbd]))
                          (Json.JString (calculateEtag (Str.of_codes [0xef; 0xbf; 0xbd]))))
     = Some (utf8_of [0xfffd])
  /\ createObject demo_store "k" (StringBody (utf8_of [0xfffd])) None fs_home
     = (Ok (write_response (Str.of_codes [0xef; 0xbf; 0xbd]) "application/json"),
        fs_surrogate).
Proof.
  split; [vm_compute; reflexivity|]. split; [vm_compute; reflexivity|].
  split; [intros H; vm_compute in H; discriminate H|].
  split; vm_compute; reflexivity.
Qed.

Lemma deleteObject_removes_witness :
  DELETED = DELETED
  /\ Fs.access fs_deleted (getFilePath demo_store "a/b") = Err Fs.ENOENT
  /\ Fs.access fs_deleted (getMetaPath demo_store "a/b") = Err Fs.ENOENT.
Proof.
  apply (proj1 (deleteObject_removes demo_store "a/b" fs_updated) DELETED fs_deleted).
  vm_compute. reflexivity.
Defined.

Lemma putObjectIfMatch_without_data_witness :
  exists fs',
    putObjectIfMatch demo_store "k" (StringBody "hello") (calculateEtag "old")
      (Some "image/png") fs_meta_only
    = (Ok (write_response "hello" "image/png"), fs')
    /\ Fs.readFile fs' (getFilePath demo_store "k") = Ok "hello"
    /\ stored_meta demo_store fs' "k"
       = Some (meta_record (calculateEtag "hello") "image/png").
Proof.
  assert (H1 : stored_meta demo_store fs_meta_only "k"
               = Some (meta_record (calculateEtag "old") "text/plain"))
    by (vm_compute; reflexivity).
  assert (H2 : Json.get_etag (meta_record (calculateEtag "old") "text/plain")
               = Json.JString (calculateEtag "old"))
    by reflexivity.
  assert (H3 : ~ data_exists demo_store fs_meta_only "k"
               \/ exists c, Fs.readFile fs_meta_only (getFilePath demo_store "k") = Ok c)
    by (left; vm_compute; discriminate).
  destruct (proj1 (putObjectIfMatch_without_data demo_store "k" (StringBody "hello")
                     (calculateEtag "old") (Some "image/png") fs_meta_only _ H1 H2) H3)
    as (fs' & content & type & recorded & Hb & Ht & Hrec & Hput & Hdata & Hmeta).
  rewrite (proj2 Hb (Str.codes "hello") eq_refl eq_refl) in Hput, Hdata, Hmeta.
  rewrite (proj2 Ht (Str.codes "image/png") eq_refl eq_refl) in Hput.
  rewrite (proj2 Hrec (Str.codes "image/png") eq_refl eq_refl) in Hmeta.
  exists fs'. split; [exact Hput|]. split; [exact Hdata|exact Hmeta].
Defined.

(** C9: the data path of the key [a] is a directory, and [a.meta], the
    data artifact of another object, is read as the record of [a], which
    carries the expected etag; [putObjectIfMatch('a')] throws EISDIR. *)
Lemma putObjectIfMatch_on_a_directory :
  stored_meta demo_store fs_record_of_directory "a"
  = Some (meta_record (calculateEtag "hello") "text/plain")
  /\ Fs.access fs_record_of_directory (getFilePath demo_store "a") = Ok tt
  /\ Fs.readFile fs_record_of_directory (getFilePath demo_store "a") = Err Fs.EISDIR
  /\ putObjectIfMatch demo_store "a" (StringBody "x") (calculateEtag "hello") None
       fs_record_of_directory
     = (Err (SystemError Fs.EISDIR), fs_record_of_directory).
Proof. repeat split; vm_compute; reflexivity. Qed.

Lemma createObject_over_orphaned_meta_witness :
  exists fs',
    createObject demo_store "k" (StringBody "hello") (Some "image/png") fs_meta_only
    = (Ok (write_response "hello" "image/png"), fs')
    /\ Fs.readFile fs' (getFilePath demo_store "k") = Ok "hello"
    /\ Fs.readFile fs' (getMetaPath demo_store "k")
       = Ok (Json.stringify_meta (calculateEtag "hello") "image/png")
    /\ stored_meta demo_store fs' "k"
       = Some (meta_record (calculateEtag "hello") "image/png").
Proof.
  assert (H1 : ~ data_exists demo_store fs_meta_only "k")
    by (vm_compute; discriminate).
  assert (H2 : Fs.readFile fs_meta_only (getMetaPath demo_store "k")
               = Ok (Json.stringify_meta (calculateEtag "old") "text/plain"))
    by (vm_compute; reflexivity).
  destruct (createObject_over_orphaned_meta demo_store "k" (StringBody "hello")
              (Some "image/png") fs_meta_only _ H1 H2)
    as (fs' & content & type & recorded & Hb & Ht & Hrec & Hcreate & Hdata & Hfile & Hmeta).
  rewrite (proj2 Hb (Str.codes "hello") eq_refl eq_refl) in Hcreate, Hdata, Hfile, Hmeta.
  rewrite (proj2 Ht (Str.codes "image/png") eq_refl eq_refl) in Hcreate, Hfile.
  rewrite (proj2 Hrec (Str.codes "image/png") eq_refl eq_refl) in Hmeta.
  exists fs'. split; [exact Hcreate|]. split; [exact Hdata|]. split; [exact Hfile|exact Hmeta].
Defined.

(** * Listing *)

Module ListFacts.

Import StrFacts FsFacts PathFacts.

(** Induction on trees, with the property for every entry of a
    directory. *)
Lemma node_induction (P : Fs.node -> Prop) :
  (forall c, P (Fs.File c)) ->
  (forall es, Forall (fun e => P (snd e)) es -> P (Fs.Dir es)) ->
  forall n, P n.
Proof.
  intros HF HD. fix IH 1. intros [c|es]; [apply HF|].
  apply HD. induction es as [|[k m] r IHr]; constructor; [apply IH|apply IHr].
Qed.

Lemma valid_name_inv s :
  valid_name s = true ->
  s <> EmptyString /\ s <> "." /\ s <> ".." /\ Str.mem "/" s = false.
Proof.
  unfold valid_name. rewrite !andb_true_iff, !negb_true_iff.
  intros [[[H1 H2] H3] H4]. repeat split; try assumption;
    intros ->; discriminate.
Qed.

(** Joining a valid name appends one component. *)
Lemma join_name dir name :
  valid_name name = true ->
  Path.components (Path.join dir name) = (Path.components dir ++ [name])%list.
Proof.
  intros H. apply valid_name_inv in H as (H1 & H2 & H3 & H4).
  rewrite components_join, (split_no_slash _ H4). simpl.
  destruct (step_cases (Path.components dir) name)
    as [[-> _]|[[[E|E] _]|[E _]]]; congruence.
Qed.

Lemma walk_dir baseDir es dir :
  walk baseDir (Fs.Dir es) dir
  = flat_map
      (fun e =>
         match snd e with
         | Fs.Dir _ => walk baseDir (snd e) (Path.join dir (fst e))
         | Fs.File content =>
             if negb (Str.endsWith (fst e) ".meta") then
               [mkEntry
                  (Str.replace_backslashes
                     (Path.relative baseDir (Path.join dir (fst e))))
                  (String.length content)]
             else []
         end) es.
Proof.
  cbn [walk]. induction es as [|[name child] r IH]; [reflexivity|].
  cbn [flat_map fst snd]. rewrite <- IH. reflexivity.
Qed.

Lemma relative_components baseDir p q :
  Path.components p = Path.components q ->
  Path.relative baseDir p = Path.relative baseDir q.
Proof. unfold Path.relative. intros ->. reflexivity. Qed.

(** The files of a directory have a path of at least one name. *)
Lemma files_of_dir_nonempty es f : In f (files_of (Fs.Dir es)) -> fst f <> [].
Proof.
  cbn [files_of]. rewrite in_flat_map. intros (e & _ & H).
  apply in_map_iff in H as (g & <- & _). discriminate.
Qed.

Lemma filter_ext_in' {A} (f g : A -> bool) l :
  (forall x, In x l -> f x = g x) -> filter f l = filter g l.
Proof.
  induction l as [|x l IH]; intros H; [reflexivity|]. simpl.
  rewrite (H x) by (left; reflexivity). rewrite IH; [reflexivity|].
  intros y Hy. apply H. right. exact Hy.
Qed.

(** [walk] lists the regular files whose name is not the one of a
    metadata artifact, in the order of the directories. *)
Lemma walk_files baseDir n : forall dir es,
  n = Fs.Dir es -> all_names valid_name n = true ->
  walk baseDir n dir
  = map (entry_of baseDir (Path.components dir)) (filter non_meta (files_of n)).
Proof.
  induction n as [c|es0 IH] using node_induction; intros dir es E Hv; [discriminate|].
  clear E es. rewrite walk_dir. cbn [files_of all_names] in *.
  induction es0 as [|[name child] r IHr]; [reflexivity|].
  cbn [flat_map fst snd forallb] in *.
  apply andb_true_iff in Hv as [Hv Hr]. apply andb_true_iff in Hv as [Hname Hchild].
  inversion IH as [|? ? IHc IHrest]; subst.
  rewrite filter_app, map_app, <- (IHr IHrest Hr). f_equal. clear IHr IHrest IH Hr.
  cbn [snd] in IHc.
  assert (Hkey : forall p c,
    entry_of baseDir (Path.components dir) (name :: p, c)
    = entry_of baseDir (Path.components (Path.join dir name)) (p, c)).
  { intros p c. unfold entry_of. cbn [fst snd]. f_equal.
    apply f_equal, relative_components. cbn [Path.components].
    rewrite (join_name _ _ Hname), <- app_assoc. reflexivity. }
  destruct child as [c|sub].
  - cbn [files_of map filter]. unfold non_meta at 1. cbn [fst last].
    destruct (Str.endsWith name ".meta"); [reflexivity|].
    cbn [negb map]. rewrite Hkey. unfold entry_of. cbn [fst snd].
    rewrite app_nil_r.
    rewrite (relative_components baseDir (Path.join dir name)
               (Path.mk (Path.components (Path.join dir name)) false)) by reflexivity.
    reflexivity.
  - rewrite (IHc (Path.join dir name) sub eq_refl Hchild).
    set (fs := files_of (Fs.Dir sub)).
    assert (Hne : forall f, In f fs -> fst f <> []) by apply files_of_dir_nonempty.
    clearbody fs. clear IHc Hchild.
    induction fs as [|[p c] fs IHfs]; [reflexivity|].
    cbn [map filter fst snd] in *.
    assert (Hp : p <> []) by (apply (Hne (p, c)); left; reflexivity).
    assert (Hnm : non_meta (name :: p, c) = non_meta (p, c)).
    { unfold non_meta. cbn [fst]. destruct p; [congruence|reflexivity]. }
    rewrite Hnm.
    specialize (IHfs (fun f Hf => Hne f (or_intror Hf))).
    destruct (non_meta (p, c)); cbn [map]; [rewrite Hkey|]; rewrite IHfs; reflexivity.
Qed.

Lemma distinct_inv x r :
  distinct (x :: r) = true -> ~ In x r /\ distinct r = true.
Proof.
  cbn [distinct]. rewrite andb_true_iff, negb_true_iff. intros [H1 H2].
  split; [|exact H2]. intros Hin.
  assert (E : existsb (String.eqb x) r = true).
  { apply existsb_exists. exists x. split; [exact Hin|apply String.eqb_refl]. }
  congruence.
Qed.

Lemma assoc_in name child es :
  Fs.assoc name es = Some child -> In (name, child) es.
Proof.
  induction es as [|[k m] r IH]; simpl; [discriminate|].
  destruct (String.eqb_spec k name) as [->|Hne].
  - intros H. injection H as ->. left. reflexivity.
  - intros H. right. apply IH, H.
Qed.

Lemma in_assoc name child es :
  distinct (map fst es) = true -> In (name, child) es ->
  Fs.assoc name es = Some child.
Proof.
  induction es as [|[k m] r IH]; [contradiction|].
  cbn [map fst]. intros Hd. apply distinct_inv in Hd as [Hnotin Hd].
  intros [H|H]; simpl.
  - injection H as -> ->. rewrite String.eqb_refl. reflexivity.
  - destruct (String.eqb_spec k name) as [->|Hne]; [|apply IH; assumption].
    exfalso. apply Hnotin. apply in_map_iff. exists (name, child). auto.
Qed.

(** The files of a tree are the paths at which a regular file is found. *)
Lemma files_of_find n :
  distinct_names n = true ->
  forall p c, In (p, c) (files_of n) <-> Fs.find n p = Ok (Fs.File c).
Proof.
  induction n as [c0|es IH] using node_induction; intros Hd p c.
  - cbn [files_of]. split.
    + intros [H|[]]. injection H as <- <-. reflexivity.
    + destruct p; simpl; [|discriminate]. intros H. injection H as ->. left. reflexivity.
  - cbn [files_of distinct_names] in *. apply andb_true_iff in Hd as [Hnames Hsub].
    rewrite in_flat_map. split.
    + intros ([name child] & Hin & Hf). cbn [fst snd] in Hf.
      apply in_map_iff in Hf as ([p' c'] & E & Hf). cbn [fst snd] in E.
      injection E as <- <-. simpl. rewrite (in_assoc _ _ _ Hnames Hin).
      rewrite Forall_forall in IH. apply (IH _ Hin); [|exact Hf].
      rewrite forallb_forall in Hsub. apply (Hsub _ Hin).
    + destruct p as [|name p']; simpl; [discriminate|].
      destruct (Fs.assoc name es) as [child|] eqn:Ea; [|discriminate].
      intros Hf. apply assoc_in in Ea. exists (name, child). split; [exact Ea|].
      apply in_map_iff. exists (p', c). split; [reflexivity|].
      rewrite Forall_forall in IH. apply (IH _ Ea); [|exact Hf].
      rewrite forallb_forall in Hsub. apply (Hsub _ Ea).
Qed.

(** No file is listed twice. *)
Lemma files_of_nodup n :
  distinct_names n = true -> NoDup (map fst (files_of n)).
Proof.
  induction n as [c0|es IH] using node_induction; intros Hd.
  - cbn. constructor; [intros []|constructor].
  - cbn [files_of distinct_names] in *. apply andb_true_iff in Hd as [Hnames Hsub].
    induction es as [|[name child] r IHr]; [constructor|].
    cbn [flat_map map fst snd forallb] in *.
    apply distinct_inv in Hnames as [Hnotin Hnames].
    apply andb_true_iff in Hsub as [Hchild Hsub].
    inversion IH as [|? ? IHc IHrest]; subst. cbn [snd] in IHc.
    rewrite map_app. apply NoDup_app.
    + rewrite map_map. cbn [fst].
      rewrite <- (map_map fst (cons name)).
      apply NoDup_map_NoDup_ForallPairs; [|apply IHc, Hchild].
      intros x y _ _ E. injection E. auto.
    + apply IHr; assumption.
    + intros p Hp Hq.
      apply in_map_iff in Hp as (f & <- & Hf).
      apply in_map_iff in Hf as (g & <- & _). cbn [fst] in Hq.
      apply in_map_iff in Hq as (f' & E & Hf').
      apply in_flat_map in Hf' as ([name' child'] & Hin & Hg).
      apply in_map_iff in Hg as (g' & <- & _). cbn [fst snd] in E.
      injection E as E _. subst name'.
      apply Hnotin. apply in_map_iff. exists (name, child'). auto.
Qed.

(** The names on the path of a file are names of the tree. *)
Lemma files_of_names P n :
  all_names P n = true ->
  forall f, In f (files_of n) -> forallb P (fst f) = true.
Proof.
  induction n as [c0|es IH] using node_induction; intros Hn f.
  - cbn [files_of]. intros [<-|[]]. reflexivity.
  - cbn [files_of all_names] in *. rewrite in_flat_map.
    intros ([name child] & Hin & Hf). cbn [fst snd] in Hf.
    apply in_map_iff in Hf as (g & <- & Hg). cbn [fst forallb].
    rewrite forallb_forall in Hn. specialize (Hn _ Hin). cbn [fst snd] in Hn.
    apply andb_true_iff in Hn as [HP Hc]. rewrite HP.
    rewrite Forall_forall in IH. apply (IH _ Hin Hc _ Hg).
Qed.

Lemma nodup_fst_filter {A B} (f : A * B -> bool) l :
  NoDup (map fst l) -> NoDup (map fst (filter f l)).
Proof.
  induction l as [|x l IHl]; intros H; [constructor|].
  cbn [map] in H. apply NoDup_cons_iff in H as [Hx Hl].
  cbn [filter]. destruct (f x); [|apply IHl, Hl].
  cbn [map]. constructor; [|apply IHl, Hl].
  intros Hin. apply Hx. apply in_map_iff in Hin as (g & E & Hg).
  apply filter_In in Hg as [Hg _]. apply in_map_iff. eauto.
Qed.

Lemma strip_common_prefix l p : Path.strip_common l (l ++ p) = ([], p).
Proof.
  induction l as [|x l IH]; simpl.
  - destruct p; reflexivity.
  - rewrite String.eqb_refl. exact IH.
Qed.

(** Below the bucket root the relative path is the path from the root. *)
Lemma relative_under base p t :
  Path.relative base (Path.mk (Path.components base ++ p) t) = String.concat "/" p.
Proof.
  unfold Path.relative. cbn [Path.components].
  rewrite strip_common_prefix. reflexivity.
Qed.

Lemma concat_cons x y r :
  String.concat "/" (x :: y :: r) = x ++ String "/" (String.concat "/" (y :: r)).
Proof. reflexivity. Qed.

(** The pieces of names joined by separators are the names. *)
Lemma split_concat p :
  p <> [] -> forallb no_slash p = true -> Path.split (String.concat "/" p) = p.
Proof.
  induction p as [|x [|y r] IH]; intros Hne Hp; [congruence| |].
  - cbn in Hp. rewrite andb_true_r in Hp. apply negb_true_iff in Hp.
    apply split_no_slash, Hp.
  - rewrite concat_cons, split_app_slash.
    cbn [forallb] in Hp. apply andb_true_iff in Hp as [Hx Hp].
    apply negb_true_iff in Hx. rewrite (split_no_slash _ Hx), IH; [reflexivity|discriminate|exact Hp].
Qed.

Lemma replace_backslashes_app_inv s : forall a b,
  Str.replace_backslashes s = a ++ b ->
  exists s1 s2, s = s1 ++ s2
    /\ Str.replace_backslashes s1 = a /\ Str.replace_backslashes s2 = b.
Proof.
  induction s as [|c s IH]; intros a b H.
  - simpl in H. symmetry in H. apply append_eq_nil in H as [-> ->].
    exists EmptyString, EmptyString. auto.
  - destruct a as [|d a].
    + exists EmptyString, (String c s). auto.
    + cbn [Str.replace_backslashes append] in H. injection H as Hd H.
      destruct (IH _ _ H) as (s1 & s2 & -> & <- & <-).
      exists (String c s1), s2. cbn [Str.replace_backslashes append].
      rewrite Hd. auto.
Qed.

Lemma replace_backslash_char c d :
  d <> "/"%char -> (if Ascii.eqb c "\" then "/"%char else c) = d -> c = d.
Proof. destruct (Ascii.eqb c "\"); congruence. Qed.

Lemma replace_backslashes_meta s :
  Str.replace_backslashes s = ".meta" -> s = ".meta".
Proof.
  destruct s as [|c1 [|c2 [|c3 [|c4 [|c5 [|c6 s]]]]]]; try discriminate.
  cbn [Str.replace_backslashes]. intros H. injection H as H1 H2 H3 H4 H5.
  apply replace_backslash_char in H1, H2, H3, H4, H5; try discriminate.
  congruence.
Qed.

Lemma replace_backslashes_id s :
  no_backslash s = true -> Str.replace_backslashes s = s.
Proof.
  unfold no_backslash. rewrite negb_true_iff.
  induction s as [|c s IH]; [reflexivity|].
  cbn [Str.mem Str.replace_backslashes]. intros H.
  apply orb_false_iff in H as [Hc Hs]. rewrite Ascii.eqb_sym in Hc.
  rewrite Hc, (IH Hs). reflexivity.
Qed.

Lemma no_backslash_concat p :
  forallb no_backslash p = true -> no_backslash (String.concat "/" p) = true.
Proof.
  unfold no_backslash.
  induction p as [|x [|y r] IH]; intros H; [reflexivity| |].
  - cbn in H. rewrite andb_true_r in H. exact H.
  - rewrite concat_cons. cbn [forallb] in H. apply andb_true_iff in H as [Hx H].
    apply negb_true_iff in Hx. apply negb_true_iff.
    rewrite mem_append, Hx. cbn [Str.mem orb].
    specialize (IH H). apply negb_true_iff in IH. rewrite IH. reflexivity.
Qed.

(** A key that ends with the suffix of metadata artifacts is the key of
    a file whose name ends with it. *)
Lemma key_of_meta p :
  p <> [] -> forallb no_slash p = true ->
  Str.endsWith (key_of p) ".meta" = true ->
  Str.endsWith (last p EmptyString) ".meta" = true.
Proof.
  intros Hne Hp H. unfold key_of in H. apply endsWith_iff in H as [y H].
  apply replace_backslashes_app_inv in H as (s1 & s2 & E & _ & H2).
  apply replace_backslashes_meta in H2. subst s2.
  apply (f_equal Path.split) in E.
  rewrite (split_concat _ Hne Hp), split_append_suffix in E by reflexivity.
  rewrite E, last_last. apply endsWith_iff. eauto.
Qed.

(** Paths of names without backslash have different keys. *)
Lemma key_of_inj p q :
  p <> [] -> q <> [] ->
  forallb no_slash p = true -> forallb no_slash q = true ->
  forallb no_backslash p = true -> forallb no_backslash q = true ->
  key_of p = key_of q -> p = q.
Proof.
  intros Hp Hq Sp Sq Bp Bq. unfold key_of.
  rewrite !replace_backslashes_id by (apply no_backslash_concat; assumption).
  intros E. apply (f_equal Path.split) in E.
  rewrite !split_concat in E by assumption. exact E.
Qed.

Lemma valid_no_slash p : forallb valid_name p = true -> forallb no_slash p = true.
Proof.
  induction p as [|x p IH]; [reflexivity|]. cbn [forallb].
  rewrite !andb_true_iff. intros [Hx Hp]. split; [|apply IH, Hp].
  apply valid_name_inv in Hx as (_ & _ & _ & Hx). unfold no_slash. rewrite Hx. reflexivity.
Qed.

End ListFacts.

Section Listing.

Import StrFacts FsFacts PathFacts ListFacts StoreFacts.

Variable store : S3StoreMock.

Lemma list_spec prefix fs :
  list_ store prefix fs
  = match Fs.access fs (Path.join (basePath store) prefix) with
    | Err _ => (Ok [], fs)
    | Ok _ =>
        match Fs.readdir fs (Path.join (basePath store) prefix) with
        | Ok entries =>
            (Ok (batches (walk (basePath store) (Fs.Dir entries)
                            (Path.join (basePath store) prefix))), fs)
        | Err c => (Err (SystemError c), fs)
        end
    end.
Proof.
  unfold list_, bind, try_catch, fs_read, ret, batches.
  destruct (Fs.access fs _) as [[]|e]; [|reflexivity]. cbn [negb].
  destruct (Fs.readdir fs _) as [entries|c]; [|reflexivity].
  destruct (0 <? _)%nat; reflexivity.
Qed.

(** C7, as amended.  When the prefix path does not exist, [list] yields
    nothing.  When it is a directory (of a well-formed tree), the regular
    files below it whose name does not end in [.meta] yield one entry
    each, in the order of a depth-first traversal: the entries are the
    image of the list [listed_files], which has no repetition and holds
    exactly those files; the key of an entry is the path of its file
    relative to the bucket root with [/] between the names and for every
    backslash; and the entries come in one batch, or in none when there
    is no entry.  Without prefix no key ends in [.meta], and the keys
    differ from one another when no name holds a backslash. *)
Theorem list_lists_regular_files (prefix : string) (fs : Fs.node) :
  (forall e,
     Fs.access fs (Path.join (basePath store) prefix) = Err e ->
     list_ store prefix fs = (Ok [], fs))
  /\ (forall entries,
       Fs.readdir fs (Path.join (basePath store) prefix) = Ok entries ->
       well_formed (Fs.Dir entries) = true ->
       NoDup (map fst (listed_files entries))
       /\ (forall p c,
             In (p, c) (listed_files entries)
             <-> Fs.find (Fs.Dir entries) p = Ok (Fs.File c)
                 /\ Str.endsWith (last p EmptyString) ".meta" = false)
       /\ list_ store prefix fs
          = (Ok (batches
                   (map (entry_of (basePath store)
                           (Path.components (Path.join (basePath store) prefix)))
                        (listed_files entries))), fs)
       /\ (prefix = EmptyString ->
           Forall (fun f =>
                     entry_of (basePath store) (Path.components (basePath store)) f
                     = mkEntry (key_of (fst f)) (String.length (snd f))
                     /\ Str.endsWith (key_of (fst f)) ".meta" = false)
                  (listed_files entries)
           /\ (backslash_free (Fs.Dir entries) = true ->
               NoDup (map (fun f => key_of (fst f)) (listed_files entries))))).
Proof.
  split.
  - intros e H. rewrite list_spec, H. reflexivity.
  - intros entries Hread Hwf. unfold listed_files.
    unfold well_formed in Hwf. apply andb_true_iff in Hwf as [Hdist Hvalid].
    assert (Hmem : forall p c,
      In (p, c) (filter non_meta (files_of (Fs.Dir entries)))
      <-> Fs.find (Fs.Dir entries) p = Ok (Fs.File c)
          /\ Str.endsWith (last p EmptyString) ".meta" = false).
    { intros p c. rewrite filter_In, (files_of_find _ Hdist).
      unfold non_meta. cbn [fst]. rewrite negb_true_iff. reflexivity. }
    assert (Hnodup : NoDup (map fst (filter non_meta (files_of (Fs.Dir entries))))).
    { apply nodup_fst_filter, files_of_nodup, Hdist. }
    split; [exact Hnodup|]. split; [exact Hmem|]. split.
    + rewrite list_spec. unfold Fs.access, Fs.readdir in *.
      destruct (Fs.lookup fs _) as [[c|es]|e]; try discriminate.
      injection Hread as ->.
      rewrite (walk_files _ _ _ entries eq_refl Hvalid). reflexivity.
    + intros _.
      assert (Hfiles : forall f, In f (filter non_meta (files_of (Fs.Dir entries))) ->
                fst f <> [] /\ forallb valid_name (fst f) = true
                /\ Str.endsWith (last (fst f) EmptyString) ".meta" = false).
      { intros f Hf. apply filter_In in Hf as [Hf Hn].
        split; [apply (files_of_dir_nonempty _ _ Hf)|].
        split; [apply (files_of_names _ _ Hvalid _ Hf)|].
        unfold non_meta in Hn. apply negb_true_iff in Hn. exact Hn. }
      split.
      * apply Forall_forall. intros f Hf.
        destruct (Hfiles f Hf) as (Hne & Hv & Hn). split.
        -- unfold entry_of, key_of. rewrite relative_under. reflexivity.
        -- destruct (Str.endsWith (key_of (fst f)) ".meta") eqn:E; [|reflexivity].
           apply key_of_meta in E; [congruence|exact Hne|apply valid_no_slash, Hv].
      * intros Hb. rewrite <- (map_map fst key_of).
        apply NoDup_map_NoDup_ForallPairs; [|exact Hnodup].
        intros p q Hp Hq E.
        apply in_map_iff in Hp as (f & <- & Hf). apply in_map_iff in Hq as (g & <- & Hg).
        destruct (Hfiles f Hf) as (Hne1 & Hv1 & _).
        destruct (Hfiles g Hg) as (Hne2 & Hv2 & _).
        apply filter_In in Hf as [Hf _]. apply filter_In in Hg as [Hg _].
        apply key_of_inj; auto using valid_no_slash.
        -- apply (files_of_names _ _ Hb _ Hf).
        -- apply (files_of_names _ _ Hb _ Hg).
Qed.

End Listing.

(** C7: the object [notes.meta] can be read, and [list()] does not
    enumerate it; and [list('a/b')], on the key of an object, throws. *)
Lemma list_skips_meta_named_object :
  getObject demo_store "notes.meta" fs_notes_meta
  = (Ok (mkResponse (BodyResponse "hello") (Json.JString (calculateEtag "hello"))),
     fs_notes_meta)
  /\ list_ demo_store EmptyString fs_notes_meta = (Ok [], fs_notes_meta)
  /\ list_ demo_store "a/b" fs_created = (Err (SystemError Fs.ENOTDIR), fs_created).
Proof. repeat split; vm_compute; reflexivity. Qed.

Lemma list_lists_regular_files_witness :
  list_ demo_store "missing" fs_created = (Ok [], fs_created)
  /\ NoDup (map fst (listed_files bucket_entries))
  /\ (forall p c,
        In (p, c) (listed_files bucket_entries)
        <-> Fs.find (Fs.Dir bucket_entries) p = Ok (Fs.File c)
            /\ Str.endsWith (last p EmptyString) ".meta" = false)
  /\ list_ demo_store EmptyString fs_updated
     = (Ok (batches
              (map (entry_of (basePath demo_store)
                      (Path.components (Path.join (basePath demo_store) EmptyString)))
                   (listed_files bucket_entries))), fs_updated)
  /\ (EmptyString = EmptyString ->
      Forall (fun f =>
                entry_of (basePath demo_store) (Path.components (basePath demo_store)) f
                = mkEntry (key_of (fst f)) (String.length (snd f))
                /\ Str.endsWith (key_of (fst f)) ".meta" = false)
             (listed_files bucket_entries)
      /\ (backslash_free (Fs.Dir bucket_entries) = true ->
          NoDup (map (fun f => key_of (fst f)) (listed_files bucket_entries)))).
Proof.
  split.
  - apply (proj1 (list_lists_regular_files demo_store "missing" fs_created) Fs.ENOENT).
    vm_compute. reflexivity.
  - apply (proj2 (list_lists_regular_files demo_store EmptyString fs_updated) bucket_entries).
    + vm_compute. reflexivity.
    + vm_compute. reflexivity.
Defined.

(** * Further facts about the operations *)

Module OperationFacts.

Import StrFacts FsFacts PathFacts JsonFacts StoreFacts Json.

Section WithStore.

Variable store : S3StoreMock.

Lemma meta_components_nonempty key : Path.components (getMetaPath store key) <> [].
Proof.
  unfold getMetaPath. rewrite meta_components.
  destruct (key_parent (basePath store) key); discriminate.
Qed.

(** [getObject], case by case on the read of the data artifact. *)
Lemma getObject_spec key fs :
  getObject store key fs
  = match Fs.readFile fs (getFilePath store key) with
    | Ok content =>
        (Ok (mkResponse (BodyResponse content)
               (get_etag (match stored_meta store fs key with
                          | Some v => v
                          | None => JNull
                          end))), fs)
    | Err Fs.ENOENT => (Err (NoSuchKey "Error"), fs)
    | Err c => (Err (SystemError c), fs)
    end.
Proof.
  unfold getObject, bind. rewrite readMeta_spec.
  unfold try_catch, bind, fs_read, ret, throw.
  destruct (Fs.readFile fs (getFilePath store key)) as [c|[]]; reflexivity.
Qed.

(** The stored record carries the expected etag. *)
Lemma matching_record key etag fs m :
  stored_meta store fs key = Some m -> get_etag m = JString etag ->
  ~ etag_mismatch store fs key etag.
Proof.
  intros Hm He [H|(m' & H & Hne)]; rewrite Hm in H; [discriminate|].
  injection H as <-. contradiction.
Qed.

Lemma not_mismatch_inv key etag fs :
  ~ etag_mismatch store fs key etag ->
  exists m, stored_meta store fs key = Some m /\ get_etag m = JString etag.
Proof.
  intros H. unfold etag_mismatch in H.
  destruct (stored_meta store fs key) as [m|]; [|contradiction H; auto].
  exists m. split; [reflexivity|].
  destruct (strict_eq_string (get_etag m) etag) eqn:E.
  - apply strict_eq_string_true, E.
  - contradiction H. right. exists m. split; [reflexivity|].
    intros Heq. apply strict_eq_string_true in Heq. congruence.
Qed.

Lemma stored_meta_file key fs m :
  stored_meta store fs key = Some m ->
  exists x, Fs.readFile fs (getMetaPath store key) = Ok x.
Proof.
  unfold stored_meta.
  destruct (Fs.readFile fs (getMetaPath store key)) as [x|]; [eauto|discriminate].
Qed.

(** A call of [putObjectIfMatch] that returns has passed the guard. *)
Lemma putObjectIfMatch_inv key body etag contentType fs r fs' :
  putObjectIfMatch store key body etag contentType fs = (Ok r, fs') ->
  ~ etag_mismatch store fs key etag
  /\ store_object store key (to_content body) (default_contentType contentType) fs
     = (Ok r, fs').
Proof.
  intros H.
  assert (Hok : ~ etag_mismatch store fs key etag).
  { intros Hm. apply stale_iff in Hm. revert H.
    unfold putObjectIfMatch, bind. rewrite readMeta_spec, Hm. discriminate. }
  split; [exact Hok|]. rewrite <- (putObjectIfMatch_unfold _ _ body etag _ _ Hok). exact H.
Qed.

Lemma putObjectIfMatch_cases key body etag contentType fs :
  putObjectIfMatch store key body etag contentType fs
  = if stale (match stored_meta store fs key with Some v => v | None => JNull end) etag
    then (Err (StaleDataError STALE_PUT), fs)
    else store_object store key (to_content body) (default_contentType contentType) fs.
Proof.
  unfold putObjectIfMatch, bind at 1. rewrite readMeta_spec.
  destruct (stale _ etag); reflexivity.
Qed.

Lemma getObjectIfMatch_cases key etag fs :
  getObjectIfMatch store key etag fs
  = match Fs.access fs (getFilePath store key) with
    | Err _ => (Err (NoSuchKey "NoSuchKey"), fs)
    | Ok _ =>
        if stale (match stored_meta store fs key with Some v => v | None => JNull end) etag
        then (Err (StaleDataError STALE_GET), fs)
        else getObject store key fs
    end.
Proof.
  unfold getObjectIfMatch, bind. rewrite fileExists_spec.
  destruct (Fs.access fs (getFilePath store key)); simpl; [|reflexivity].
  rewrite readMeta_spec. destruct (stale _ etag); reflexivity.
Qed.

Lemma deleteObjectIfMatch_unfold key etag fs :
  deleteObjectIfMatch store key etag fs
  = if stale (match stored_meta store fs key with Some v => v | None => JNull end) etag
    then (Err (StaleDataError STALE_DELETE), fs)
    else deleteObject store key fs.
Proof.
  unfold deleteObjectIfMatch, bind. rewrite readMeta_spec.
  destruct (stale _ etag); reflexivity.
Qed.

(** [deleteObject] on two paths that hold a regular file or nothing. *)
Lemma deleteObject_removable key fs :
  removable fs (getFilePath store key) ->
  removable fs (getMetaPath store key) ->
  exists fs',
    deleteObject store key fs = (Ok DELETED, fs')
    /\ Fs.access fs' (getFilePath store key) = Err Fs.ENOENT
    /\ Fs.access fs' (getMetaPath store key) = Err Fs.ENOENT.
Proof.
  intros HF HM.
  pose proof (meta_components_nonempty key) as HneM.
  assert (HneF : Path.components (getFilePath store key) <> []).
  { intros E. destruct (removable_root_dir _ _ HM HneM) as [es ->].
    apply (removable_not_dir _ _ es HF). rewrite E. reflexivity. }
  destruct (unlink_if_present_removable _ _ HF HneF) as (fs1 & E1 & Hkeep).
  assert (HM1 : removable fs1 (getMetaPath store key)).
  { apply Hkeep; [|exact HM]. intros E. symmetry in E.
    revert E. apply file_meta_differ. }
  destruct (unlink_if_present_removable _ _ HM1 HneM) as (fs2 & E2 & _).
  exists fs2. unfold deleteObject, bind, ret. rewrite E1, E2.
  split; [reflexivity|].
  apply unlink_if_present_ok in E1 as [H1 _].
  apply unlink_if_present_ok in E2 as [H2 H3]. auto.
Qed.

Lemma deleteObject_inv key fs r fs' :
  deleteObject store key fs = (Ok r, fs') ->
  r = DELETED
  /\ Fs.access fs' (getFilePath store key) = Err Fs.ENOENT
  /\ Fs.access fs' (getMetaPath store key) = Err Fs.ENOENT.
Proof.
  unfold deleteObject, bind, ret.
  destruct (unlink_if_present (getFilePath store key) fs) as [[[]|e] fs1] eqn:E1;
    [|discriminate].
  destruct (unlink_if_present (getMetaPath store key) fs1) as [[[]|e] fs2] eqn:E2;
    [|discriminate].
  intros H. injection H as <- <-.
  apply unlink_if_present_ok in E1 as [H1 _].
  apply unlink_if_present_ok in E2 as [H2 H3]. auto.
Qed.

Lemma access_enoent_readFile fs p :
  Fs.access fs p = Err Fs.ENOENT -> Fs.readFile fs p = Err Fs.ENOENT.
Proof.
  unfold Fs.access, Fs.readFile.
  destruct (Fs.lookup fs p) as [n|e]; [discriminate|]. intros H. injection H as ->. reflexivity.
Qed.

Lemma readFile_access fs p c : Fs.readFile fs p = Ok c -> Fs.access fs p = Ok tt.
Proof.
  unfold Fs.access, Fs.readFile.
  destruct (Fs.lookup fs p) as [[x|es]|e]; try discriminate. reflexivity.
Qed.

Lemma createObject_inv key body contentType fs r fs' :
  createObject store key body contentType fs = (Ok r, fs') ->
  r = write_response (to_content body) (default_contentType contentType)
  /\ Fs.readFile fs' (getFilePath store key) = Ok (to_content body)
  /\ Fs.readFile fs' (getMetaPath store key)
     = Ok (stringify_meta (calculateEtag (to_content body)) (default_contentType contentType)).
Proof.
  rewrite createObject_unfold.
  destruct (Fs.access fs (getFilePath store key)); [discriminate|].
  apply store_object_ok.
Qed.

End WithStore.

End OperationFacts.

Module FrameFacts.

Import StrFacts FsFacts PathFacts JsonFacts StoreFacts OperationFacts Json.

(** What a bind leaves behind satisfies [P] when each of its two parts
    does. *)
Lemma bind_keeps {A B} (P : Fs.node -> Prop) (m : M A) (k : A -> M B) fs :
  P (snd (m fs)) ->
  (forall a fs1, m fs = (Ok a, fs1) -> P (snd (k a fs1))) ->
  P (snd (bind m k fs)).
Proof.
  unfold bind. destruct (m fs) as [[a|e] fs1]; simpl; intros H1 H2; [|exact H1].
  apply H2. reflexivity.
Qed.

Lemma fs_update_keeps (P : Fs.node -> Prop) op fs :
  P fs -> (forall fs1, op fs = Ok fs1 -> P fs1) -> P (snd (fs_update op fs)).
Proof.
  unfold fs_update. destruct (op fs) as [fs1|e]; simpl; intros H1 H2; [|exact H1].
  apply H2. reflexivity.
Qed.

Lemma fs_update_inv op fs a fs1 : fs_update op fs = (Ok a, fs1) -> op fs = Ok fs1.
Proof.
  unfold fs_update. destruct (op fs) as [fs2|e]; [|discriminate].
  intros H. injection H as _ <-. reflexivity.
Qed.

Lemma mkdir_keeps fs d fs1 p c :
  Fs.mkdir_recursive fs d = Ok fs1 ->
  Fs.readFile fs p = Ok c -> Fs.readFile fs1 p = Ok c.
Proof.
  intros Hd Hr. apply mkdir_inv in Hd.
  apply readFile_find in Hr as (Hn & Ht & Hf).
  apply readFile_find. repeat split; auto.
  apply (find_mkdirp _ _ _ _ _ Hd Hf).
Qed.

Lemma writeFile_keeps fs q x fs1 p c :
  Fs.writeFile fs q x = Ok fs1 ->
  Path.components p <> Path.components q ->
  Fs.readFile fs p = Ok c -> Fs.readFile fs1 p = Ok c.
Proof.
  intros Hw Hne Hr. apply writeFile_inv in Hw as (_ & _ & Hw).
  apply readFile_find in Hr as (Hn & Ht & Hf).
  apply readFile_find. repeat split; auto.
  apply (find_write_other _ _ _ _ _ _ _ Hw Hne Hf).
Qed.

Lemma unlink_keeps fs q fs1 p c :
  Fs.unlink fs q = Ok fs1 ->
  Path.components p <> Path.components q ->
  Fs.readFile fs p = Ok c -> Fs.readFile fs1 p = Ok c.
Proof.
  unfold Fs.unlink. destruct (Fs.has_nul q); [discriminate|].
  intros Hu Hne Hr.
  apply readFile_find in Hr as (Hn & Ht & Hf).
  apply readFile_find. repeat split; auto.
  apply (find_unlink_other _ _ _ _ _ _ Hu Hne Hf).
Qed.

Section WithStore.

Variable store : S3StoreMock.

Lemma ensureDir_keeps q fs p c :
  Fs.readFile fs p = Ok c -> Fs.readFile (snd (ensureDir q fs)) p = Ok c.
Proof.
  intros H. unfold ensureDir. apply fs_update_keeps; [exact H|].
  intros fs1 H1. apply (mkdir_keeps _ _ _ _ _ H1 H).
Qed.

Lemma ensureDir_inv q fs a fs1 p c :
  ensureDir q fs = (Ok a, fs1) ->
  Fs.readFile fs p = Ok c -> Fs.readFile fs1 p = Ok c.
Proof.
  intros H Hr. pose proof (ensureDir_keeps q fs p c Hr) as H'.
  rewrite H in H'. exact H'.
Qed.

Lemma writeMeta_keeps key etag contentType fs p c :
  Path.components p <> Path.components (getMetaPath store key) ->
  Fs.readFile fs p = Ok c ->
  Fs.readFile (snd (writeMeta store key etag contentType fs)) p = Ok c.
Proof.
  intros HM Hr. unfold writeMeta.
  apply bind_keeps; [apply ensureDir_keeps, Hr|].
  intros a fs1 E1. pose proof (ensureDir_inv _ _ _ _ _ _ E1 Hr) as Hr1.
  apply fs_update_keeps; [exact Hr1|].
  intros fs2 E2. apply (writeFile_keeps _ _ _ _ _ _ E2 HM Hr1).
Qed.

(** The writes of [store_object] leave every other regular file as it
    was, at whatever step they stop. *)
Lemma store_object_keeps key content contentType fs p c :
  other_path store key p ->
  Fs.readFile fs p = Ok c ->
  Fs.readFile (snd (store_object store key content contentType fs)) p = Ok c.
Proof.
  intros [HF HM] Hr. unfold store_object.
  apply bind_keeps; [apply ensureDir_keeps, Hr|].
  intros a fs1 E1. pose proof (ensureDir_inv _ _ _ _ _ _ E1 Hr) as Hr1.
  apply bind_keeps.
  { apply fs_update_keeps; [exact Hr1|].
    intros fs2 E2. apply (writeFile_keeps _ _ _ _ _ _ E2 HF Hr1). }
  intros a2 fs2 E2. apply fs_update_inv in E2.
  pose proof (writeFile_keeps _ _ _ _ _ _ E2 HF Hr1) as Hr2.
  apply bind_keeps; [apply writeMeta_keeps; assumption|].
  intros a3 fs3 E3.
  pose proof (writeMeta_keeps key (calculateEtag content) contentType fs2 p c HM Hr2) as H.
  rewrite E3 in H. exact H.
Qed.

Lemma unlink_if_present_keeps q fs p c :
  Path.components p <> Path.components q ->
  Fs.readFile fs p = Ok c ->
  Fs.readFile (snd (unlink_if_present q fs)) p = Ok c.
Proof.
  intros Hne Hr. rewrite unlink_if_present_spec.
  destruct (Fs.unlink fs q) as [fs1|[]] eqn:E; simpl; try exact Hr.
  apply (unlink_keeps _ _ _ _ _ E Hne Hr).
Qed.

Lemma deleteObject_keeps key fs p c :
  other_path store key p ->
  Fs.readFile fs p = Ok c ->
  Fs.readFile (snd (deleteObject store key fs)) p = Ok c.
Proof.
  intros [HF HM] Hr. unfold deleteObject.
  apply bind_keeps; [apply unlink_if_present_keeps; assumption|].
  intros a fs1 E1.
  assert (Hr1 : Fs.readFile fs1 p = Ok c).
  { pose proof (unlink_if_present_keeps (getFilePath store key) fs p c HF Hr) as H.
    rewrite E1 in H. exact H. }
  apply bind_keeps; [apply unlink_if_present_keeps; assumption|].
  intros a2 fs2 E2. simpl.
  pose proof (unlink_if_present_keeps (getMetaPath store key) fs1 p c HM Hr1) as H.
  rewrite E2 in H. exact H.
Qed.

End WithStore.

End FrameFacts.

Module KeyFacts.

Import StrFacts FsFacts PathFacts JsonFacts StoreFacts OperationFacts ListFacts Json.

Lemma endsWith_cons c s :
  s <> EmptyString -> Str.endsWith (String c s) "/" = Str.endsWith s "/".
Proof.
  intros Hs. apply eq_true_iff_eq. rewrite !endsWith_iff. split.
  - intros [p Hp]. destruct p as [|d p].
    + simpl in Hp. injection Hp as _ Hp. contradiction.
    + simpl in Hp. injection Hp as _ Hp. eauto.
  - intros [p ->]. exists (String c p). reflexivity.
Qed.

Lemma endsWith_append s t :
  t <> EmptyString -> Str.endsWith (s ++ t) "/" = Str.endsWith t "/".
Proof.
  intros Ht. induction s as [|c s IH]; [reflexivity|].
  simpl. rewrite endsWith_cons; [exact IH|].
  intros E. apply append_eq_nil in E as [_ E]. contradiction.
Qed.

Lemma meta_not_trailing key : Str.endsWith (key ++ ".meta") "/" = false.
Proof. rewrite endsWith_append; [reflexivity|discriminate]. Qed.

Lemma append_meta_nonempty key : key ++ ".meta" <> EmptyString.
Proof. intros E. apply append_eq_nil in E as [_ E]. discriminate. Qed.

Lemma join_nonempty base arg :
  arg <> EmptyString ->
  Path.join base arg
  = Path.mk (Path.normalize (Path.components base) (Path.split arg)) (Str.endsWith arg "/").
Proof.
  intros H. unfold Path.join.
  destruct (String.eqb_spec arg EmptyString); [contradiction|reflexivity].
Qed.

(** Ordinary names are appended as they are. *)
Lemma normalize_plain pieces : forall stack,
  forallb valid_name pieces = true ->
  Path.normalize stack pieces = (stack ++ pieces)%list.
Proof.
  induction pieces as [|x l IH]; intros stack H.
  - simpl. rewrite app_nil_r. reflexivity.
  - cbn [forallb] in H. apply andb_true_iff in H as [Hx Hl].
    apply valid_name_inv in Hx as (H1 & H2 & H3 & _).
    unfold Path.normalize in *. cbn [fold_left].
    destruct (step_cases stack x) as [(-> & _)|[[[E|E] _]|[E _]]]; try contradiction.
    rewrite IH by exact Hl. rewrite <- app_assoc. reflexivity.
Qed.

Lemma plain_key_nonempty key : plain_key key = true -> key <> EmptyString.
Proof. intros H ->. discriminate H. Qed.

Lemma plain_key_not_trailing key : plain_key key = true -> Str.endsWith key "/" = false.
Proof.
  intros H. destruct (Str.endsWith key "/") eqn:E; [|reflexivity].
  apply endsWith_slash_leaf in E. unfold key_leaf in E.
  unfold plain_key in H. rewrite forallb_forall in H.
  assert (Hin : In (last (Path.split key) EmptyString) (Path.split key)).
  { pose proof (split_not_nil key) as Hne.
    rewrite (app_removelast_last EmptyString Hne) at 2.
    apply in_or_app. right. left. reflexivity. }
  apply H in Hin. rewrite E in Hin. discriminate.
Qed.

Lemma forallb_removelast {A} (f : A -> bool) l :
  forallb f l = true -> forallb f (removelast l) = true.
Proof.
  induction l as [|x l IH]; [reflexivity|].
  destruct l as [|y l]; [reflexivity|].
  change (removelast (x :: y :: l)) with (x :: removelast (y :: l)).
  cbn [forallb] in *. intros H. apply andb_true_iff in H as [Hx H].
  rewrite Hx. apply IH, H.
Qed.

(** The operations see the key through its two paths only. *)
Lemma same_paths_same_operations s1 k1 s2 k2 :
  getFilePath s1 k1 = getFilePath s2 k2 ->
  getMetaPath s1 k1 = getMetaPath s2 k2 ->
  same_operations s1 k1 s2 k2.
Proof.
  intros HF HM.
  assert (Hmeta : forall fs, stored_meta s1 fs k1 = stored_meta s2 fs k2).
  { intros fs. unfold stored_meta. rewrite HM. reflexivity. }
  assert (Hget : forall fs, getObject s1 k1 fs = getObject s2 k2 fs).
  { intros fs. rewrite !getObject_spec, HF, Hmeta. reflexivity. }
  assert (Hdel : forall fs, deleteObject s1 k1 fs = deleteObject s2 k2 fs).
  { intros fs. unfold deleteObject. rewrite HF, HM. reflexivity. }
  assert (Hstore : forall content c fs,
            store_object s1 k1 content c fs = store_object s2 k2 content c fs).
  { intros content c fs. unfold store_object, writeMeta. rewrite HF, HM. reflexivity. }
  unfold same_operations. repeat split.
  - intros body ct fs. rewrite !createObject_unfold, HF, Hstore. reflexivity.
  - intros body e ct fs. rewrite !putObjectIfMatch_cases, Hmeta, Hstore. reflexivity.
  - exact Hget.
  - intros e fs. rewrite !getObjectIfMatch_cases, HF, Hmeta, Hget. reflexivity.
  - exact Hdel.
  - intros e fs. rewrite !deleteObjectIfMatch_unfold, Hmeta, Hdel. reflexivity.
Qed.

(** The base path of a store of an ordinary bucket name. *)
Lemma basePath_bucket cwd bucket mockDir :
  valid_name bucket = true ->
  basePath (createS3Store cwd bucket mockDir)
  = Path.mk (Path.components (Path.join cwd (mock_dir mockDir)) ++ [bucket]) false.
Proof.
  intros H. unfold createS3Store. cbn [basePath]. fold (mock_dir mockDir).
  pose proof (valid_name_inv _ H) as (Hne & _ & _ & Hslash).
  rewrite (join_nonempty _ _ Hne).
  rewrite <- components_join, (join_name _ _ H). f_equal.
  destruct (Str.endsWith bucket "/") eqn:E; [|reflexivity].
  apply endsWith_iff in E as [p ->]. rewrite mem_append in Hslash.
  rewrite orb_true_r in Hslash. discriminate.
Qed.

End KeyFacts.

Module JoinFacts.

Import StrFacts FsFacts PathFacts JsonFacts StoreFacts OperationFacts ListFacts KeyFacts Json.

Lemma join_dot_slash base key :
  key <> EmptyString -> Path.join base ("./" ++ key) = Path.join base key.
Proof.
  intros Hne. rewrite (join_nonempty base key Hne).
  rewrite join_nonempty by discriminate.
  f_equal. cbn [append]. rewrite endsWith_cons by discriminate.
  apply endsWith_cons, Hne.
Qed.

Lemma join_double_slash base k1 k2 :
  Path.join base (k1 ++ "//" ++ k2) = Path.join base (k1 ++ "/" ++ k2).
Proof.
  assert (Hne : forall t, k1 ++ String "/" t <> EmptyString).
  { intros t E. apply append_eq_nil in E as [_ E]. discriminate. }
  cbn [append]. rewrite !join_nonempty by apply Hne.
  rewrite !split_app_slash, !normalize_app. f_equal.
  rewrite !endsWith_append by discriminate.
  apply endsWith_cons. discriminate.
Qed.

(** From the directory [stack ++ [b1]], [../b2/key] is [key] from
    [stack ++ [b2]]. *)
Lemma join_sibling stack b1 b2 key t1 t2 :
  valid_name b2 = true -> key <> EmptyString ->
  Path.join (Path.mk (stack ++ [b1]) t1) ("../" ++ b2 ++ "/" ++ key)
  = Path.join (Path.mk (stack ++ [b2]) t2) key.
Proof.
  intros Hb Hne. rewrite (join_nonempty _ key Hne).
  rewrite join_nonempty by discriminate. cbn [Path.components].
  pose proof (valid_name_inv _ Hb) as (H1 & H2 & H3 & Hs).
  f_equal.
  - change ("../" ++ b2 ++ "/" ++ key) with (".." ++ String "/" (b2 ++ String "/" key)).
    rewrite !split_app_slash, (split_no_slash _ Hs), !normalize_app.
    change (Path.normalize (stack ++ [b1]) (Path.split "..")) with (removelast (stack ++ [b1])).
    rewrite removelast_last. unfold Path.normalize at 2. cbn [fold_left].
    destruct (step_cases stack b2) as [(-> & _)|[[[E|E] _]|[E _]]]; try contradiction.
    reflexivity.
  - rewrite (endsWith_append "../")
      by (intros E; apply append_eq_nil in E as [_ E]; discriminate).
    rewrite (endsWith_append b2) by discriminate.
    apply endsWith_cons, Hne.
Qed.

Lemma join_child stack b key t1 t2 :
  valid_name b = true -> key <> EmptyString ->
  Path.join (Path.mk stack t1) (b ++ "/" ++ key)
  = Path.join (Path.mk (stack ++ [b]) t2) key.
Proof.
  intros Hb Hne. rewrite (join_nonempty _ key Hne).
  rewrite join_nonempty
    by (intros E; apply append_eq_nil in E as [_ E]; discriminate).
  cbn [Path.components].
  pose proof (valid_name_inv _ Hb) as (H1 & H2 & H3 & Hs).
  f_equal.
  - cbn [append]. rewrite split_app_slash, (split_no_slash _ Hs), normalize_app.
    unfold Path.normalize at 2. cbn [fold_left].
    destruct (step_cases stack b) as [(-> & _)|[[[E|E] _]|[E _]]]; try contradiction.
    reflexivity.
  - rewrite (endsWith_append b) by discriminate.
    apply endsWith_cons, Hne.
Qed.

Lemma plain_key_meta key : plain_key key = true -> plain_key (key ++ ".meta") = true.
Proof.
  unfold plain_key. intros H.
  rewrite split_append_suffix by reflexivity.
  rewrite forallb_app, (forallb_removelast _ _ H). cbn [forallb]. rewrite andb_true_r.
  assert (Hlast : valid_name (last (Path.split key) EmptyString) = true).
  { rewrite forallb_forall in H. apply H.
    pose proof (split_not_nil key) as Hne.
    rewrite (app_removelast_last EmptyString Hne) at 2.
    apply in_or_app. right. left. reflexivity. }
  apply valid_name_inv in Hlast as (H1 & H2 & H3 & Hs).
  unfold valid_name. rewrite mem_append, Hs. cbn [Str.mem orb negb].
  destruct (last (Path.split key) EmptyString) as [|a [|b [|c r]]];
    [contradiction| | |]; try reflexivity.
  - destruct (Ascii.eqb_spec a "."); [subst; reflexivity|].
    cbn. destruct (Ascii.eqb a "."); reflexivity.
  - cbn. destruct (Ascii.eqb a "."); [|reflexivity]. destruct (Ascii.eqb b "."); reflexivity.
  - cbn. destruct (Ascii.eqb a "."); [|reflexivity]. destruct (Ascii.eqb b "."); reflexivity.
Qed.

(** The data artifact of a plain key is at the pieces of the key below
    the base path. *)
Lemma getFilePath_plain store key :
  plain_key key = true ->
  getFilePath store key
  = Path.mk (Path.components (basePath store) ++ Path.split key) false.
Proof.
  intros H. unfold getFilePath.
  rewrite (join_nonempty _ _ (plain_key_nonempty _ H)).
  rewrite (normalize_plain _ _ H), (plain_key_not_trailing _ H). reflexivity.
Qed.

Lemma getMetaPath_plain store key :
  plain_key key = true ->
  getMetaPath store key
  = Path.mk (Path.components (basePath store) ++ Path.split (key ++ ".meta")) false.
Proof. intros H. apply (getFilePath_plain store (key ++ ".meta")), plain_key_meta, H. Qed.

End JoinFacts.

Module FsWriteFacts.

Import Fs StrFacts FsFacts FsErrorFacts.

(** A write at [q] leaves what is at [p] as it is, unless [q] is [p] or
    below [p]. *)
Lemma find_write_apart q : forall n tr c n' p y,
  write n q tr c = Ok n' ->
  (forall l, q <> (p ++ l)%list) ->
  find n p = Ok y -> find n' p = Ok y.
Proof.
  induction q as [|s q IH]; intros n tr c n' p y Hw Hp Hf.
  - destruct p as [|s' p']; [contradiction (Hp []); reflexivity|].
    simpl in Hw. destruct n as [x|es]; [discriminate Hf|].
    destruct tr; discriminate.
  - destruct p as [|s' p']; [contradiction (Hp (s :: q)); reflexivity|].
    cbn [write] in Hw. destruct n as [x|es]; [discriminate|].
    cbn [find] in Hf.
    destruct (assoc s' es) as [ch|] eqn:Ea'; [|discriminate].
    destruct (assoc s es) as [child|] eqn:Ea.
    + destruct (write child q tr c) as [child'|e] eqn:Ew; [|discriminate].
      injection Hw as <-. cbn [find].
      destruct (String.eqb_spec s' s) as [->|Hne].
      * rewrite (assoc_replace_same _ _ _ _ Ea).
        rewrite Ea in Ea'. injection Ea' as <-.
        apply (IH _ _ _ _ _ _ Ew); [|exact Hf].
        intros l E. apply (Hp l). simpl. congruence.
      * rewrite (assoc_replace_other _ _ _ _ Hne), Ea'. exact Hf.
    + destruct q as [|s2 q2]; [|discriminate].
      destruct tr; [discriminate|]. injection Hw as <-.
      cbn [find]. rewrite (assoc_app_some _ _ _ _ Ea'). exact Hf.
Qed.

Lemma find_fresh l : find (fresh l) l = Ok (Dir []).
Proof.
  induction l as [|s l IH]; [reflexivity|].
  simpl. rewrite String.eqb_refl. exact IH.
Qed.

(** Once the directory of a missing path has been made, the directory is
    there and does not hold the last name of the path. *)
Lemma mkdirp_parent_of_missing p : forall n n',
  mkdirp n (removelast p) = Ok n' ->
  find n p = Err ENOENT ->
  exists es,
    find n' (removelast p) = Ok (Dir es) /\ assoc (last p EmptyString) es = None.
Proof.
  induction p as [|s p IH]; intros n n' Hm Hf; [discriminate|].
  destruct p as [|s' p'].
  - simpl in Hm. destruct n as [x|es]; [discriminate|]. injection Hm as <-.
    simpl in Hf. exists es. split; [reflexivity|].
    simpl. destruct (assoc s es); [discriminate|reflexivity].
  - change (removelast (s :: s' :: p')) with (s :: removelast (s' :: p')) in *.
    change (last (s :: s' :: p') EmptyString) with (last (s' :: p') EmptyString).
    cbn [mkdirp] in Hm. destruct n as [x|es]; [discriminate|].
    cbn [find] in Hf.
    destruct (assoc s es) as [child|] eqn:Ea.
    + destruct (mkdirp child (removelast (s' :: p'))) as [child'|e] eqn:Em; [|discriminate].
      injection Hm as <-.
      destruct (IH _ _ Em Hf) as (es1 & H1 & H2). exists es1.
      split; [|exact H2]. cbn [find]. rewrite (assoc_replace_same _ _ _ _ Ea). exact H1.
    + injection Hm as <-. exists []. split; [|reflexivity].
      cbn [find]. rewrite (assoc_app_none _ _ _ Ea). simpl.
      rewrite String.eqb_refl. apply find_fresh.
Qed.

End FsWriteFacts.

Module ListingFacts.

Import StrFacts FsFacts PathFacts JsonFacts StoreFacts OperationFacts ListFacts.
Import KeyFacts JoinFacts FsErrorFacts Json.

(** A string is its pieces joined by the separator. *)
Lemma concat_split s : String.concat "/" (Path.split s) = s.
Proof.
  induction s as [|c r IH]; [reflexivity|].
  cbn [Path.split]. destruct (Ascii.eqb_spec c "/") as [->|Hc].
  - destruct (Path.split r) as [|y l] eqn:E; [contradiction (split_not_nil r)|].
    rewrite concat_cons, IH. reflexivity.
  - destruct (Path.split r) as [|seg rest] eqn:E; [contradiction (split_not_nil r)|].
    rewrite <- IH. destruct rest; reflexivity.
Qed.

Lemma concat_last l :
  l <> [] -> exists p, String.concat "/" l = p ++ last l EmptyString.
Proof.
  induction l as [|x l IH]; [contradiction|]. intros _.
  destruct l as [|y l].
  - exists EmptyString. reflexivity.
  - destruct IH as [p Hp]; [discriminate|].
    exists (x ++ String "/" p). rewrite concat_cons, Hp, append_assoc. reflexivity.
Qed.

(** A key ends as its last piece does. *)
Lemma leaf_not_meta key :
  Str.endsWith key ".meta" = false -> Str.endsWith (key_leaf key) ".meta" = false.
Proof.
  intros H. destruct (Str.endsWith (key_leaf key) ".meta") eqn:E; [|reflexivity].
  apply endsWith_iff in E as [q Hq].
  destruct (concat_last (Path.split key) (split_not_nil key)) as [p Hp].
  rewrite concat_split in Hp. fold (key_leaf key) in Hp. rewrite Hq in Hp.
  assert (Ht : Str.endsWith key ".meta" = true).
  { apply endsWith_iff. exists (p ++ q). rewrite append_assoc. exact Hp. }
  congruence.
Qed.

Lemma mem_concat c x : forall l,
  In x l -> Str.mem c x = true -> Str.mem c (String.concat "/" l) = true.
Proof.
  induction l as [|y l IH]; [contradiction|]. intros Hin Hx.
  destruct l as [|z l].
  - destruct Hin as [->|[]]. exact Hx.
  - rewrite concat_cons, mem_append. cbn [Str.mem].
    destruct Hin as [->|Hin]; [rewrite Hx; reflexivity|].
    rewrite (IH Hin Hx), !orb_true_r. reflexivity.
Qed.

Lemma split_no_backslash key :
  no_backslash key = true -> forallb no_backslash (Path.split key) = true.
Proof.
  intros Hb. apply forallb_forall. intros x Hx. unfold no_backslash in *.
  destruct (Str.mem "\" x) eqn:E; [|reflexivity].
  rewrite <- (concat_split key), (mem_concat _ _ _ Hx E) in Hb. discriminate.
Qed.

Lemma key_of_split key : no_backslash key = true -> key_of (Path.split key) = key.
Proof.
  intros Hb. unfold key_of. rewrite concat_split. apply replace_backslashes_id, Hb.
Qed.

Lemma readdir_find fs p entries :
  Fs.readdir fs p = Ok entries ->
  Fs.has_nul p = false /\ Fs.find fs (Path.components p) = Ok (Fs.Dir entries)
  /\ Fs.access fs p = Ok tt.
Proof.
  unfold Fs.readdir, Fs.access. destruct (Fs.lookup fs p) as [[x|es]|e] eqn:E; try discriminate.
  intros H. injection H as ->. apply lookup_dir in E as [H1 H2]. auto.
Qed.

Section WithStore.

Variable store : S3StoreMock.

(** [list()] over a well-formed bucket directory. *)
Lemma list_all fs entries :
  Fs.readdir fs (basePath store) = Ok entries ->
  well_formed (Fs.Dir entries) = true ->
  list_ store EmptyString fs
  = (Ok (batches (map (entry_of (basePath store) (Path.components (basePath store)))
                      (listed_files entries))), fs).
Proof.
  intros Hr Hw. rewrite list_spec.
  change (Path.join (basePath store) EmptyString) with (basePath store).
  pose proof (readdir_find _ _ _ Hr) as (_ & _ & Ha). rewrite Ha, Hr.
  unfold well_formed in Hw. apply andb_true_iff in Hw as [_ Hv].
  rewrite (walk_files _ _ _ entries eq_refl Hv). reflexivity.
Qed.

(** The entry of the file at the pieces of a plain key without
    backslash has that key. *)
Lemma entry_of_key key content :
  no_backslash key = true ->
  entry_of (basePath store) (Path.components (basePath store)) (Path.split key, content)
  = mkEntry key (String.length content).
Proof.
  intros Hb. unfold entry_of. cbn [fst snd].
  rewrite relative_under, concat_split, (replace_backslashes_id _ Hb). reflexivity.
Qed.

End WithStore.

End ListingFacts.

Module WrapperFacts.

Import StrFacts Utf8Facts JsonFacts Utf8RoundTrip SurrogateFacts Json.

(** The content stored for a well-formed string is its UTF-8. *)
Lemma to_content_utf8_of cps :
  forallb scalar_value cps = true ->
  to_content (StringBody (utf8_of cps)) = utf8_of cps.
Proof. intros H. cbn [to_content]. apply encode_utf8_of_scalar, H. Qed.

(** The content stored for the JSON text of a string is that text. *)
Lemma to_content_quote s : to_content (StringBody (quote s)) = quote s.
Proof. cbn [to_content]. apply encode_quote. Qed.

(** The decoder leaves the JSON text of a well-formed string as it is. *)
Lemma decode_quote cps :
  forallb scalar_value cps = true ->
  Utf8.decode (quote (utf8_of cps)) = quote (utf8_of cps).
Proof. intros H. apply decode_quote_utf8_of, scalar_code_points, H. Qed.

(** [JSON.parse] of the JSON text of a well-formed string is the
    string. *)
Lemma parse_quote cps :
  forallb scalar_value cps = true ->
  parse (quote (utf8_of cps)) = Some (JString (utf8_of cps)).
Proof. intros H. apply parse_quote_utf8_of, scalar_code_points, H. Qed.

End WrapperFacts.

Module FsDirFacts.

Import Fs StrFacts FsFacts FsErrorFacts FsWriteFacts.

(** A new file is added at the end of its directory. *)
Lemma write_new_file_dir p : forall n es name c,
  find n p = Ok (Dir es) -> assoc name es = None ->
  exists n',
    write n (p ++ [name]) false c = Ok n'
    /\ find n' p = Ok (Dir (es ++ [(name, File c)])).
Proof.
  induction p as [|s p IH]; intros n es name c Hf Hn.
  - simpl in Hf. injection Hf as ->. simpl. rewrite Hn. eauto.
  - cbn [find] in Hf. destruct n as [x|es0]; [discriminate|].
    destruct (assoc s es0) as [child|] eqn:Ea; [|discriminate].
    destruct (IH _ _ _ c Hf Hn) as (child' & Hw & Hf').
    exists (Dir (replace s child' es0)). cbn [app write find].
    rewrite Ea, Hw, (assoc_replace_same _ _ _ _ Ea). auto.
Qed.

(** After a removal the directory of the path is still there. *)
Lemma find_unlink_parent p : forall n s tr n',
  unlink_at n (p ++ [s]) tr = Ok n' -> exists es, find n' p = Ok (Dir es).
Proof.
  induction p as [|x p IH]; intros n s tr n' Hu.
  - simpl in Hu. destruct n as [y|es]; [discriminate|].
    destruct (assoc s es) as [[c|es']|]; try discriminate.
    destruct tr; [discriminate|]. injection Hu as <-. simpl. eauto.
  - change ((x :: p) ++ [s])%list with (x :: (p ++ [s]))%list in Hu.
    cbn [unlink_at] in Hu. destruct n as [y|es]; [discriminate|].
    destruct (assoc x es) as [child|] eqn:Ea; [|discriminate].
    destruct (p ++ [s])%list as [|s' p'] eqn:E; [destruct p; discriminate|].
    destruct (unlink_at child (s' :: p') tr) as [child'|e] eqn:Eu; [|discriminate].
    injection Hu as <-. rewrite <- E in Eu. destruct (IH _ _ _ _ Eu) as [es' Hes'].
    exists es'. cbn [find]. rewrite (assoc_replace_same _ _ _ _ Ea). exact Hes'.
Qed.

End FsDirFacts.

Module FreshFacts.

Import StrFacts FsFacts PathFacts JsonFacts StoreFacts OperationFacts ListFacts.
Import FrameFacts KeyFacts JoinFacts FsErrorFacts FsWriteFacts FsDirFacts Json.

Section WithStore.

Variable store : S3StoreMock.

(** With neither artifact in place, a name as the last piece of the key
    and the directory of the key made, the write goes through. *)
Lemma store_object_fresh
    (key : string) (content : string) (contentType : string) (fs fs1 : Fs.node) :
  Fs.access fs (getFilePath store key) = Err Fs.ENOENT ->
  Fs.access fs (getMetaPath store key) = Err Fs.ENOENT ->
  key_leaf key <> EmptyString -> key_leaf key <> "." -> key_leaf key <> ".." ->
  Fs.mkdir_recursive fs (Path.dirname (getFilePath store key)) = Ok fs1 ->
  exists fs',
    store_object store key content contentType fs
    = (Ok (write_response content contentType), fs').
Proof.
  intros HaF HaM P1 P2 P3 Hmk.
  destruct (file_plain (basePath store) key P1 P2 P3) as [Hcomp Htrail].
  fold (getFilePath store key) in Hcomp, Htrail.
  pose proof (meta_components (basePath store) key) as HcompM.
  fold (getMetaPath store key) in HcompM.
  apply access_missing in HaF as [HnF HmF].
  apply access_missing in HaM as [HnM HmM].
  rewrite Hcomp in HmF. rewrite HcompM in HmM.
  pose proof (mkdir_inv _ _ _ Hmk) as Hmk'.
  cbn [Path.dirname Path.components] in Hmk'. rewrite Hcomp, removelast_last in Hmk'.
  assert (HF1 : exists es, Fs.find fs1 (key_parent (basePath store) key) = Ok (Fs.Dir es)
                 /\ Fs.assoc (key_leaf key) es = None
                 /\ Fs.assoc (key_leaf key ++ ".meta") es = None).
  { pose proof (mkdirp_parent_of_missing (key_parent (basePath store) key ++ [key_leaf key])
                  fs fs1) as H1.
    pose proof (mkdirp_parent_of_missing
                  (key_parent (basePath store) key ++ [(key_leaf key ++ ".meta")%string])
                  fs fs1) as H2.
    rewrite removelast_last, last_last in H1, H2.
    destruct (H1 Hmk' HmF) as (es & Hd & Hn1).
    destruct (H2 Hmk' HmM) as (es' & Hd' & Hn2).
    rewrite Hd in Hd'. injection Hd' as <-. eauto. }
  destruct HF1 as (es & Hdir & Hn1 & Hn2).
  destruct (write_new_file_dir _ _ _ _ content Hdir Hn1) as (fs2 & W2 & Hdir2).
  assert (Hn2' : Fs.assoc (key_leaf key ++ ".meta")
                   (es ++ [(key_leaf key, Fs.File content)]) = None).
  { rewrite (assoc_app_none _ _ _ Hn2). simpl.
    destruct (String.eqb_spec (key_leaf key) (key_leaf key ++ ".meta")) as [E|_];
      [|reflexivity].
    apply (f_equal String.length) in E. rewrite length_append in E. simpl in E. lia. }
  destruct (write_new_file _ _ _ _
              (stringify_meta (calculateEtag content)
                 contentType) Hdir2 Hn2') as [fs4 W4].
  exists fs4.
  assert (E2 : Fs.writeFile fs1 (getFilePath store key) content = Ok fs2).
  { unfold Fs.writeFile. rewrite HnF, Hcomp, Htrail. exact W2. }
  assert (E3 : Fs.mkdir_recursive fs2 (Path.dirname (getMetaPath store key)) = Ok fs2).
  { unfold Fs.mkdir_recursive, Fs.has_nul, Path.dirname. cbn [Path.components].
    rewrite HcompM, removelast_last.
    assert (Hnp : existsb (Str.mem Ascii.zero) (key_parent (basePath store) key) = false).
    { unfold Fs.has_nul in HnM. rewrite HcompM, existsb_app in HnM.
      apply orb_false_iff in HnM as [H _]. exact H. }
    rewrite Hnp. apply (mkdirp_dir _ _ _ Hdir2). }
  assert (E4 : Fs.writeFile fs2 (getMetaPath store key)
                 (stringify_meta (calculateEtag content)
                    contentType) = Ok fs4).
  { unfold Fs.writeFile. rewrite HnM, HcompM.
    unfold getMetaPath at 1. rewrite join_nonempty by apply append_meta_nonempty.
    cbn [Path.trailing]. rewrite meta_not_trailing. exact W4. }
  unfold store_object, writeMeta, ensureDir, bind, fs_update, ret.
  rewrite JsonFacts.encode_stringify_meta.
  rewrite Hmk, E2, E3, E4. reflexivity.
Qed.


End WithStore.

End FreshFacts.

Module LifeFacts.

Import StrFacts FsFacts PathFacts JsonFacts StoreFacts OperationFacts ListFacts.
Import FrameFacts KeyFacts JoinFacts FsErrorFacts FsWriteFacts FsDirFacts FreshFacts ListingFacts Json.

Lemma replace_backslashes_app s t :
  Str.replace_backslashes (s ++ t)
  = Str.replace_backslashes s ++ Str.replace_backslashes t.
Proof. induction s as [|c s IH]; [reflexivity|]. simpl. rewrite IH. reflexivity. Qed.

Lemma concat_app l1 : forall l2,
  l1 <> [] -> l2 <> [] ->
  String.concat "/" (l1 ++ l2)
  = String.concat "/" l1 ++ String "/" (String.concat "/" l2).
Proof.
  induction l1 as [|x l1 IH]; intros l2 H1 H2; [contradiction|].
  destruct l1 as [|y l1].
  - destruct l2 as [|z l2]; [contradiction|]. apply concat_cons.
  - change ((x :: y :: l1) ++ l2)%list with (x :: y :: (l1 ++ l2))%list.
    rewrite !concat_cons.
    change (y :: (l1 ++ l2))%list with ((y :: l1) ++ l2)%list.
    rewrite IH by (discriminate || assumption).
    rewrite append_assoc. reflexivity.
Qed.

Section WithStore.

Variable store : S3StoreMock.

(** A key that has both artifacts ends with a name. *)
Lemma object_key_has_a_name key fs c x :
  Fs.readFile fs (getFilePath store key) = Ok c ->
  Fs.readFile fs (getMetaPath store key) = Ok x ->
  key_leaf key <> EmptyString /\ key_leaf key <> "." /\ key_leaf key <> "..".
Proof.
  intros Hd Hm.
  apply readFile_find in Hd as (_ & _ & Hd).
  apply readFile_find in Hm as (_ & _ & Hm).
  unfold getFilePath in Hd. unfold getMetaPath in Hm.
  rewrite file_components in Hd. rewrite meta_components in Hm.
  destruct (find_prefix _ _ _ _ Hm) as [es Hdir]; [discriminate|].
  destruct (step_cases (key_parent (basePath store) key) (key_leaf key))
    as [(_ & H)|[[_ Hs]|[_ Hs]]]; [exact H|exfalso..].
  - rewrite Hs in Hd. congruence.
  - rewrite Hs in Hd. destruct (find_removelast _ _ _ Hdir) as [es' Hdir']. congruence.
Qed.

(** [deleteObject] of an object leaves the directory of its artifacts
    in place. *)
Lemma deleteObject_keeps_directory key fs r fs' x :
  deleteObject store key fs = (Ok r, fs') ->
  Fs.readFile fs (getMetaPath store key) = Ok x ->
  Fs.mkdir_recursive fs' (Path.dirname (getMetaPath store key)) = Ok fs'.
Proof.
  unfold deleteObject, bind, ret. intros Hd Hm.
  destruct (unlink_if_present (getFilePath store key) fs) as [[[]|e] fs1] eqn:E1;
    [|discriminate].
  assert (Hm1 : Fs.readFile fs1 (getMetaPath store key) = Ok x).
  { pose proof (unlink_if_present_keeps (getFilePath store key) fs
                  (getMetaPath store key) x) as H.
    rewrite E1 in H. apply H; [|exact Hm].
    intros E. symmetry in E. revert E. apply file_meta_differ. }
  rewrite unlink_if_present_spec in Hd.
  apply readFile_find in Hm1 as (Hn & Ht & Hf).
  unfold Fs.unlink in Hd. rewrite Hn in Hd.
  pose proof (meta_components (basePath store) key) as Hc.
  fold (getMetaPath store key) in Hc.
  destruct (Fs.unlink_at fs1 _ _) as [fs2|e] eqn:Eu.
  - injection Hd as _ <-. rewrite Hc in Eu.
    destruct (find_unlink_parent _ _ _ _ _ Eu) as [es Hes].
    unfold Fs.mkdir_recursive, Fs.has_nul, Path.dirname. cbn [Path.components].
    rewrite (existsb_removelast _ _ Hn), Hc, removelast_last.
    apply (mkdirp_dir _ _ _ Hes).
  - destruct e; try discriminate.
    apply unlink_at_enoent in Eu. congruence.
Qed.

End WithStore.

End LifeFacts.

(** * Further properties of the store *)

Section Conditional.

Import StrFacts FsFacts PathFacts JsonFacts StoreFacts OperationFacts Json.

Variable store : S3StoreMock.

(** X1.  When the stored metadata record of the key is absent or
    unparsable, or its etag is not the expected etag,
    [deleteObjectIfMatch] throws the StaleDataError of a deletion and
    removes nothing: the file system is the one before the call. *)
Theorem deleteObjectIfMatch_stale_removes_nothing
    (key etag : string) (fs : Fs.node) :
  etag_mismatch store fs key etag ->
  deleteObjectIfMatch store key etag fs = (Err (StaleDataError STALE_DELETE), fs).
Proof.
  intros H. apply stale_iff in H.
  rewrite deleteObjectIfMatch_unfold, H. reflexivity.
Qed.

(** X2.  [deleteObjectIfMatch] does not look for the data artifact: when
    the stored record carries the expected etag and the data path holds a
    regular file or nothing, the call returns the response of a deletion
    and neither artifact of the key is left. *)
Theorem deleteObjectIfMatch_removes
    (key etag : string) (fs : Fs.node) (m : JsVal) :
  stored_meta store fs key = Some m ->
  get_etag m = JString etag ->
  removable fs (getFilePath store key) ->
  exists fs',
    deleteObjectIfMatch store key etag fs = (Ok DELETED, fs')
    /\ Fs.access fs' (getFilePath store key) = Err Fs.ENOENT
    /\ Fs.access fs' (getMetaPath store key) = Err Fs.ENOENT.
Proof.
  intros Hm He HF.
  rewrite deleteObjectIfMatch_unfold.
  rewrite (stale_false _ _ _ _ (matching_record _ _ _ _ _ Hm He)).
  apply deleteObject_removable; [exact HF|].
  destruct (stored_meta_file _ _ _ _ Hm) as [x Hx]. left. eauto.
Qed.

(** X3.  The etag that [createObject] returns deletes the object: after a
    successful [createObject], [deleteObjectIfMatch] with the returned
    etag succeeds, and from then on [getObject] and [getObjectIfMatch]
    throw NoSuchKey. *)
Theorem deleteObjectIfMatch_after_createObject
    (key : string) (body : Body) (contentType : option string)
    (fs : Fs.node) (r : ResponseWrapper) (fs1 : Fs.node) :
  createObject store key body contentType fs = (Ok r, fs1) ->
  exists E1 fs2,
    etag r = JString E1
    /\ deleteObjectIfMatch store key E1 fs1 = (Ok DELETED, fs2)
    /\ getObject store key fs2 = (Err (NoSuchKey "Error"), fs2)
    /\ getObjectIfMatch store key E1 fs2 = (Err (NoSuchKey "NoSuchKey"), fs2).
Proof.
  intros H. apply createObject_inv in H as (-> & Hdata & Hmeta).
  pose proof (stored_meta_written store _ _ _ _ Hmeta) as Hm.
  exists (calculateEtag (to_content body)).
  assert (Hdel : exists fs2,
    deleteObject store key fs1 = (Ok DELETED, fs2)
    /\ Fs.access fs2 (getFilePath store key) = Err Fs.ENOENT
    /\ Fs.access fs2 (getMetaPath store key) = Err Fs.ENOENT).
  { apply deleteObject_removable; left; eauto. }
  destruct Hdel as (fs2 & Hd & HF & HM). exists fs2.
  split; [reflexivity|]. split; [|split].
  - rewrite deleteObjectIfMatch_unfold.
    rewrite (stale_false _ _ _ _ (matching_record _ _ _ _ _ Hm eq_refl)). exact Hd.
  - rewrite getObject_spec, (access_enoent_readFile _ _ HF). reflexivity.
  - unfold getObjectIfMatch, bind. rewrite fileExists_spec, HF. reflexivity.
Qed.

(** X4.  [getObject] throws NoSuchKey exactly when the read of the data
    artifact fails with ENOENT, whatever the metadata; every other error
    of the read reaches the caller as it is, and nothing is returned
    without a data artifact. *)
Theorem getObject_missing_key (key : string) (fs : Fs.node) :
  (Fs.readFile fs (getFilePath store key) = Err Fs.ENOENT
   <-> getObject store key fs = (Err (NoSuchKey "Error"), fs))
  /\ (forall c, Fs.readFile fs (getFilePath store key) = Err c -> c <> Fs.ENOENT ->
        getObject store key fs = (Err (SystemError c), fs))
  /\ (forall r fs', getObject store key fs = (Ok r, fs') ->
        exists content,
          Fs.readFile fs (getFilePath store key) = Ok content
          /\ response r = BodyResponse content).
Proof.
  rewrite getObject_spec.
  destruct (Fs.readFile fs (getFilePath store key)) as [c|e].
  - split; [split; discriminate|]. split; [discriminate|].
    intros r fs' H. injection H as <- _. eauto.
  - split; [|split].
    + destruct e; split; intros H; try reflexivity; discriminate H.
    + intros c H Hne. injection H as <-. destruct e; try reflexivity. contradiction.
    + intros r fs' H. destruct e; discriminate H.
Qed.

(** X5.  The reading operations write nothing: whatever they return or
    throw, [getObject], [getObjectIfMatch] and [list] leave the file
    system as it was. *)
Theorem reads_change_nothing (key etag prefix : string) (fs : Fs.node) :
  snd (getObject store key fs) = fs
  /\ snd (getObjectIfMatch store key etag fs) = fs
  /\ snd (list_ store prefix fs) = fs.
Proof.
  assert (Hget : snd (getObject store key fs) = fs).
  { rewrite getObject_spec.
    destruct (Fs.readFile fs (getFilePath store key)) as [c|[]]; reflexivity. }
  split; [exact Hget|]. split.
  - unfold getObjectIfMatch, bind. rewrite fileExists_spec.
    destruct (Fs.access fs (getFilePath store key)); simpl; [|reflexivity].
    rewrite readMeta_spec. destruct (stale _ etag); [reflexivity|exact Hget].
  - rewrite list_spec.
    destruct (Fs.access fs _); [|reflexivity].
    destruct (Fs.readdir fs _); reflexivity.
Qed.

(** X6.  After a successful [putObjectIfMatch] of [body], [getObject]
    returns the content of [body] and the etag of the response of the
    update, and that etag is the only one a further [putObjectIfMatch]
    accepts: with any other etag the call throws the StaleDataError and
    writes nothing. *)
Theorem getObject_after_putObjectIfMatch
    (key : string) (body : Body) (etag0 : string) (contentType : option string)
    (fs : Fs.node) (r : ResponseWrapper) (fs' : Fs.node) :
  putObjectIfMatch store key body etag0 contentType fs = (Ok r, fs') ->
  etag r = JString (calculateEtag (to_content body))
  /\ getObject store key fs'
     = (Ok (mkResponse (BodyResponse (to_content body))
              (JString (calculateEtag (to_content body)))), fs')
  /\ forall body' etag' contentType',
       etag' <> calculateEtag (to_content body) ->
       putObjectIfMatch store key body' etag' contentType' fs'
       = (Err (StaleDataError STALE_PUT), fs').
Proof.
  intros H. apply putObjectIfMatch_inv in H as [_ H].
  apply store_object_ok in H as (-> & Hdata & Hmeta).
  pose proof (stored_meta_written store _ _ _ _ Hmeta) as Hm.
  split; [reflexivity|]. split.
  - rewrite getObject_spec, Hdata, Hm. reflexivity.
  - intros body' etag' ct' Hne.
    assert (Hs : etag_mismatch store fs' key etag').
    { right. eexists. split; [exact Hm|]. simpl. congruence. }
    apply stale_iff in Hs.
    unfold putObjectIfMatch, bind. rewrite readMeta_spec, Hs. reflexivity.
Qed.

(** X7.  The etag that [createObject] returns updates the object: after a
    successful [createObject], [putObjectIfMatch] with the returned etag
    succeeds, and [getObject] then returns the new content and the new
    etag. *)
Theorem putObjectIfMatch_after_createObject
    (key : string) (B1 B2 : Body) (ct1 ct2 : option string)
    (fs : Fs.node) (r : ResponseWrapper) (fs1 : Fs.node) :
  createObject store key B1 ct1 fs = (Ok r, fs1) ->
  exists E1 fs2,
    etag r = JString E1
    /\ putObjectIfMatch store key B2 E1 ct2 fs1
       = (Ok (write_response (to_content B2) (default_contentType ct2)), fs2)
    /\ getObject store key fs2
       = (Ok (mkResponse (BodyResponse (to_content B2))
                (JString (calculateEtag (to_content B2)))), fs2).
Proof.
  intros H. apply createObject_inv in H as (-> & Hdata & Hmeta).
  pose proof (stored_meta_written store _ _ _ _ Hmeta) as Hm.
  destruct (store_object_overwrites store key (to_content B2) (default_contentType ct2)
              _ _ _ Hdata Hmeta) as [fs2 Hs].
  exists (calculateEtag (to_content B1)), fs2.
  split; [reflexivity|]. split.
  - rewrite (putObjectIfMatch_unfold _ _ _ _ _ _ (matching_record _ _ _ _ _ Hm eq_refl)).
    exact Hs.
  - apply store_object_ok in Hs as (_ & Hdata2 & Hmeta2).
    rewrite getObject_spec, Hdata2, (stored_meta_written store _ _ _ _ Hmeta2).
    reflexivity.
Qed.

(** X8.  When [getObjectIfMatch] returns, the etag of its response is the
    expected etag, its body is the content of the data artifact, and the
    file system is unchanged. *)
Theorem getObjectIfMatch_returns_expected_etag
    (key etag0 : string) (fs : Fs.node) (r : ResponseWrapper) (fs' : Fs.node) :
  getObjectIfMatch store key etag0 fs = (Ok r, fs') ->
  fs' = fs
  /\ etag r = JString etag0
  /\ exists content,
       Fs.readFile fs (getFilePath store key) = Ok content
       /\ response r = BodyResponse content.
Proof.
  unfold getObjectIfMatch, bind. rewrite fileExists_spec.
  destruct (Fs.access fs (getFilePath store key)); simpl; [|discriminate].
  rewrite readMeta_spec.
  destruct (stale _ etag0) eqn:Es; [discriminate|].
  assert (Hok : ~ etag_mismatch store fs key etag0).
  { intros Hm. apply stale_iff in Hm. congruence. }
  apply not_mismatch_inv in Hok as (m & Hm & He).
  rewrite getObject_spec, Hm, He.
  destruct (Fs.readFile fs (getFilePath store key)) as [c|[]]; try discriminate.
  intros H. injection H as <- <-. eauto.
Qed.

(** X9.  [deleteObject] is idempotent: once it has returned, a second
    [deleteObject] of the key returns as well and changes nothing. *)
Theorem deleteObject_idempotent
    (key : string) (fs : Fs.node) (r : ResponseWrapper) (fs' : Fs.node) :
  deleteObject store key fs = (Ok r, fs') ->
  deleteObject store key fs' = (Ok DELETED, fs').
Proof.
  intros H. apply deleteObject_inv in H as (_ & HF & HM).
  unfold deleteObject, bind, ret.
  rewrite (unlink_if_present_missing _ _ HF), (unlink_if_present_missing _ _ HM).
  reflexivity.
Qed.

End Conditional.

Lemma deleteObjectIfMatch_stale_removes_nothing_witness :
  deleteObjectIfMatch demo_store "a/b" (calculateEtag "hello") fs_updated
  = (Err (StaleDataError STALE_DELETE), fs_updated).
Proof.
  apply (deleteObjectIfMatch_stale_removes_nothing demo_store).
  right. eexists. split; [vm_compute; reflexivity|]. vm_compute. discriminate.
Defined.

Lemma deleteObjectIfMatch_removes_witness :
  exists fs',
    deleteObjectIfMatch demo_store "k" (calculateEtag "old") fs_meta_only = (Ok DELETED, fs')
    /\ Fs.access fs' (getFilePath demo_store "k") = Err Fs.ENOENT
    /\ Fs.access fs' (getMetaPath demo_store "k") = Err Fs.ENOENT.
Proof.
  eapply (deleteObjectIfMatch_removes demo_store "k" (calculateEtag "old") fs_meta_only).
  - vm_compute. reflexivity.
  - vm_compute. reflexivity.
  - right. vm_compute. reflexivity.
Defined.

Lemma deleteObjectIfMatch_after_createObject_witness :
  exists E1 fs2,
    etag (write_response "hello" "text/plain") = Json.JString E1
    /\ deleteObjectIfMatch demo_store "a/b" E1 fs_created = (Ok DELETED, fs2)
    /\ getObject demo_store "a/b" fs2 = (Err (NoSuchKey "Error"), fs2)
    /\ getObjectIfMatch demo_store "a/b" E1 fs2 = (Err (NoSuchKey "NoSuchKey"), fs2).
Proof.
  apply (deleteObjectIfMatch_after_createObject demo_store "a/b" (StringBody "hello")
           (Some "text/plain") fs_home).
  vm_compute. reflexivity.
Defined.

Lemma getObject_missing_key_witness :
  getObject demo_store "a/b" fs_deleted = (Err (NoSuchKey "Error"), fs_deleted)
  /\ getObject demo_store "a" fs_created = (Err (SystemError Fs.EISDIR), fs_created)
  /\ exists content,
       Fs.readFile fs_created (getFilePath demo_store "a/b") = Ok content
       /\ response (mkResponse (BodyResponse "hello")
                      (Json.JString (calculateEtag "hello"))) = BodyResponse content.
Proof.
  split; [|split].
  - apply (proj1 (proj1 (getObject_missing_key demo_store "a/b" fs_deleted))).
    vm_compute. reflexivity.
  - apply (proj1 (proj2 (getObject_missing_key demo_store "a" fs_created))).
    + vm_compute. reflexivity.
    + discriminate.
  - apply (proj2 (proj2 (getObject_missing_key demo_store "a/b" fs_created)) _ fs_created).
    vm_compute. reflexivity.
Defined.

Lemma getObject_after_putObjectIfMatch_witness :
  etag (write_response "world" "application/json") = Json.JString (calculateEtag "world")
  /\ getObject demo_store "a/b" fs_updated
     = (Ok (mkResponse (BodyResponse "world") (Json.JString (calculateEtag "world"))),
        fs_updated)
  /\ forall body' etag' contentType',
       etag' <> calculateEtag "world" ->
       putObjectIfMatch demo_store "a/b" body' etag' contentType' fs_updated
       = (Err (StaleDataError STALE_PUT), fs_updated).
Proof.
  apply (getObject_after_putObjectIfMatch demo_store "a/b" (StringBody "world")
           (calculateEtag "hello") None fs_created).
  vm_compute. reflexivity.
Defined.

Lemma putObjectIfMatch_after_createObject_witness :
  exists E1 fs2,
    etag (write_response "hello" "text/plain") = Json.JString E1
    /\ putObjectIfMatch demo_store "a/b" (StringBody "world") E1 None fs_created
       = (Ok (write_response "world" "application/json"), fs2)
    /\ getObject demo_store "a/b" fs2
       = (Ok (mkResponse (BodyResponse "world") (Json.JString (calculateEtag "world"))),
          fs2).
Proof.
  apply (putObjectIfMatch_after_createObject demo_store "a/b" (StringBody "hello")
           (StringBody "world") (Some "text/plain") None fs_home).
  vm_compute. reflexivity.
Defined.

Lemma getObjectIfMatch_returns_expected_etag_witness :
  fs_updated = fs_updated
  /\ etag (mkResponse (BodyResponse "world") (Json.JString (calculateEtag "world")))
     = Json.JString (calculateEtag "world")
  /\ exists content,
       Fs.readFile fs_updated (getFilePath demo_store "a/b") = Ok content
       /\ response (mkResponse (BodyResponse "world")
                      (Json.JString (calculateEtag "world"))) = BodyResponse content.
Proof.
  apply (getObjectIfMatch_returns_expected_etag demo_store "a/b" (calculateEtag "world")
           fs_updated).
  vm_compute. reflexivity.
Defined.

Lemma deleteObject_idempotent_witness :
  deleteObject demo_store "a/b" fs_deleted = (Ok DELETED, fs_deleted).
Proof.
  apply (deleteObject_idempotent demo_store "a/b" fs_updated DELETED).
  vm_compute. reflexivity.
Defined.

Section Frame.

Import StrFacts FsFacts PathFacts JsonFacts StoreFacts OperationFacts FrameFacts Json.

Variable store : S3StoreMock.

(** X10.  The writing operations touch the two artifacts of their key
    only: a regular file at any other path holds the same content after
    [createObject], [putObjectIfMatch], [deleteObject] or
    [deleteObjectIfMatch] as before, whether the call returns or
    throws. *)
Theorem writes_keep_other_files
    (key : string) (body : Body) (etag0 : string) (contentType : option string)
    (fs : Fs.node) (p : Path.t) (c : string) :
  other_path store key p ->
  Fs.readFile fs p = Ok c ->
  Fs.readFile (snd (createObject store key body contentType fs)) p = Ok c
  /\ Fs.readFile (snd (putObjectIfMatch store key body etag0 contentType fs)) p = Ok c
  /\ Fs.readFile (snd (deleteObject store key fs)) p = Ok c
  /\ Fs.readFile (snd (deleteObjectIfMatch store key etag0 fs)) p = Ok c.
Proof.
  intros Hp Hr. split; [|split; [|split]].
  - rewrite createObject_unfold.
    destruct (Fs.access fs (getFilePath store key)); [exact Hr|].
    apply store_object_keeps; assumption.
  - rewrite putObjectIfMatch_cases.
    destruct (stale _ etag0); [exact Hr|]. apply store_object_keeps; assumption.
  - apply deleteObject_keeps; assumption.
  - rewrite deleteObjectIfMatch_unfold.
    destruct (stale _ etag0); [exact Hr|]. apply deleteObject_keeps; assumption.
Qed.

(** X11.  The metadata artifact of a key is the data artifact of the key
    with [.meta] appended.  So a successful [createObject] or
    [putObjectIfMatch] of [key] leaves the JSON of its metadata record as
    the content that [getObject] returns for [key ++ ".meta"], and a
    successful [deleteObject] of [key] makes [getObject] of
    [key ++ ".meta"] throw NoSuchKey. *)
Theorem writes_reach_the_meta_named_object
    (key : string) (body : Body) (etag0 : string) (contentType : option string)
    (fs : Fs.node) (r : ResponseWrapper) (fs' : Fs.node) :
  (createObject store key body contentType fs = (Ok r, fs')
   \/ putObjectIfMatch store key body etag0 contentType fs = (Ok r, fs') ->
   exists e,
     getObject store (key ++ ".meta") fs'
     = (Ok (mkResponse
              (BodyResponse (stringify_meta (calculateEtag (to_content body))
                               (default_contentType contentType))) e), fs'))
  /\ (deleteObject store key fs = (Ok r, fs') ->
      getObject store (key ++ ".meta") fs' = (Err (NoSuchKey "Error"), fs')).
Proof.
  split.
  - intros H.
    assert (Hmeta : Fs.readFile fs' (getMetaPath store key)
              = Ok (stringify_meta (calculateEtag (to_content body))
                      (default_contentType contentType))).
    { destruct H as [H|H].
      - apply createObject_inv in H as (_ & _ & H). exact H.
      - apply putObjectIfMatch_inv in H as [_ H].
        apply store_object_ok in H as (_ & _ & H). exact H. }
    rewrite getObject_spec.
    change (getFilePath store (key ++ ".meta")) with (getMetaPath store key).
    rewrite Hmeta. eauto.
  - intros H. apply deleteObject_inv in H as (_ & _ & HM).
    rewrite getObject_spec.
    change (getFilePath store (key ++ ".meta")) with (getMetaPath store key).
    rewrite (access_enoent_readFile _ _ HM). reflexivity.
Qed.

End Frame.

Lemma writes_keep_other_files_witness :
  Fs.readFile
    (snd (createObject demo_store "c" (StringBody "x") None fs_created))
    (getFilePath demo_store "a/b") = Ok "hello"
  /\ Fs.readFile
       (snd (putObjectIfMatch demo_store "c" (StringBody "x") "e" None fs_created))
       (getFilePath demo_store "a/b") = Ok "hello"
  /\ Fs.readFile (snd (deleteObject demo_store "c" fs_created))
       (getFilePath demo_store "a/b") = Ok "hello"
  /\ Fs.readFile (snd (deleteObjectIfMatch demo_store "c" "e" fs_created))
       (getFilePath demo_store "a/b") = Ok "hello".
Proof.
  apply (writes_keep_other_files demo_store "c" (StringBody "x") "e" None fs_created).
  - split; intros H; vm_compute in H; discriminate H.
  - vm_compute. reflexivity.
Defined.

Lemma writes_reach_the_meta_named_object_witness :
  (exists e,
     getObject demo_store "a/b.meta" fs_created
     = (Ok (mkResponse
              (BodyResponse (Json.stringify_meta (calculateEtag "hello") "text/plain")) e),
        fs_created))
  /\ getObject demo_store "a/b.meta" fs_deleted = (Err (NoSuchKey "Error"), fs_deleted).
Proof.
  split.
  - apply (proj1 (writes_reach_the_meta_named_object demo_store "a/b" (StringBody "hello")
                    EmptyString (Some "text/plain") fs_home
                    (write_response "hello" "text/plain") fs_created)).
    left. vm_compute. reflexivity.
  - apply (proj2 (writes_reach_the_meta_named_object demo_store "a/b" (StringBody "hello")
                    EmptyString None fs_updated DELETED fs_deleted)).
    vm_compute. reflexivity.
Defined.

Section Keys.

Import StrFacts FsFacts PathFacts JsonFacts StoreFacts OperationFacts ListFacts.
Import FrameFacts KeyFacts JoinFacts Json.

(** X12.  A key is a relative path, and the store sees it normalized: for
    a nonempty [key] the operations on [./key] are the operations on
    [key], and the operations on [k1//k2] are the operations on
    [k1/k2]. *)
Theorem unnormalized_keys_name_the_same_object
    (store : S3StoreMock) (key k1 k2 : string) :
  (key <> EmptyString -> same_operations store ("./" ++ key) store key)
  /\ same_operations store (k1 ++ "//" ++ k2) store (k1 ++ "/" ++ k2).
Proof.
  split.
  - intros Hne. apply same_paths_same_operations.
    + apply join_dot_slash, Hne.
    + apply (join_dot_slash (basePath store) (key ++ ".meta")), append_meta_nonempty.
  - apply same_paths_same_operations.
    + apply join_double_slash.
    + unfold getMetaPath. rewrite !append_assoc.
      apply (join_double_slash (basePath store) k1 (k2 ++ ".meta")).
Qed.

(** X13.  A key is not confined to the directory of its bucket: in the
    store of the bucket [b1], the operations on [../b2/key] are the
    operations on [key] in the store of the bucket [b2]. *)
Theorem dot_dot_key_leaves_the_bucket
    (cwd : Path.t) (mockDir : option string) (b1 b2 key : string) :
  valid_name b1 = true -> valid_name b2 = true -> key <> EmptyString ->
  same_operations (createS3Store cwd b1 mockDir) ("../" ++ b2 ++ "/" ++ key)
                  (createS3Store cwd b2 mockDir) key.
Proof.
  intros H1 H2 Hne. apply same_paths_same_operations.
  - unfold getFilePath. rewrite !basePath_bucket by assumption.
    apply join_sibling; assumption.
  - unfold getMetaPath. rewrite !basePath_bucket by assumption.
    rewrite !append_assoc. cbn [append].
    apply (join_sibling _ b1 b2 (key ++ ".meta")); [assumption|apply append_meta_nonempty].
Qed.

(** X14.  The store of the empty bucket name is rooted at the mock
    directory itself, which holds the directories of the other buckets:
    its operations on [b/key], for a key [key] that is not empty and a
    bucket name [b] that a directory can hold, are the operations on
    [key] in the store of the bucket [b]. *)
Theorem empty_bucket_holds_the_buckets
    (cwd : Path.t) (mockDir : option string) (b key : string) :
  valid_name b = true -> key <> EmptyString ->
  same_operations (createS3Store cwd EmptyString mockDir) (b ++ "/" ++ key)
                  (createS3Store cwd b mockDir) key.
Proof.
  intros Hb Hne.
  assert (Hbase : basePath (createS3Store cwd EmptyString mockDir)
                  = Path.join cwd (mock_dir mockDir)) by reflexivity.
  apply same_paths_same_operations.
  - unfold getFilePath. rewrite Hbase, basePath_bucket by assumption.
    destruct (Path.join cwd (mock_dir mockDir)) as [stack t].
    apply join_child; assumption.
  - unfold getMetaPath. rewrite Hbase, basePath_bucket by assumption.
    destruct (Path.join cwd (mock_dir mockDir)) as [stack t].
    rewrite !append_assoc. cbn [append].
    apply (join_child stack b (key ++ ".meta")); [assumption|apply append_meta_nonempty].
Qed.

(** X15.  The layout of the store: with ordinary names for the mock
    directory and the bucket, the data artifact of a plain key is the file
    [cwd/mockDir/bucket/key], and its metadata artifact is the file of
    the same directory whose name is the last piece of the key with
    [.meta] appended. *)
Theorem artifacts_layout
    (cwd : Path.t) (mockDir : option string) (bucket key : string) :
  valid_name (mock_dir mockDir) = true -> valid_name bucket = true ->
  plain_key key = true ->
  getFilePath (createS3Store cwd bucket mockDir) key
  = Path.mk (Path.components cwd ++ [mock_dir mockDir; bucket] ++ Path.split key) false
  /\ getMetaPath (createS3Store cwd bucket mockDir) key
     = Path.mk (Path.components cwd ++ [mock_dir mockDir; bucket]
                ++ removelast (Path.split key)
                ++ [last (Path.split key) EmptyString ++ ".meta"]) false.
Proof.
  intros Hd Hb Hk.
  rewrite (getFilePath_plain _ _ Hk), (getMetaPath_plain _ _ Hk).
  rewrite (basePath_bucket _ _ _ Hb). cbn [Path.components].
  rewrite (join_name _ _ Hd), <- !app_assoc. cbn [app].
  split; [reflexivity|].
  rewrite split_append_suffix by reflexivity. reflexivity.
Qed.

(** X16.  Buckets of different ordinary names are isolated for plain
    keys: whatever a writing operation on the key [k1] of the bucket [b1]
    does, an object of the bucket [b2] that has both its artifacts is
    read afterwards as before. *)
Theorem buckets_are_isolated
    (cwd : Path.t) (mockDir : option string) (b1 b2 k1 k2 : string)
    (body : Body) (etag0 : string) (contentType : option string)
    (fs : Fs.node) (content meta : string) (fs' : Fs.node) :
  valid_name b1 = true -> valid_name b2 = true -> b1 <> b2 ->
  plain_key k1 = true -> plain_key k2 = true ->
  Fs.readFile fs (getFilePath (createS3Store cwd b2 mockDir) k2) = Ok content ->
  Fs.readFile fs (getMetaPath (createS3Store cwd b2 mockDir) k2) = Ok meta ->
  fs' = snd (createObject (createS3Store cwd b1 mockDir) k1 body contentType fs)
  \/ fs' = snd (putObjectIfMatch (createS3Store cwd b1 mockDir) k1 body etag0 contentType fs)
  \/ fs' = snd (deleteObject (createS3Store cwd b1 mockDir) k1 fs)
  \/ fs' = snd (deleteObjectIfMatch (createS3Store cwd b1 mockDir) k1 etag0 fs) ->
  getObject (createS3Store cwd b2 mockDir) k2 fs'
  = (fst (getObject (createS3Store cwd b2 mockDir) k2 fs), fs').
Proof.
  intros H1 H2 Hne Hk1 Hk2 Hdata Hmeta Hfs'.
  set (s1 := createS3Store cwd b1 mockDir) in *.
  set (s2 := createS3Store cwd b2 mockDir) in *.
  assert (Hother : forall k, plain_key k = true ->
            other_path s1 k1 (getFilePath s2 k)).
  { intros k Hk. unfold other_path.
    rewrite (getFilePath_plain s1 _ Hk1), (getMetaPath_plain s1 _ Hk1),
      (getFilePath_plain s2 _ Hk).
    unfold s1, s2. rewrite !basePath_bucket by assumption. cbn [Path.components].
    rewrite <- !app_assoc. cbn [app].
    split; intros E; apply app_inv_head in E; injection E as E _; congruence. }
  assert (Hkeep : forall p c, other_path s1 k1 p ->
            Fs.readFile fs p = Ok c -> Fs.readFile fs' p = Ok c).
  { intros p c Hp Hr.
    pose proof (store_object_keeps s1 k1 (to_content body)
                  (default_contentType contentType) fs p c Hp Hr) as Hstore.
    pose proof (deleteObject_keeps s1 k1 fs p c Hp Hr) as Hdel.
    destruct Hfs' as [->|[->|[->| ->]]].
    - rewrite createObject_unfold.
      destruct (Fs.access fs (getFilePath s1 k1)); [exact Hr|exact Hstore].
    - rewrite putObjectIfMatch_cases. destruct (stale _ etag0); [exact Hr|exact Hstore].
    - exact Hdel.
    - rewrite deleteObjectIfMatch_unfold. destruct (stale _ etag0); [exact Hr|exact Hdel]. }
  pose proof (Hkeep _ _ (Hother k2 Hk2) Hdata) as Hdata'.
  assert (Hmeta' : Fs.readFile fs' (getMetaPath s2 k2) = Ok meta).
  { apply Hkeep; [|exact Hmeta].
    apply (Hother (k2 ++ ".meta")), plain_key_meta, Hk2. }
  rewrite !getObject_spec, Hdata, Hdata'. unfold stored_meta.
  rewrite Hmeta, Hmeta'. reflexivity.
Qed.

End Keys.

Lemma unnormalized_keys_name_the_same_object_witness :
  same_operations demo_store "./a" demo_store "a"
  /\ same_operations demo_store "a//b" demo_store "a/b".
Proof.
  split.
  - apply (proj1 (unnormalized_keys_name_the_same_object demo_store "a" "a" "b")).
    discriminate.
  - apply (proj2 (unnormalized_keys_name_the_same_object demo_store "a" "a" "b")).
Defined.

Lemma dot_dot_key_leaves_the_bucket_witness :
  same_operations (createS3Store demo_cwd "bucket" None) "../other/k"
                  (createS3Store demo_cwd "other" None) "k".
Proof.
  apply (dot_dot_key_leaves_the_bucket demo_cwd None "bucket" "other" "k");
    [reflexivity|reflexivity|discriminate].
Defined.

Lemma empty_bucket_holds_the_buckets_witness :
  same_operations (createS3Store demo_cwd EmptyString None) "bucket/k"
                  (createS3Store demo_cwd "bucket" None) "k".
Proof.
  apply (empty_bucket_holds_the_buckets demo_cwd None "bucket" "k");
    [reflexivity|discriminate].
Defined.

Lemma artifacts_layout_witness :
  getFilePath (createS3Store demo_cwd "bucket" None) "a/b"
  = Path.mk (Path.components demo_cwd ++ [mock_dir None; "bucket"] ++ Path.split "a/b") false
  /\ getMetaPath (createS3Store demo_cwd "bucket" None) "a/b"
     = Path.mk (Path.components demo_cwd ++ [mock_dir None; "bucket"]
                ++ removelast (Path.split "a/b")
                ++ [last (Path.split "a/b") EmptyString ++ ".meta"]) false.
Proof.
  apply (artifacts_layout demo_cwd None "bucket" "a/b"); reflexivity.
Defined.

Lemma buckets_are_isolated_witness :
  getObject (createS3Store demo_cwd "bucket" None) "a/b"
    (snd (createObject (createS3Store demo_cwd "other" None) "a/b"
            (StringBody "x") None fs_created))
  = (fst (getObject (createS3Store demo_cwd "bucket" None) "a/b" fs_created),
     snd (createObject (createS3Store demo_cwd "other" None) "a/b"
            (StringBody "x") None fs_created)).
Proof.
  eapply (buckets_are_isolated demo_cwd None "other" "bucket" "a/b" "a/b"
            (StringBody "x") EmptyString None fs_created).
  - reflexivity.
  - reflexivity.
  - discriminate.
  - reflexivity.
  - reflexivity.
  - vm_compute. reflexivity.
  - vm_compute. reflexivity.
  - left. reflexivity.
Defined.

Section Collisions.

Import StrFacts FsFacts PathFacts JsonFacts StoreFacts OperationFacts ListFacts.
Import FrameFacts KeyFacts JoinFacts FsErrorFacts Json.

Variable store : S3StoreMock.

Lemma nameless_key_has_no_object key fs :
  key_leaf key = EmptyString \/ key_leaf key = "." \/ key_leaf key = ".." ->
  forall c x,
    Fs.readFile fs (getFilePath store key) = Ok c ->
    Fs.readFile fs (getMetaPath store key) = Ok x -> False.
Proof.
  intros Hleaf c x Hd Hm.
  apply readFile_find in Hd as (_ & _ & Hd).
  apply readFile_find in Hm as (_ & _ & Hm).
  unfold getFilePath in Hd. unfold getMetaPath in Hm.
  rewrite file_components in Hd. rewrite meta_components in Hm.
  destruct (find_prefix _ _ _ _ Hm) as [es Hdir]; [discriminate|].
  destruct (step_cases (key_parent (basePath store) key) (key_leaf key))
    as [(_ & H1 & H2 & H3)|[[_ Hs]|[_ Hs]]].
  - destruct Hleaf as [E|[E|E]]; contradiction.
  - rewrite Hs in Hd. congruence.
  - rewrite Hs in Hd. destruct (find_removelast _ _ _ Hdir) as [es' Hdir']. congruence.
Qed.

(** X17.  A key whose last piece is empty, [.] or [..] (the empty key, a
    key that ends with a separator) names no file: [createObject] and
    [putObjectIfMatch] throw for it, on every file system. *)
Theorem nameless_keys_cannot_be_written
    (key : string) (body : Body) (etag0 : string) (contentType : option string)
    (fs : Fs.node) :
  key_leaf key = EmptyString \/ key_leaf key = "." \/ key_leaf key = ".." ->
  (exists e fs', createObject store key body contentType fs = (Err e, fs'))
  /\ (exists e fs', putObjectIfMatch store key body etag0 contentType fs = (Err e, fs')).
Proof.
  intros Hleaf. split.
  - destruct (createObject store key body contentType fs) as [[r|e] fs'] eqn:H; [|eauto].
    apply createObject_inv in H as (_ & Hd & Hm).
    destruct (nameless_key_has_no_object key fs' Hleaf _ _ Hd Hm).
  - destruct (putObjectIfMatch store key body etag0 contentType fs) as [[r|e] fs'] eqn:H;
      [|eauto].
    apply putObjectIfMatch_inv in H as [_ H].
    apply store_object_ok in H as (_ & Hd & Hm).
    destruct (nameless_key_has_no_object key fs' Hleaf _ _ Hd Hm).
Qed.

(** X18.  A key that names a directory (as [a] does once an object [a/b]
    exists) is taken for an existing key by [createObject], which throws
    the KeyExistsError, while [getObject] and [deleteObject] throw the
    EISDIR of the file system and [putObjectIfMatch] throws as well;
    nothing is changed. *)
Theorem key_of_a_directory
    (key : string) (fs : Fs.node) (es : list (string * Fs.node)) :
  Fs.lookup fs (getFilePath store key) = Ok (Fs.Dir es) ->
  (forall body contentType,
     createObject store key body contentType fs = (Err (KeyExistsError KEY_EXISTS), fs))
  /\ getObject store key fs = (Err (SystemError Fs.EISDIR), fs)
  /\ deleteObject store key fs = (Err (SystemError Fs.EISDIR), fs)
  /\ (forall body etag0 contentType,
        exists e, putObjectIfMatch store key body etag0 contentType fs = (Err e, fs)).
Proof.
  intros Hl. pose proof (lookup_dir _ _ _ Hl) as [Hn Hf].
  split; [|split; [|split]].
  - intros body ct. rewrite createObject_unfold. unfold Fs.access. rewrite Hl. reflexivity.
  - rewrite getObject_spec. unfold Fs.readFile. rewrite Hl. reflexivity.
  - unfold deleteObject, bind. rewrite unlink_if_present_spec. unfold Fs.unlink.
    rewrite Hn, (find_dir_unlink _ _ _ _ Hf). reflexivity.
  - intros body etag0 ct. rewrite putObjectIfMatch_cases.
    destruct (stale _ etag0); [eauto|].
    unfold store_object, bind, ensureDir, fs_update.
    destruct (find_removelast _ _ _ Hf) as [es' Hparent].
    unfold Fs.mkdir_recursive, Fs.has_nul, Path.dirname. cbn [Path.components].
    rewrite (existsb_removelast _ _ Hn), (mkdirp_dir _ _ _ Hparent).
    unfold Fs.writeFile. rewrite Hn, (find_dir_write _ _ _ _ _ Hf). eauto.
Qed.

(** X19.  A key below an object (as [a/b] is once an object [a] exists)
    cannot be created: [createObject] throws the error of the file system
    and changes nothing.  For such a key [getObject] throws ENOTDIR, where
    [getObjectIfMatch] throws NoSuchKey. *)
Theorem key_below_an_object (key : string) (fs : Fs.node) :
  Fs.access fs (getFilePath store key) = Err Fs.ENOTDIR ->
  (forall body contentType,
     exists c, createObject store key body contentType fs = (Err (SystemError c), fs))
  /\ getObject store key fs = (Err (SystemError Fs.ENOTDIR), fs)
  /\ (forall etag0,
        getObjectIfMatch store key etag0 fs = (Err (NoSuchKey "NoSuchKey"), fs)).
Proof.
  intros Ha.
  assert (Hl : Fs.lookup fs (getFilePath store key) = Err Fs.ENOTDIR).
  { unfold Fs.access in Ha. destruct (Fs.lookup fs _); [discriminate|congruence]. }
  split; [|split].
  - intros body ct. rewrite createObject_unfold, Ha.
    apply lookup_enotdir in Hl as [Hn Hf].
    unfold store_object, bind, ensureDir, fs_update.
    unfold Fs.mkdir_recursive, Fs.has_nul, Path.dirname. cbn [Path.components].
    rewrite (existsb_removelast _ _ Hn).
    destruct Hf as [Hf|(x & Hf & Ht)].
    + destruct (find_enotdir_mkdirp _ _ Hf) as [e ->]. eauto.
    + destruct (Path.components (getFilePath store key)) as [|s l] eqn:Ec.
      * simpl in Hf. injection Hf as ->. simpl. eauto.
      * assert (Hne : s :: l <> []) by discriminate.
        rewrite (app_removelast_last EmptyString Hne) in Hf.
        rewrite (mkdirp_parent _ _ _ _ Hf).
        rewrite <- (app_removelast_last EmptyString Hne) in Hf.
        unfold Fs.writeFile. rewrite Hn, Ec, Ht, (find_file_write_trailing _ _ _ _ Hf).
        eauto.
  - rewrite getObject_spec. unfold Fs.readFile. rewrite Hl. reflexivity.
  - intros etag0. rewrite getObjectIfMatch_cases, Ha. reflexivity.
Qed.

End Collisions.

Lemma nameless_keys_cannot_be_written_witness :
  (exists e fs',
     createObject demo_store "a/" (StringBody "x") None fs_home = (Err e, fs'))
  /\ (exists e fs',
        putObjectIfMatch demo_store "a/" (StringBody "x") "e" None fs_home = (Err e, fs')).
Proof.
  apply (nameless_keys_cannot_be_written demo_store "a/" (StringBody "x") "e" None fs_home).
  left. reflexivity.
Defined.

Lemma key_of_a_directory_witness :
  (forall body contentType,
     createObject demo_store "a" body contentType fs_created
     = (Err (KeyExistsError KEY_EXISTS), fs_created))
  /\ getObject demo_store "a" fs_created = (Err (SystemError Fs.EISDIR), fs_created)
  /\ deleteObject demo_store "a" fs_created = (Err (SystemError Fs.EISDIR), fs_created)
  /\ (forall body etag0 contentType,
        exists e,
          putObjectIfMatch demo_store "a" body etag0 contentType fs_created
          = (Err e, fs_created)).
Proof.
  eapply (key_of_a_directory demo_store "a" fs_created).
  vm_compute. reflexivity.
Defined.

Lemma key_below_an_object_witness :
  (forall body contentType,
     exists c,
       createObject demo_store "a/b/c" body contentType fs_created
       = (Err (SystemError c), fs_created))
  /\ getObject demo_store "a/b/c" fs_created = (Err (SystemError Fs.ENOTDIR), fs_created)
  /\ (forall etag0,
        getObjectIfMatch demo_store "a/b/c" etag0 fs_created
        = (Err (NoSuchKey "NoSuchKey"), fs_created)).
Proof.
  apply (key_below_an_object demo_store "a/b/c" fs_created).
  vm_compute. reflexivity.
Defined.

Section PartialWrites.

Import StrFacts FsFacts PathFacts JsonFacts StoreFacts OperationFacts ListFacts.
Import FrameFacts KeyFacts JoinFacts FsErrorFacts FsWriteFacts Json.

Variable store : S3StoreMock.

(** X20.  [createObject] is not atomic.  With no data artifact and a
    directory at the metadata path (as [k.meta] is once an object
    [k.meta/x] exists), it writes the data artifact and then throws
    EISDIR: what it leaves is an object without stored record, which
    [getObject] returns with an undefined etag. *)
Theorem createObject_stops_after_the_data
    (key : string) (body : Body) (contentType : option string)
    (fs : Fs.node) (es : list (string * Fs.node)) :
  Fs.access fs (getFilePath store key) = Err Fs.ENOENT ->
  Fs.lookup fs (getMetaPath store key) = Ok (Fs.Dir es) ->
  exists fs',
    createObject store key body contentType fs = (Err (SystemError Fs.EISDIR), fs')
    /\ Fs.readFile fs' (getFilePath store key) = Ok (to_content body)
    /\ stored_meta store fs' key = None
    /\ getObject store key fs'
       = (Ok (mkResponse (BodyResponse (to_content body)) JUndefined), fs').
Proof.
  intros Ha Hl. rewrite createObject_unfold, Ha.
  apply lookup_dir in Hl as [Hnul Hfind].
  unfold getMetaPath in Hnul, Hfind. unfold getFilePath in Ha.
  rewrite meta_components in Hfind.
  assert (HnulP : existsb (Str.mem Ascii.zero) (key_parent (basePath store) key) = false
                  /\ Str.mem Ascii.zero (key_leaf key) = false).
  { unfold Fs.has_nul in Hnul. rewrite meta_components, existsb_app in Hnul.
    apply orb_false_iff in Hnul as [H1 H2]. split; [exact H1|].
    cbn [existsb] in H2. rewrite orb_false_r, mem_append in H2.
    apply orb_false_iff in H2 as [H2 _]. exact H2. }
  destruct HnulP as [HnulP Hnull].
  destruct (find_prefix _ _ _ _ Hfind) as [es0 Hdir]; [discriminate|].
  assert (Hplain : key_leaf key <> EmptyString /\ key_leaf key <> "." /\ key_leaf key <> "..").
  { destruct (step_cases (key_parent (basePath store) key) (key_leaf key))
      as [(_ & H)|[[_ Hs]|[_ Hs]]]; [exact H|exfalso..].
    - unfold Fs.access, Fs.lookup, Fs.has_nul in Ha.
      rewrite file_components, Hs, HnulP, Hdir in Ha. discriminate.
    - unfold Fs.access, Fs.lookup, Fs.has_nul in Ha.
      rewrite file_components, Hs, (existsb_removelast _ _ HnulP) in Ha.
      destruct (find_removelast _ _ _ Hdir) as [es' Hdir'].
      rewrite Hdir' in Ha. discriminate. }
  destruct Hplain as (P1 & P2 & P3).
  destruct (file_plain (basePath store) key P1 P2 P3) as [Hcomp Htrail].
  assert (HnulF : Fs.has_nul (Path.join (basePath store) key) = false).
  { unfold Fs.has_nul. rewrite Hcomp, existsb_app, HnulP. simpl.
    rewrite Hnull. reflexivity. }
  assert (Hnone : Fs.assoc (key_leaf key) es0 = None).
  { unfold Fs.access, Fs.lookup in Ha. rewrite HnulF, Hcomp, Htrail in Ha.
    rewrite (find_app _ _ _ _ Hdir) in Ha. simpl in Ha.
    destruct (Fs.assoc (key_leaf key) es0) as [[c|es']|]; [discriminate..|reflexivity]. }
  destruct (write_new_file _ _ _ _ (to_content body) Hdir Hnone) as [fs2 W2].
  assert (Hfind2 : Fs.find fs2 (key_parent (basePath store) key
                                  ++ [(key_leaf key ++ ".meta")%string])%list
                   = Ok (Fs.Dir es)).
  { apply (find_write_apart _ _ _ _ _ _ _ W2); [|exact Hfind].
    intros l E. rewrite <- app_assoc in E. apply app_inv_head in E.
    injection E as E _.
    apply (f_equal String.length) in E. rewrite length_append in E. simpl in E. lia. }
  exists fs2.
  assert (E1 : Fs.mkdir_recursive fs (Path.dirname (getFilePath store key)) = Ok fs).
  { unfold Fs.mkdir_recursive, Fs.has_nul, Path.dirname, getFilePath.
    cbn [Path.components]. rewrite Hcomp, removelast_last, HnulP.
    apply (mkdirp_dir _ _ _ Hdir). }
  assert (E2 : Fs.writeFile fs (getFilePath store key) (to_content body) = Ok fs2).
  { unfold Fs.writeFile, getFilePath. rewrite HnulF, Hcomp, Htrail. exact W2. }
  assert (E3 : Fs.mkdir_recursive fs2 (Path.dirname (getMetaPath store key)) = Ok fs2).
  { unfold Fs.mkdir_recursive, Fs.has_nul, Path.dirname, getMetaPath.
    cbn [Path.components]. rewrite meta_components, removelast_last, HnulP.
    apply (mkdirp_parent _ _ _ _ Hfind2). }
  assert (E4 : forall x, Fs.writeFile fs2 (getMetaPath store key) x = Err Fs.EISDIR).
  { intros x. unfold Fs.writeFile, getMetaPath. rewrite Hnul, meta_components.
    apply (find_dir_write _ _ _ _ _ Hfind2). }
  assert (Hdata : Fs.readFile fs2 (getFilePath store key) = Ok (to_content body)).
  { apply readFile_find. unfold getFilePath. rewrite Hcomp.
    repeat split; auto. apply (find_write_same _ _ _ _ _ W2). }
  assert (Hmeta : stored_meta store fs2 key = None).
  { unfold stored_meta, Fs.readFile, Fs.lookup, getMetaPath.
    rewrite Hnul, meta_components, Hfind2. reflexivity. }
  split; [|split; [exact Hdata|split; [exact Hmeta|]]].
  - unfold store_object, writeMeta, ensureDir, bind, fs_update.
    rewrite JsonFacts.encode_stringify_meta.
    rewrite E1, E2, E3, E4. reflexivity.
  - rewrite getObject_spec, Hdata, Hmeta. reflexivity.
Qed.

(** X21.  [createObject] of the empty key on a bucket whose directory
    does not exist yet writes the body as a regular file at the path of
    the bucket directory and then throws EEXIST; from then on [list]
    throws ENOTDIR. *)
Theorem createObject_empty_key_on_a_new_bucket
    (body : Body) (contentType : option string) (fs fs1 : Fs.node) :
  Fs.access fs (basePath store) = Err Fs.ENOENT ->
  Path.trailing (basePath store) = false ->
  Fs.mkdir_recursive fs (Path.dirname (basePath store)) = Ok fs1 ->
  exists fs',
    createObject store EmptyString body contentType fs
    = (Err (SystemError Fs.EEXIST), fs')
    /\ Fs.readFile fs' (basePath store) = Ok (to_content body)
    /\ list_ store EmptyString fs' = (Err (SystemError Fs.ENOTDIR), fs').
Proof.
  intros Ha Ht Hmk.
  assert (HF : getFilePath store EmptyString = basePath store) by reflexivity.
  assert (HM : Path.components (getMetaPath store EmptyString)
               = (Path.components (basePath store) ++ [".meta"])%list).
  { unfold getMetaPath. apply join_name. reflexivity. }
  rewrite createObject_unfold, HF, Ha.
  apply access_missing in Ha as [Hnul Hmiss].
  pose proof (mkdir_inv _ _ _ Hmk) as Hmk'. cbn [Path.dirname Path.components] in Hmk'.
  destruct (mkdirp_parent_of_missing _ _ _ Hmk' Hmiss) as (es & Hdir & Hnone).
  assert (Hne : Path.components (basePath store) <> []).
  { intros E. rewrite E in Hmiss. discriminate. }
  destruct (write_new_file _ _ _ _ (to_content body) Hdir Hnone) as [fs2 W2].
  rewrite <- (app_removelast_last EmptyString Hne) in W2.
  pose proof (find_write_same _ _ _ _ _ W2) as [Hfile _].
  exists fs2.
  assert (E2 : Fs.writeFile fs1 (basePath store) (to_content body) = Ok fs2).
  { unfold Fs.writeFile. rewrite Hnul, Ht. exact W2. }
  assert (E3 : Fs.mkdir_recursive fs2 (Path.dirname (getMetaPath store EmptyString))
               = Err Fs.EEXIST).
  { unfold Fs.mkdir_recursive, Fs.has_nul, Path.dirname. cbn [Path.components].
    rewrite HM, removelast_last. fold (Fs.has_nul (basePath store)). rewrite Hnul.
    apply (find_file_mkdirp _ _ _ Hfile). }
  assert (Hdata : Fs.readFile fs2 (basePath store) = Ok (to_content body)).
  { apply readFile_find. auto. }
  split; [|split; [exact Hdata|]].
  - unfold store_object, writeMeta, ensureDir, bind, fs_update.
    rewrite JsonFacts.encode_stringify_meta.
    rewrite HF, Hmk, E2, E3. reflexivity.
  - rewrite list_spec.
    change (Path.join (basePath store) EmptyString) with (basePath store).
    rewrite (readFile_access _ _ _ Hdata).
    unfold Fs.readdir, Fs.lookup. rewrite Hnul, Hfile, Ht. reflexivity.
Qed.

End PartialWrites.

Lemma createObject_stops_after_the_data_witness :
  exists fs',
    createObject demo_store "k" (StringBody "hello") None fs_meta_dir
    = (Err (SystemError Fs.EISDIR), fs')
    /\ Fs.readFile fs' (getFilePath demo_store "k") = Ok "hello"
    /\ stored_meta demo_store fs' "k" = None
    /\ getObject demo_store "k" fs'
       = (Ok (mkResponse (BodyResponse "hello") Json.JUndefined), fs').
Proof.
  eapply (createObject_stops_after_the_data demo_store "k" (StringBody "hello") None
            fs_meta_dir).
  - vm_compute. reflexivity.
  - vm_compute. reflexivity.
Defined.

Lemma createObject_empty_key_on_a_new_bucket_witness :
  exists fs',
    createObject demo_store EmptyString (StringBody "hello") None fs_home
    = (Err (SystemError Fs.EEXIST), fs')
    /\ Fs.readFile fs' (basePath demo_store) = Ok "hello"
    /\ list_ demo_store EmptyString fs' = (Err (SystemError Fs.ENOTDIR), fs').
Proof.
  eapply (createObject_empty_key_on_a_new_bucket demo_store (StringBody "hello") None
            fs_home).
  - vm_compute. reflexivity.
  - reflexivity.
  - vm_compute. reflexivity.
Defined.

Section ListAfter.

Import StrFacts FsFacts PathFacts JsonFacts StoreFacts OperationFacts ListFacts.
Import KeyFacts JoinFacts FsErrorFacts ListingFacts Json.

Variable store : S3StoreMock.

(** X22.  A created object is listed: after a successful [createObject]
    of a plain key that has no backslash and does not end in [.meta],
    [list()] over the (well-formed) bucket directory yields one batch,
    which holds the entry of that key with the byte length of the body as
    its size. *)
Theorem list_after_createObject
    (key : string) (body : Body) (contentType : option string)
    (fs : Fs.node) (r : ResponseWrapper) (fs' : Fs.node)
    (entries : list (string * Fs.node)) :
  createObject store key body contentType fs = (Ok r, fs') ->
  plain_key key = true -> no_backslash key = true ->
  Str.endsWith key ".meta" = false ->
  Fs.readdir fs' (basePath store) = Ok entries ->
  well_formed (Fs.Dir entries) = true ->
  exists batch,
    list_ store EmptyString fs' = (Ok [batch], fs')
    /\ In (mkEntry key (String.length (to_content body))) batch.
Proof.
  intros Hc Hk Hb Hm Hr Hw.
  apply createObject_inv in Hc as (_ & Hdata & _).
  apply readFile_find in Hdata as (_ & _ & Hf).
  rewrite (getFilePath_plain _ _ Hk) in Hf. cbn [Path.components] in Hf.
  pose proof (readdir_find _ _ _ Hr) as (_ & Hdir & _).
  rewrite (find_app _ _ _ _ Hdir) in Hf.
  pose proof Hw as Hw'. unfold well_formed in Hw'. apply andb_true_iff in Hw' as [Hd _].
  apply (files_of_find _ Hd) in Hf.
  assert (Hin : In (Path.split key, to_content body) (listed_files entries)).
  { unfold listed_files. apply filter_In. split; [exact Hf|].
    unfold non_meta. cbn [fst]. fold (key_leaf key).
    rewrite (leaf_not_meta _ Hm). reflexivity. }
  rewrite (list_all store _ _ Hr Hw).
  apply (in_map (entry_of (basePath store) (Path.components (basePath store)))) in Hin.
  rewrite (entry_of_key store _ _ Hb) in Hin.
  exists (map (entry_of (basePath store) (Path.components (basePath store)))
              (listed_files entries)).
  split; [|exact Hin].
  unfold batches.
  destruct (map _ (listed_files entries)) as [|e l]; [contradiction|reflexivity].
Qed.

(** X23.  A deleted object is not listed: after a successful
    [deleteObject] of a plain key without backslash, no entry that
    [list()] yields over the (well-formed, backslash-free) bucket
    directory has that key. *)
Theorem list_after_deleteObject
    (key : string) (fs : Fs.node) (r : ResponseWrapper) (fs' : Fs.node)
    (entries : list (string * Fs.node)) :
  deleteObject store key fs = (Ok r, fs') ->
  plain_key key = true -> no_backslash key = true ->
  Fs.readdir fs' (basePath store) = Ok entries ->
  well_formed (Fs.Dir entries) = true ->
  backslash_free (Fs.Dir entries) = true ->
  exists listing,
    list_ store EmptyString fs' = (Ok listing, fs')
    /\ Forall (fun e => Key e <> key) (List.concat listing).
Proof.
  intros Hd Hk Hb Hr Hw Hbf.
  apply deleteObject_inv in Hd as (_ & Hmiss & _).
  apply access_missing in Hmiss as [_ Hmiss].
  rewrite (getFilePath_plain _ _ Hk) in Hmiss. cbn [Path.components] in Hmiss.
  pose proof (readdir_find _ _ _ Hr) as (_ & Hdir & _).
  rewrite (find_app _ _ _ _ Hdir) in Hmiss.
  rewrite (list_all store _ _ Hr Hw). eexists. split; [reflexivity|].
  assert (Hall : Forall (fun e => Key e <> key)
            (map (entry_of (basePath store) (Path.components (basePath store)))
                 (listed_files entries))).
  { apply Forall_forall. intros e He Hkey.
    apply in_map_iff in He as ([p c] & <- & Hin).
    unfold listed_files in Hin. apply filter_In in Hin as [Hin _].
    pose proof Hw as Hw'. unfold well_formed in Hw'.
    apply andb_true_iff in Hw' as [Hdn Hvn].
    pose proof (files_of_names _ _ Hvn _ Hin) as Hvalid. cbn [fst] in Hvalid.
    pose proof (files_of_names _ _ Hbf _ Hin) as Hnb. cbn [fst] in Hnb.
    pose proof (files_of_dir_nonempty _ _ Hin) as Hne. cbn [fst] in Hne.
    unfold entry_of in Hkey. cbn [fst snd Key] in Hkey.
    rewrite relative_under in Hkey. fold (key_of p) in Hkey.
    rewrite <- (key_of_split _ Hb) in Hkey.
    apply key_of_inj in Hkey; try assumption.
    - subst p. apply (files_of_find _ Hdn) in Hin. congruence.
    - apply split_not_nil.
    - apply valid_no_slash, Hvalid.
    - apply valid_no_slash, Hk.
    - apply split_no_backslash, Hb. }
  unfold batches. destruct (0 <? _)%nat; [|constructor].
  cbn [List.concat]. rewrite app_nil_r. exact Hall.
Qed.

End ListAfter.

Lemma list_after_createObject_witness :
  exists batch,
    list_ demo_store EmptyString fs_two = (Ok [batch], fs_two)
    /\ In (mkEntry "c" (String.length "hello!")) batch.
Proof.
  apply (list_after_createObject demo_store "c" (StringBody "hello!") None fs_created
           (write_response "hello!" "application/json") fs_two (entries_at fs_two EmptyString));
    vm_compute; reflexivity.
Defined.

Lemma list_after_deleteObject_witness :
  exists listing,
    list_ demo_store EmptyString fs_one = (Ok listing, fs_one)
    /\ Forall (fun e => Key e <> "a/b") (List.concat listing).
Proof.
  apply (list_after_deleteObject demo_store "a/b" fs_two DELETED fs_one (entries_at fs_one EmptyString));
    vm_compute; reflexivity.
Defined.

Section Wrapper.

Import StrFacts FsFacts PathFacts JsonFacts StoreFacts OperationFacts.
Import Utf8RoundTrip WrapperFacts Json.

Variable store : S3StoreMock.

(** X24.  A string body is read back as it was written: after a
    successful [createObject] of a well-formed string, the response of
    [getObject] returns that string from [asString], its bytes from
    [asByteArray], and the same bytes as the one chunk of
    [asWebStream]. *)
Theorem body_accessors_after_createObject
    (key : string) (cps : list Z) (contentType : option string)
    (fs : Fs.node) (r : ResponseWrapper) (fs' : Fs.node) :
  forallb scalar_value cps = true ->
  createObject store key (StringBody (utf8_of cps)) contentType fs = (Ok r, fs') ->
  exists w,
    getObject store key fs' = (Ok w, fs')
    /\ asString w = Some (utf8_of cps)
    /\ asByteArray w = Some (Str.codes (utf8_of cps))
    /\ asWebStream w = Some [utf8_of cps].
Proof.
  intros Hs H. apply createObject_inv in H as (_ & Hdata & _).
  rewrite getObject_spec, Hdata. eexists. split; [reflexivity|].
  unfold asString, asByteArray, asWebStream, Body_content, transformToString.
  cbn [response option_map]. rewrite (to_content_utf8_of _ Hs).
  rewrite (decode_utf8_of _ Hs). auto.
Qed.

(** X25.  A JSON string survives the round trip: after a successful
    [createObject] of the JSON text of a well-formed string, [asJson] of
    the response of [getObject] is that string. *)
Theorem asJson_after_createObject
    (key : string) (cps : list Z) (contentType : option string)
    (fs : Fs.node) (r : ResponseWrapper) (fs' : Fs.node) :
  forallb scalar_value cps = true ->
  createObject store key (StringBody (quote (utf8_of cps))) contentType fs = (Ok r, fs') ->
  exists w,
    getObject store key fs' = (Ok w, fs')
    /\ asJson w = Some (Ok (JString (utf8_of cps))).
Proof.
  intros Hs H. apply createObject_inv in H as (_ & Hdata & _).
  rewrite getObject_spec, Hdata. eexists. split; [reflexivity|].
  unfold asJson, Body_content, transformToString. cbn [response option_map].
  rewrite to_content_quote, (decode_quote _ Hs), (parse_quote _ Hs). reflexivity.
Qed.

End Wrapper.

Lemma body_accessors_after_createObject_witness :
  exists w,
    getObject demo_store "s" fs_text = (Ok w, fs_text)
    /\ asString w = Some (utf8_of demo_text)
    /\ asByteArray w = Some (Str.codes (utf8_of demo_text))
    /\ asWebStream w = Some [utf8_of demo_text].
Proof.
  apply (body_accessors_after_createObject demo_store "s" demo_text None fs_home
           (write_response (utf8_of demo_text) "application/json") fs_text);
    vm_compute; reflexivity.
Defined.

Lemma asJson_after_createObject_witness :
  exists w,
    getObject demo_store "j" fs_json = (Ok w, fs_json)
    /\ asJson w = Some (Ok (Json.JString (utf8_of demo_text))).
Proof.
  apply (asJson_after_createObject demo_store "j" demo_text None fs_home
           (write_response (Json.quote (utf8_of demo_text)) "application/json") fs_json);
    vm_compute; reflexivity.
Defined.

Section Fresh.

Import StrFacts FsFacts PathFacts JsonFacts StoreFacts OperationFacts ListFacts.
Import FrameFacts KeyFacts JoinFacts FsErrorFacts FsWriteFacts FsDirFacts FreshFacts Json.

Variable store : S3StoreMock.

(** X26.  [createObject] succeeds on a fresh key: when neither artifact
    of the key exists, the last piece of the key is a name (not empty,
    [.] or [..]) and the directory of the key can be made, the call
    returns the etag of the body, and [getObject] then returns the body
    and that etag. *)
Theorem createObject_fresh_key_succeeds
    (key : string) (body : Body) (contentType : option string) (fs fs1 : Fs.node) :
  Fs.access fs (getFilePath store key) = Err Fs.ENOENT ->
  Fs.access fs (getMetaPath store key) = Err Fs.ENOENT ->
  key_leaf key <> EmptyString -> key_leaf key <> "." -> key_leaf key <> ".." ->
  Fs.mkdir_recursive fs (Path.dirname (getFilePath store key)) = Ok fs1 ->
  exists fs',
    createObject store key body contentType fs
    = (Ok (write_response (to_content body) (default_contentType contentType)), fs')
    /\ getObject store key fs'
       = (Ok (mkResponse (BodyResponse (to_content body))
                (JString (calculateEtag (to_content body)))), fs').
Proof.
  intros HaF HaM P1 P2 P3 Hmk.
  destruct (store_object_fresh store key (to_content body) (default_contentType contentType)
              fs fs1 HaF HaM P1 P2 P3 Hmk) as [fs' Hs].
  exists fs'. rewrite createObject_unfold, HaF. split; [exact Hs|].
  apply store_object_ok in Hs as (_ & Hdata & Hmeta).
  rewrite getObject_spec, Hdata, (stored_meta_written store _ _ _ _ Hmeta). reflexivity.
Qed.

End Fresh.

Lemma createObject_fresh_key_succeeds_witness :
  exists fs',
    createObject demo_store "a/b" (StringBody "hello") (Some "text/plain") fs_home
    = (Ok (write_response "hello" "text/plain"), fs')
    /\ getObject demo_store "a/b" fs'
       = (Ok (mkResponse (BodyResponse "hello") (Json.JString (calculateEtag "hello"))),
          fs').
Proof.
  eapply (createObject_fresh_key_succeeds demo_store "a/b" (StringBody "hello")
            (Some "text/plain") fs_home).
  - vm_compute. reflexivity.
  - vm_compute. reflexivity.
  - discriminate.
  - discriminate.
  - discriminate.
  - vm_compute. reflexivity.
Defined.

Section Life.

Import StrFacts FsFacts PathFacts JsonFacts StoreFacts OperationFacts ListFacts.
Import FrameFacts KeyFacts JoinFacts FsErrorFacts FsWriteFacts FsDirFacts FreshFacts ListingFacts.
Import LifeFacts Json.

Variable store : S3StoreMock.

(** X27.  The keys of [list(prefix)] are below the prefix: for a plain
    prefix without backslash that names a directory (of a well-formed
    tree), each regular file of that directory whose name does not end in
    [.meta] is listed under the prefix, a separator and its path from
    that directory. *)
Theorem list_prefix_keys
    (prefix : string) (fs : Fs.node) (entries : list (string * Fs.node)) :
  plain_key prefix = true -> no_backslash prefix = true ->
  Fs.readdir fs (Path.join (basePath store) prefix) = Ok entries ->
  well_formed (Fs.Dir entries) = true ->
  list_ store prefix fs
  = (Ok (batches
           (map (fun f => mkEntry (prefix ++ "/" ++ key_of (fst f)) (String.length (snd f)))
                (listed_files entries))), fs).
Proof.
  intros Hk Hb Hr Hw. rewrite list_spec.
  pose proof (readdir_find _ _ _ Hr) as (_ & _ & Ha). rewrite Ha, Hr.
  unfold well_formed in Hw. apply andb_true_iff in Hw as [_ Hv].
  rewrite (walk_files _ _ _ entries eq_refl Hv).
  fold (listed_files entries). fold (getFilePath store prefix).
  rewrite (getFilePath_plain _ _ Hk). cbn [Path.components].
  do 3 f_equal. apply map_ext_in. intros f Hf.
  unfold listed_files in Hf. apply filter_In in Hf as [Hf _].
  pose proof (files_of_dir_nonempty _ _ Hf) as Hne.
  unfold entry_of. f_equal.
  rewrite <- app_assoc, relative_under.
  rewrite (concat_app _ _ (split_not_nil prefix) Hne), concat_split.
  rewrite replace_backslashes_app, (replace_backslashes_id _ Hb). reflexivity.
Qed.

(** X28.  The etag that [createObject] returns reads the object: after a
    successful [createObject], [getObjectIfMatch] with the returned etag
    returns the body and that etag, and with any other etag it throws the
    StaleDataError. *)
Theorem getObjectIfMatch_after_createObject
    (key : string) (body : Body) (contentType : option string)
    (fs : Fs.node) (r : ResponseWrapper) (fs' : Fs.node) :
  createObject store key body contentType fs = (Ok r, fs') ->
  exists E1,
    etag r = JString E1
    /\ getObjectIfMatch store key E1 fs'
       = (Ok (mkResponse (BodyResponse (to_content body)) (JString E1)), fs')
    /\ forall e, e <> E1 ->
         getObjectIfMatch store key e fs' = (Err (StaleDataError STALE_GET), fs').
Proof.
  intros H. apply createObject_inv in H as (-> & Hdata & Hmeta).
  pose proof (stored_meta_written store _ _ _ _ Hmeta) as Hm.
  exists (calculateEtag (to_content body)). split; [reflexivity|].
  split.
  - rewrite getObjectIfMatch_cases, (readFile_access _ _ _ Hdata).
    rewrite (stale_false _ _ _ _ (matching_record _ _ _ _ _ Hm eq_refl)).
    rewrite getObject_spec, Hdata, Hm. reflexivity.
  - intros e Hne. rewrite getObjectIfMatch_cases, (readFile_access _ _ _ Hdata).
    assert (Hs : etag_mismatch store fs' key e).
    { right. eexists. split; [exact Hm|]. simpl. congruence. }
    apply stale_iff in Hs. rewrite Hs. reflexivity.
Qed.

(** X29.  A deleted key can be created again: after a successful
    [createObject], [deleteObject] of the key succeeds, and a second
    [createObject] of the key then succeeds as well; [getObject] returns
    the second body and its etag. *)
Theorem createObject_after_deleteObject
    (key : string) (B1 B2 : Body) (ct1 ct2 : option string)
    (fs : Fs.node) (r : ResponseWrapper) (fs1 : Fs.node) :
  createObject store key B1 ct1 fs = (Ok r, fs1) ->
  exists fs2 fs3,
    deleteObject store key fs1 = (Ok DELETED, fs2)
    /\ createObject store key B2 ct2 fs2
       = (Ok (write_response (to_content B2) (default_contentType ct2)), fs3)
    /\ getObject store key fs3
       = (Ok (mkResponse (BodyResponse (to_content B2))
                (JString (calculateEtag (to_content B2)))), fs3).
Proof.
  intros H. apply createObject_inv in H as (_ & Hdata & Hmeta).
  destruct (object_key_has_a_name store _ _ _ _ Hdata Hmeta) as (P1 & P2 & P3).
  destruct (deleteObject_removable store key fs1) as (fs2 & Hd & HF & HM);
    [left; eauto..|].
  pose proof (deleteObject_keeps_directory store _ _ _ _ _ Hd Hmeta) as Hmk.
  assert (Hdir : Path.dirname (getMetaPath store key) = Path.dirname (getFilePath store key)).
  { unfold Path.dirname. f_equal. unfold getMetaPath, getFilePath.
    rewrite meta_components.
    rewrite (proj1 (file_plain (basePath store) key P1 P2 P3)), !removelast_last.
    reflexivity. }
  rewrite Hdir in Hmk.
  destruct (store_object_fresh store key (to_content B2) (default_contentType ct2)
              fs2 fs2 HF HM P1 P2 P3 Hmk) as [fs3 Hs].
  exists fs2, fs3. split; [exact Hd|].
  rewrite createObject_unfold, HF. split; [exact Hs|].
  apply store_object_ok in Hs as (_ & Hdata3 & Hmeta3).
  rewrite getObject_spec, Hdata3, (stored_meta_written store _ _ _ _ Hmeta3). reflexivity.
Qed.

(** X30.  A prefix that names a regular file, as the key of an object
    does, is not listed: [list] throws ENOTDIR. *)
Theorem list_of_an_object_key (prefix : string) (fs : Fs.node) (content : string) :
  Fs.readFile fs (Path.join (basePath store) prefix) = Ok content ->
  list_ store prefix fs = (Err (SystemError Fs.ENOTDIR), fs).
Proof.
  intros H. rewrite list_spec, (readFile_access _ _ _ H).
  unfold Fs.readFile in H. unfold Fs.readdir.
  destruct (Fs.lookup fs _) as [[x|es]|e]; try discriminate. reflexivity.
Qed.

End Life.

Lemma list_prefix_keys_witness :
  list_ demo_store "a" fs_created
  = (Ok (batches
           (map (fun f => mkEntry ("a" ++ "/" ++ key_of (fst f)) (String.length (snd f)))
                (listed_files (entries_at fs_created "a")))), fs_created).
Proof.
  apply (list_prefix_keys demo_store "a" fs_created (entries_at fs_created "a"));
    vm_compute; reflexivity.
Defined.

Lemma getObjectIfMatch_after_createObject_witness :
  exists E1,
    etag (write_response "hello" "text/plain") = Json.JString E1
    /\ getObjectIfMatch demo_store "a/b" E1 fs_created
       = (Ok (mkResponse (BodyResponse "hello") (Json.JString E1)), fs_created)
    /\ forall e, e <> E1 ->
         getObjectIfMatch demo_store "a/b" e fs_created
         = (Err (StaleDataError STALE_GET), fs_created).
Proof.
  apply (getObjectIfMatch_after_createObject demo_store "a/b" (StringBody "hello")
           (Some "text/plain") fs_home).
  vm_compute. reflexivity.
Defined.

Lemma createObject_after_deleteObject_witness :
  exists fs2 fs3,
    deleteObject demo_store "a/b" fs_created = (Ok DELETED, fs2)
    /\ createObject demo_store "a/b" (StringBody "again") None fs2
       = (Ok (write_response "again" "application/json"), fs3)
    /\ getObject demo_store "a/b" fs3
       = (Ok (mkResponse (BodyResponse "again") (Json.JString (calculateEtag "again"))),
          fs3).
Proof.
  apply (createObject_after_deleteObject demo_store "a/b" (StringBody "hello")
           (StringBody "again") (Some "text/plain") None fs_home
           (write_response "hello" "text/plain")).
  vm_compute. reflexivity.
Defined.

Lemma list_of_an_object_key_witness :
  list_ demo_store "a/b" fs_created = (Err (SystemError Fs.ENOTDIR), fs_created).
Proof.
  apply (list_of_an_object_key demo_store "a/b" fs_created "hello").
  vm_compute. reflexivity.
Defined.


(** * Tests of the embedding on known values *)

Example md5_empty : Md5.md5_hex "" = "d41d8cd98f00b204e9800998ecf8427e".
Proof. vm_compute. reflexivity. Qed.

Example md5_abc : Md5.md5_hex "abc" = "900150983cd24fb0d6963f7d28e17f72".
Proof. vm_compute. reflexivity. Qed.

Example utf8_decode_valid :
  Utf8.decode (Str.of_codes [0x61; 0xc3; 0xa9; 0xe2; 0x82; 0xac; 0xf0; 0x9f; 0x98; 0x80])
  = Str.of_codes [0x61; 0xc3; 0xa9; 0xe2; 0x82; 0xac; 0xf0; 0x9f; 0x98; 0x80].
Proof. vm_compute. reflexivity. Qed.

Example utf8_decode_invalid :
  Utf8.decode (Str.of_codes [0xff; 0x61; 0xe2; 0x82; 0x62; 0xc0; 0x80; 0xed; 0xa0; 0x80; 0xe2])
  = Str.of_codes [0xef; 0xbf; 0xbd; 0x61; 0xef; 0xbf; 0xbd; 0x62;
                  0xef; 0xbf; 0xbd; 0xef; 0xbf; 0xbd;
                  0xef; 0xbf; 0xbd; 0xef; 0xbf; 0xbd; 0xef; 0xbf; 0xbd; 0xef; 0xbf; 0xbd].
Proof. vm_compute. reflexivity. Qed.

(** [Buffer.from('a\ud800b\u{1f600}')]: the unpaired surrogate becomes
    U+FFFD, the rest is UTF-8. *)
Example utf8_encode_surrogate :
  Utf8.encode (utf8_of [0x61; 0xd800; 0x62; 0x1f600])
  = Str.of_codes [0x61; 0xef; 0xbf; 0xbd; 0x62; 0xf0; 0x9f; 0x98; 0x80].
Proof. vm_compute. reflexivity. Qed.

(** [JSON.stringify] of a string with a control character, a quote, an
    unpaired surrogate and a character of four bytes; and the string read
    back from that text. *)
Example json_escape_surrogate :
  Json.escape (utf8_of [0x1f; 0x22; 0xdfff; 0x1f600])
  = "\u001f\" ++ String Json.dquote ("\udfff" ++ utf8_of [0x1f600])
  /\ Json.parse (Json.quote (utf8_of [0x1f; 0x22; 0xdfff; 0x1f600]))
     = Some (Json.JString (utf8_of [0x1f; 0x22; 0xdfff; 0x1f600])).
Proof. split; vm_compute; reflexivity. Qed.

Example path_join_key :
  Path.join (Path.mk ["cwd"; ".s3StoreMock"; "bkt"] false) "a/./b//../c/"
  = Path.mk ["cwd"; ".s3StoreMock"; "bkt"; "a"; "c"] true.
Proof. reflexivity. Qed.

Example path_relative_up :
  Path.relative (Path.mk ["m"; "bkt"] false) (Path.mk ["m"; "other"; "f"] false) = "../other/f".
Proof. reflexivity. Qed.

(** The scenario of the specification: create, read, update, a stale
    update, list, delete, and a read of the deleted key. *)
Example scenario_create :
  createObject demo_store "a/b" (StringBody "hello") (Some "text/plain") fs_home
  = (Ok (write_response "hello" "text/plain"), fs_created)
  /\ calculateEtag "hello" = String Json.dquote ("5d41402abc4b2a76b9719d911017c592" ++ String Json.dquote EmptyString).
Proof. split; vm_compute; reflexivity. Qed.

Example scenario_read :
  getObject demo_store "a/b" fs_created
  = (Ok (mkResponse (BodyResponse "hello") (Json.JString (calculateEtag "hello"))), fs_created).
Proof. vm_compute. reflexivity. Qed.

Example scenario_update :
  putObjectIfMatch demo_store "a/b" (StringBody "world") (calculateEtag "hello") None fs_created
  = (Ok (write_response "world" "application/json"), fs_updated)
  /\ calculateEtag "world" <> calculateEtag "hello".
Proof. split; [vm_compute; reflexivity|vm_compute; discriminate]. Qed.

Example scenario_list :
  list_ demo_store EmptyString fs_updated = (Ok [[mkEntry "a/b" 5]], fs_updated).
Proof. vm_compute. reflexivity. Qed.

Example scenario_delete :
  deleteObject demo_store "a/b" fs_updated = (Ok DELETED, fs_deleted)
  /\ getObject demo_store "a/b" fs_deleted = (Err (NoSuchKey "Error"), fs_deleted).
Proof. split; vm_compute; reflexivity. Qed.

(** A key with a backslash is listed with a slash, as the key of another
    object would be. *)
Example list_backslash :
  list_ demo_store EmptyString
    (snd (createObject demo_store "a\b" (StringBody "x") None fs_updated))
  = (Ok [[mkEntry "a/b" 5; mkEntry "a/b" 1]],
     snd (createObject demo_store "a\b" (StringBody "x") None fs_updated)).
Proof. vm_compute. reflexivity. Qed.
